(** * aws_inspector: a shallow embedding of problem3/aws_inspector.py

    The script enumerates IAM users, EC2 instances, S3 buckets and security
    groups through boto3 clients and prints one report.  The embedding keeps
    the shape of the Python source:

    - the boto3 clients are an oracle ([Cloud]): every client method is a
      function of the calls made so far, so the same call may fail once and
      succeed when it is made again; the construction of the clients and
      the calls that write the report ([open], [write], [print]) succeed or
      raise as the same oracle says;
    - argparse's own exits are the two extra cases of [CommandLine];
    - Python code is a computation in a state-and-exception monad [M];
      [try ... except C] is [try_except];
    - local variables that a handler or a retry can observe after an
      exception ([count], [total], [attached]) are cells of the state;
    - the dictionaries the collectors build are [PyDict] association lists in
      the order of the source's dict literals. *)

From Stdlib Require Import ZArith String List DecimalString Lia.
From stdpp Require Import gmap strings list.

Open Scope Z_scope.

(** ** Python values *)

Set Warnings "-register-all".

(** The values that reach [json.dumps]: [None], strings, integers, lists and
    dictionaries (insertion-ordered, hence association lists). *)
Inductive PyVal : Type :=
| PyNone
| PyStr (s : string)
| PyInt (z : Z)
| PyList (items : list PyVal)
| PyDict (items : list (PyVal * PyVal)).

(** [d.get("k")] of an API response: an absent key gives [None]. *)
Definition py_opt_str (o : option string) : PyVal :=
  match o with Some s => PyStr s | None => PyNone end.

(** Equality of hashable keys ([None], [str], [int]). *)
Definition key_eqb (a b : PyVal) : bool :=
  match a, b with
  | PyNone, PyNone => true
  | PyStr s, PyStr t => String.eqb s t
  | PyInt x, PyInt y => Z.eqb x y
  | _, _ => false
  end.

Fixpoint assoc_get (k : PyVal) (kvs : list (PyVal * PyVal)) : option PyVal :=
  match kvs with
  | [] => None
  | (k', v) :: rest => if key_eqb k k' then Some v else assoc_get k rest
  end.

(** [d[k] = v]: an existing key keeps its position, a new key goes last. *)
Fixpoint assoc_set (k v : PyVal) (kvs : list (PyVal * PyVal)) : list (PyVal * PyVal) :=
  match kvs with
  | [] => [(k, v)]
  | (k', v') :: rest =>
      if key_eqb k k' then (k', v) :: rest else (k', v') :: assoc_set k v rest
  end.

(** [d.get(k)] on a record; [None] when [d] is not a dictionary. *)
Definition dict_get (k : string) (d : PyVal) : option PyVal :=
  match d with
  | PyDict kvs => assoc_get (PyStr k) kvs
  | _ => None
  end.

Definition dict_set (k : string) (v : PyVal) (d : PyVal) : PyVal :=
  match d with
  | PyDict kvs => PyDict (assoc_set (PyStr k) v kvs)
  | other => other
  end.

Definition dict_keys (d : PyVal) : list PyVal :=
  match d with
  | PyDict kvs => map fst kvs
  | _ => []
  end.

(** One entry of a dict literal with a string key. *)
Definition item (k : string) (v : PyVal) : PyVal * PyVal := (PyStr k, v).

(** [str(n)] for an integer. *)
Definition str_int (n : Z) : string := NilZero.string_of_int (Z.to_int n).

(** [str(x)] / [f"{x}"] for an optional integer or string. *)
Definition str_opt_int (o : option Z) : string :=
  match o with Some n => str_int n | None => "None" end.

Definition str_opt_str (o : option string) : string :=
  match o with Some s => s | None => "None" end.

(** Truthiness of an optional string: [None] and [""] are falsy. *)
Definition truthy_str (o : option string) : bool :=
  match o with
  | Some s => negb (String.eqb s "")
  | None => false
  end.

(** [", ".join(parts)]. *)
Fixpoint join (sep : string) (parts : list string) : string :=
  match parts with
  | [] => ""
  | [p] => p
  | p :: rest => p +:+ sep +:+ join sep rest
  end.

(** ** Exceptions and outcomes *)

Inductive Exc : Type :=
| EndpointConnectionError
| ConnectTimeoutError
| ReadTimeoutError
| ClientError (msg : string)
| KeyError (key : string)
| KeyboardInterrupt
| SystemExit (code : Z)
| OtherException (name : string).

(** The tuple of classes in the retry guard's [except] clause. *)
Definition is_network_error (e : Exc) : bool :=
  match e with
  | EndpointConnectionError | ConnectTimeoutError | ReadTimeoutError => true
  | _ => false
  end.

Definition is_client_error (e : Exc) : bool :=
  match e with ClientError _ => true | _ => false end.

Definition is_keyboard_interrupt (e : Exc) : bool :=
  match e with KeyboardInterrupt => true | _ => false end.

(** [str(e)] as used in [f"Authentication failed: {e}"]. *)
Definition str_exc (e : Exc) : string :=
  match e with
  | ClientError msg => msg
  | KeyError k => "'" +:+ k +:+ "'"
  | OtherException n => n
  | _ => ""
  end.

Inductive Outcome (A : Type) : Type :=
| Return (a : A)
| Raise (e : Exc).
Arguments Return {A} a.
Arguments Raise {A} e.

(** ** The world outside the interpreter *)

(** Calls on the boto3 clients, in the order they are made. *)
Inductive Call : Type :=
| GetCallerIdentity
| GetPaginator (operation : string)
| ListUsers
| GetUser (username : option string)
| ListAttachedUserPolicies (username : option string)
| DescribeInstances
| DescribeImages (image_ids : list string)
| ListBuckets
| GetBucketLocation (bucket : string)
| ListObjectsV2 (bucket : string)
| DescribeSecurityGroups.

#[global] Instance Call_eq_dec : EqDecision Call.
Proof. solve_decision. Defined.

(** What the script hands to [print] or [write]: [json.dumps(payload,
    indent=2)] is kept symbolic, the table is a string.  [Partial whole] is
    what a [print] or [write] that failed part-way left behind: some prefix
    of [whole], possibly empty. *)
Inductive Rendered : Type :=
| JsonDumps (payload : PyVal) (indent : Z)
| Text (s : string)
| Partial (whole : Rendered).

Record World : Type := mkWorld {
  calls : list Call;                       (* client calls made so far *)
  stderr : list string;                    (* lines printed to sys.stderr *)
  stdout : list Rendered;                  (* values printed to sys.stdout *)
  files : list (string * Rendered);        (* open(path, "w").write(text) *)
  slept : Z                                (* seconds spent in time.sleep *)
}.

Definition initial_world : World :=
  {| calls := []; stderr := []; stdout := []; files := []; slept := 0 |}.

(** A Python frame may carry local cells next to the world. *)
Class HasWorld (S : Type) : Type := {
  get_world : S -> World;
  set_world : World -> S -> S
}.

#[global] Instance world_itself : HasWorld World :=
  {| get_world := fun w => w; set_world := fun w _ => w |}.

#[global] Instance world_under_cell (L S : Type) `{HasWorld S} : HasWorld (L * S) :=
  {| get_world := fun s => get_world (snd s);
     set_world := fun w s => (fst s, set_world w (snd s)) |}.

(** ** The monad of Python statements *)

Definition M (S A : Type) : Type := S -> Outcome A * S.

Definition ret {S A} (a : A) : M S A := fun s => (Return a, s).

Definition raise {S A} (e : Exc) : M S A := fun s => (Raise e, s).

Definition bind {S A B} (m : M S A) (k : A -> M S B) : M S B :=
  fun s =>
    match m s with
    | (Return a, s') => k a s'
    | (Raise e, s') => (Raise e, s')
    end.

Declare Scope py_scope.
Delimit Scope py_scope with py.
Notation "x <- m ;; k" := (bind m (fun x => k))
  (at level 100, m at next level, right associativity) : py_scope.
Notation "m ;;; k" := (bind m (fun _ => k))
  (at level 100, right associativity) : py_scope.
Open Scope py_scope.

(** [try: body  except <classes>: handler].  An exception outside [classes]
    passes through. *)
Definition try_except {S A} (body : M S A) (classes : Exc -> bool)
    (handler : Exc -> M S A) : M S A :=
  fun s =>
    match body s with
    | (Return a, s') => (Return a, s')
    | (Raise e, s') => if classes e then handler e s' else (Raise e, s')
    end.

(** [for x in xs: body], with the loop's accumulator passed along. *)
Fixpoint for_each {S X Acc} (xs : list X) (body : Acc -> X -> M S Acc)
    (acc : Acc) : M S Acc :=
  match xs with
  | [] => ret acc
  | x :: rest => acc' <- body acc x ;; for_each rest body acc'
  end.

(** Run [m] in a frame extended by one local cell; the cell's last value is
    returned with the result, whatever happened inside. *)
Definition with_cell {S L A} (init : L) (m : M (L * S) A) : M S (A * L) :=
  fun s =>
    match m (init, s) with
    | (Return a, (l, s')) => (Return (a, l), s')
    | (Raise e, (_, s')) => (Raise e, s')
    end.

Definition read_cell {S L} : M (L * S) L := fun s => (Return (fst s), s).

Definition update_cell {S L} (f : L -> L) : M (L * S) unit :=
  fun s => (Return tt, (f (fst s), snd s)).

(** Console and clock. *)
Definition on_world {S} `{HasWorld S} (f : World -> World) : M S unit :=
  fun s => (Return tt, set_world (f (get_world s)) s).

Definition print_stderr (line : string) (w : World) : World :=
  {| calls := calls w; stderr := stderr w ++ [line]; stdout := stdout w;
     files := files w; slept := slept w |}.

Definition print_stdout (r : Rendered) (w : World) : World :=
  {| calls := calls w; stderr := stderr w; stdout := stdout w ++ [r];
     files := files w; slept := slept w |}.

Definition write_file (path : string) (r : Rendered) (w : World) : World :=
  {| calls := calls w; stderr := stderr w; stdout := stdout w;
     files := files w ++ [(path, r)]; slept := slept w |}.

Definition add_sleep (seconds : Z) (w : World) : World :=
  {| calls := calls w; stderr := stderr w; stdout := stdout w;
     files := files w; slept := slept w + seconds |}.

Definition record_call (c : Call) (w : World) : World :=
  {| calls := calls w ++ [c]; stderr := stderr w; stdout := stdout w;
     files := files w; slept := slept w |}.

Definition warn {S} `{HasWorld S} (msg : string) : M S unit :=
  on_world (print_stderr ("[WARNING] " +:+ msg)).

Definition error {S} `{HasWorld S} (msg : string) : M S unit :=
  on_world (print_stderr ("[ERROR] " +:+ msg)).

Definition time_sleep {S} `{HasWorld S} (seconds : Z) : M S unit :=
  on_world (add_sleep seconds).

Definition sys_exit {S A} (code : Z) : M S A := raise (SystemExit code).

(** A single-shot client call: the answer depends on the calls made before
    it, and the call is recorded. *)
Definition client_call {S} `{HasWorld S} {A} (c : Call)
    (answer : list Call -> Outcome A) : M S A :=
  fun s =>
    let w := get_world s in
    (answer (calls w), set_world (record_call c w) s).

(** A paginated listing: the pages that arrive, and the exception that ends
    the iteration early, if any. *)
Record Paged (P : Type) : Type := mkPaged {
  pages : list P;
  failure : option Exc
}.
Arguments mkPaged {P} pages failure.
Arguments pages {P} p.
Arguments failure {P} p.

(** [for page in paginator.paginate(...): body]: the body runs on every page
    that arrived, then the listing's failure, if any, is raised. *)
Definition for_pages {S P Acc} (pg : Paged P) (body : Acc -> P -> M S Acc)
    (acc : Acc) : M S Acc :=
  acc' <- for_each (pages pg) body acc ;;
  match failure pg with
  | Some e => raise e
  | None => ret acc'
  end.

(** ** Retry guard *)

(** [try_once_retry_once(fn, on=...)].  The result is [Some v] for a value
    returned by [fn] and [None] for Python's [None] after the second
    network failure. *)
Definition try_once_retry_once {S} `{HasWorld S} {A} (fn : M S A) (on : string)
    : M S (option A) :=
  try_except
    (v <- fn ;; ret (Some v))
    is_network_error
    (fun _ =>
       warn ("Network issue while " +:+ on +:+ ", retrying...") ;;;
       time_sleep 1 ;;;
       try_except
         (v <- fn ;; ret (Some v))
         is_network_error
         (fun _ =>
            warn ("Network issue persisted while " +:+ on +:+ ", skipping.") ;;;
            ret None)).

(** [guarded or out] for a list result: [None] and [[]] both give [out]. *)
Definition or_list {X} (r : option (list X)) (out : list X) : list X :=
  match r with
  | Some (x :: rest) => x :: rest
  | _ => out
  end.

(** [guarded or (0, 0)] for a pair result: a 2-tuple is always truthy. *)
Definition or_pair {X Y} (r : option (X * Y)) (dflt : X * Y) : X * Y :=
  match r with
  | Some p => p
  | None => dflt
  end.

(** A test double: the operation [fn] with a counter of its invocations kept
    in a cell of its own, out of [fn]'s reach. *)
Definition counted {S A} (fn : M S A) : M (Z * S) A :=
  fun s =>
    match fn (snd s) with
    | (r, s') => (r, (fst s + 1, s'))
    end.

(** The state a computation leaves behind. *)
Definition state_after {S A} (m : M S A) (s : S) : S := snd (m s).

(** The state in which the guard makes its second attempt, and the state it
    leaves when it gives up. *)
Definition before_retry {S} `{HasWorld S} (on : string) (s : S) : S :=
  state_after
    (warn ("Network issue while " +:+ on +:+ ", retrying...") ;;; time_sleep 1) s.

Definition after_giving_up {S} `{HasWorld S} (on : string) (s : S) : S :=
  state_after
    (warn ("Network issue persisted while " +:+ on +:+ ", skipping.")) s.

(** ** Dates *)

(** The part of [datetime] the script uses; the library is outside the
    repository, so its operations are an interface. *)
Class DatetimeOps (DT : Type) : Type := {
  tzinfo_is_none : DT -> bool;
  replace_tzinfo_utc : DT -> DT;
  astimezone_utc : DT -> DT;
  strftime : DT -> string -> string
}.

Definition utc_iso {DT} `{DatetimeOps DT} (dt : option DT) : option string :=
  match dt with
  | None => None
  | Some d =>
      let d := if tzinfo_is_none d then replace_tzinfo_utc d else d in
      Some (strftime (astimezone_utc d) "%Y-%m-%dT%H:%M:%SZ")
  end.

(** ** Shapes of the API responses *)

(** A key that may be missing is an [option]; a list-valued key read with
    [.get(key, [])] is a list, empty when the key is missing. *)

Record CallerIdentity : Type := {
  Account : option string;
  Arn : option string
}.

Record User (DT : Type) : Type := {
  UserName : option string;
  UserId : option string;
  user_Arn : option string;
  CreateDate : option DT
}.
Arguments UserName {DT} _.
Arguments UserId {DT} _.
Arguments user_Arn {DT} _.
Arguments CreateDate {DT} _.

Record UsersPage (DT : Type) : Type := { Users : list (User DT) }.
Arguments Users {DT} _.

Record UserDetail (DT : Type) : Type := { PasswordLastUsed : option DT }.
Arguments PasswordLastUsed {DT} _.

Record GetUserResponse (DT : Type) : Type := { gu_User : option (UserDetail DT) }.
Arguments gu_User {DT} _.

Record AttachedPolicy : Type := {
  PolicyName : option string;
  PolicyArn : option string
}.

Record PoliciesPage : Type := { AttachedPolicies : list AttachedPolicy }.

Record InstanceState : Type := { state_Name : option string }.
Record Placement : Type := { AvailabilityZone : option string }.
Record GroupIdentifier : Type := { gi_GroupId : option string }.
Record Tag : Type := { Key : option string; Value : option string }.

Record Instance (DT : Type) : Type := {
  InstanceId : option string;
  InstanceType : option string;
  State : option InstanceState;
  PublicIpAddress : option string;
  PrivateIpAddress : option string;
  inst_Placement : option Placement;
  LaunchTime : option DT;
  ImageId : option string;
  SecurityGroups : list GroupIdentifier;
  Tags : list Tag
}.
Arguments InstanceId {DT} _.
Arguments InstanceType {DT} _.
Arguments State {DT} _.
Arguments PublicIpAddress {DT} _.
Arguments PrivateIpAddress {DT} _.
Arguments inst_Placement {DT} _.
Arguments LaunchTime {DT} _.
Arguments ImageId {DT} _.
Arguments SecurityGroups {DT} _.
Arguments Tags {DT} _.

Record Reservation (DT : Type) : Type := { Instances : list (Instance DT) }.
Arguments Instances {DT} _.

Record InstancesPage (DT : Type) : Type := { Reservations : list (Reservation DT) }.
Arguments Reservations {DT} _.

Record Image : Type := {
  image_ImageId : option string;
  image_Name : option string
}.

Record ImagesResponse : Type := { Images : list Image }.

Record Bucket (DT : Type) : Type := {
  bucket_Name : option string;
  CreationDate : option DT
}.
Arguments bucket_Name {DT} _.
Arguments CreationDate {DT} _.

Record BucketsResponse (DT : Type) : Type := { Buckets : list (Bucket DT) }.
Arguments Buckets {DT} _.

Record LocationResponse : Type := { LocationConstraint : option string }.

Record S3Object : Type := { Size : option Z }.

Record ObjectsPage : Type := { Contents : list S3Object }.

Record IpRange : Type := { CidrIp : option string }.

Record IpPermission : Type := {
  IpProtocol : option string;
  FromPort : option Z;
  ToPort : option Z;
  IpRanges : list IpRange
}.

Record SecurityGroup : Type := {
  GroupId : option string;
  GroupName : option string;
  Description : option string;
  VpcId : option string;
  IpPermissions : list IpPermission;
  IpPermissionsEgress : list IpPermission
}.

Record SecurityGroupsPage : Type := { page_SecurityGroups : list SecurityGroup }.

(** ** The clients *)

(** The session, the construction of the five boto3 clients, the clients
    themselves and the local output channels.  Each remote method answers as
    a function of the calls made before it.
    [get_paginator(op).paginate(...)] written as one expression is one
    listing: an error raised while the paginator is built shows as a listing
    that fails before its first page.  [boto3_clients region] is the outcome
    of the four [boto3.client(..., region_name=region, config=cfg)] and of
    [boto3.resource("ec2", ...)] in [build_boto3_clients]: botocore raises
    there when no region can be resolved or the region name is malformed.
    [open_w], [file_write] and [print_out] are the outcomes of
    [open(path, "w", encoding="utf-8")], of [.write(text)] on the opened file
    and of [print(text)]. *)
Record Cloud (DT : Type) : Type := {
  get_available_regions : list string;       (* session.get_available_regions("ec2") *)
  region_name : option string;               (* session.region_name *)
  now : list Call -> DT;                     (* datetime.now(timezone.utc) *)
  get_caller_identity : list Call -> Outcome CallerIdentity;
  get_paginator : string -> list Call -> Outcome unit;
  list_users : list Call -> Paged (UsersPage DT);
  get_user : option string -> list Call -> Outcome (GetUserResponse DT);
  list_attached_user_policies : option string -> list Call -> Paged PoliciesPage;
  describe_instances : list Call -> Paged (InstancesPage DT);
  describe_images : list string -> list Call -> Outcome ImagesResponse;
  list_buckets : list Call -> Outcome (BucketsResponse DT);
  get_bucket_location : string -> list Call -> Outcome LocationResponse;
  list_objects_v2 : string -> list Call -> Paged ObjectsPage;
  describe_security_groups : list Call -> Paged SecurityGroupsPage;
  boto3_clients : option string -> Outcome unit;
  open_w : string -> Outcome unit;
  file_write : string -> Rendered -> Outcome unit;
  print_out : Rendered -> Outcome unit
}.
Arguments get_available_regions {DT} _.
Arguments region_name {DT} _.
Arguments now {DT} _.
Arguments get_caller_identity {DT} _.
Arguments get_paginator {DT} _.
Arguments list_users {DT} _.
Arguments get_user {DT} _.
Arguments list_attached_user_policies {DT} _.
Arguments describe_instances {DT} _.
Arguments describe_images {DT} _.
Arguments list_buckets {DT} _.
Arguments get_bucket_location {DT} _.
Arguments list_objects_v2 {DT} _.
Arguments describe_security_groups {DT} _.
Arguments boto3_clients {DT} _.
Arguments open_w {DT} _.
Arguments file_write {DT} _.
Arguments print_out {DT} _.

Definition paginate {S} `{HasWorld S} {P} (c : Call)
    (listing : list Call -> Paged P) : M S (Paged P) :=
  client_call c (fun history => Return (listing history)).

(** [d[key]] on a response: [KeyError] when the key is missing. *)
Definition subscript {S A} (key : string) (field : option A) : M S A :=
  match field with
  | Some v => ret v
  | None => raise (KeyError key)
  end.

(** ** Region and identity *)

Section RegionAndIdentity.
Context {DT : Type} (cloud : Cloud DT).

Definition validate_region_or_exit (region : option string) : M World string :=
  if truthy_str region then
    let r := default "" region in
    if bool_decide (r ∈ get_available_regions cloud) then ret r
    else error ("Invalid region '" +:+ r +:+ "'") ;;; sys_exit 2
  else
    ret (if truthy_str (region_name cloud)
         then default "" (region_name cloud) else "unknown").

Definition get_account_identity : M World (string * string) :=
  try_except
    (ident <- client_call GetCallerIdentity (get_caller_identity cloud) ;;
     ret (default "" (Account ident), default "" (Arn ident)))
    is_client_error
    (fun e => error ("Authentication failed: " +:+ str_exc e) ;;; sys_exit 1).
End RegionAndIdentity.

(** ** IAM users *)

Module IamUsers.
Section WithClients.
Context {DT : Type} `{DatetimeOps DT} (cloud : Cloud DT).

(** The body of the loop over one page's users: the record of [u] is
    appended to [results]. *)
Definition user_record (results : list PyVal) (u : User DT)
    : M World (list PyVal) :=
  let username := UserName u in
  let create_date := utc_iso (CreateDate u) in
  last_activity <-
    try_except
      (gu <- client_call (GetUser username) (get_user cloud username) ;;
       ret (utc_iso (match gu_User gu with
                     | Some detail => PasswordLastUsed detail
                     | None => None
                     end)))
      is_client_error
      (fun _ => ret None) ;;
  policies <-
    with_cell ([] : list PyVal)
      (try_except
         (pol_pages <- paginate (ListAttachedUserPolicies username)
                         (list_attached_user_policies cloud username) ;;
          for_pages pol_pages
            (fun _ pol_page =>
               for_each (AttachedPolicies pol_page)
                 (fun _ p =>
                    update_cell (fun attached =>
                      attached ++
                      [PyDict [item "policy_name" (py_opt_str (PolicyName p));
                               item "policy_arn" (py_opt_str (PolicyArn p))]]))
                 tt)
            tt)
         is_client_error
         (fun _ => warn ("Cannot list policies for " +:+ str_opt_str username))) ;;
  let attached := snd policies in
  ret (results ++
       [PyDict [item "username" (py_opt_str username);
                item "user_id" (py_opt_str (UserId u));
                item "arn" (py_opt_str (user_Arn u));
                item "create_date" (py_opt_str create_date);
                item "last_activity" (py_opt_str last_activity);
                item "attached_policies" (PyList attached)]]).

Definition _run : M World (list PyVal) :=
  user_pages <- paginate ListUsers (list_users cloud) ;;
  for_pages user_pages
    (fun results page => for_each (Users page) user_record results)
    [].

Definition collect_iam_users : M World (list PyVal) :=
  let out := [] in
  paginator <-
    try_except
      (client_call (GetPaginator "list_users") (get_paginator cloud "list_users") ;;;
       ret true)
      is_client_error
      (fun _ => ret false) ;;
  if (paginator : bool) then
    r <- try_once_retry_once _run "IAM users" ;;
    ret (or_list r out)
  else ret out.
End WithClients.
End IamUsers.

(** ** EC2 instances *)

Module Ec2Instances.
Section WithClients.
Context {DT : Type} `{DatetimeOps DT} (cloud : Cloud DT).

Definition _ami_names (ids : list string) : M World (gmap string PyVal) :=
  match ids with
  | [] => ret ∅
  | _ =>
      try_except
        (resp <- client_call (DescribeImages ids) (describe_images cloud ids) ;;
         for_each (Images resp)
           (fun names img =>
              image_id <- subscript "ImageId" (image_ImageId img) ;;
              ret (<[image_id := py_opt_str (image_Name img)]> names))
           ∅)
        is_client_error
        (fun _ => ret ∅)
  end.

(** [{t.get("Key"): t.get("Value") for t in tags}]. *)
Definition tags_dict (tags : list Tag) : PyVal :=
  PyDict (fold_left
            (fun d t => assoc_set (py_opt_str (Key t)) (py_opt_str (Value t)) d)
            tags []).

(** The dict literal appended for one instance. *)
Definition instance_record (inst : Instance DT) : PyVal :=
  let ami_id := ImageId inst in
  PyDict
    [item "instance_id" (py_opt_str (InstanceId inst));
     item "instance_type" (py_opt_str (InstanceType inst));
     item "state" (py_opt_str (match State inst with
                               | Some st => state_Name st
                               | None => None
                               end));
     item "public_ip" (py_opt_str (PublicIpAddress inst));
     item "private_ip" (py_opt_str (PrivateIpAddress inst));
     item "availability_zone" (py_opt_str (match inst_Placement inst with
                                           | Some pl => AvailabilityZone pl
                                           | None => None
                                           end));
     item "launch_time" (py_opt_str (utc_iso (LaunchTime inst)));
     item "ami_id" (py_opt_str ami_id);
     item "ami_name" PyNone;
     item "security_groups"
       (PyList (map (fun sg => py_opt_str (gi_GroupId sg)) (SecurityGroups inst)));
     item "tags" (match Tags inst with
                  | [] => PyDict []
                  | tags => tags_dict tags
                  end)].

(** The body of the innermost loop: [ami_ids.add], [results.append]. *)
Definition visit_instance (acc : list PyVal * gset string) (inst : Instance DT)
    : list PyVal * gset string :=
  let ami_id := ImageId inst in
  (fst acc ++ [instance_record inst],
   if truthy_str ami_id then snd acc ∪ {[default "" ami_id]} else snd acc).

(** [if r["ami_id"] in names: r["ami_name"] = names[r["ami_id"]]]. *)
Definition resolve_ami_name (names : gmap string PyVal) (r : PyVal) : PyVal :=
  match dict_get "ami_id" r with
  | Some (PyStr ami_id) =>
      match names !! ami_id with
      | Some name => dict_set "ami_name" name r
      | None => r
      end
  | _ => r
  end.

Definition _run : M World (list PyVal) :=
  inst_pages <- paginate DescribeInstances (describe_instances cloud) ;;
  acc <- for_pages inst_pages
           (fun acc page =>
              for_each (Reservations page)
                (fun acc res =>
                   for_each (Instances res)
                     (fun acc inst => ret (visit_instance acc inst))
                     acc)
                acc)
           ([], ∅) ;;
  names <- _ami_names (elements (snd acc)) ;;
  ret (map (resolve_ami_name names) (fst acc)).

Definition collect_ec2_instances : M World (list PyVal) :=
  let out := [] in
  r <- try_once_retry_once _run "EC2 instances" ;;
  ret (or_list r out).
End WithClients.
End Ec2Instances.

(** ** S3 buckets *)

Module S3Buckets.
Section WithClients.
Context {DT : Type} `{DatetimeOps DT} (cloud : Cloud DT).

Definition _bucket_region (name : string) : M World string :=
  try_except
    (loc <- client_call (GetBucketLocation name) (get_bucket_location cloud name) ;;
     ret (if truthy_str (LocationConstraint loc)
          then default "" (LocationConstraint loc) else "us-east-1"))
    is_client_error
    (fun _ => ret "unknown").

(** [count += 1; total += int(obj.get("Size", 0))] on the nonlocal cell. *)
Definition count_object (obj : S3Object) (cell : Z * Z) : Z * Z :=
  (fst cell + 1, snd cell + default 0 (Size obj)).

(** The inner [_run] of [_bucket_stats]: [count] and [total] are the
    nonlocal cell of the enclosing frame, which the function never resets. *)
Definition _bucket_stats_run (name : string) : M ((Z * Z) * World) (Z * Z) :=
  obj_pages <- paginate (ListObjectsV2 name) (list_objects_v2 cloud name) ;;
  for_pages obj_pages
    (fun _ page =>
       for_each (Contents page) (fun _ obj => update_cell (count_object obj)) tt)
    tt ;;;
  read_cell.

Definition _bucket_stats (name : string) : M World (Z * Z) :=
  r <- with_cell (0, 0)
         (try_once_retry_once (_bucket_stats_run name) ("bucket " +:+ name)) ;;
  ret (or_pair (fst r) (0, 0)).

(** The body of the loop over the buckets. *)
Definition bucket_record (results : list PyVal) (b : Bucket DT)
    : M World (list PyVal) :=
  name <- subscript "Name" (bucket_Name b) ;;
  stats <- _bucket_stats name ;;
  region <- _bucket_region name ;;
  ret (results ++
       [PyDict [item "bucket_name" (PyStr name);
                item "creation_date" (py_opt_str (utc_iso (CreationDate b)));
                item "region" (PyStr region);
                item "object_count" (PyInt (fst stats));
                item "size_bytes" (PyInt (snd stats))]]).

Definition _run : M World (list PyVal) :=
  resp <- client_call ListBuckets (list_buckets cloud) ;;
  for_each (Buckets resp) bucket_record [].

Definition collect_s3_buckets : M World (list PyVal) :=
  let out := [] in
  r <- try_once_retry_once _run "S3 buckets" ;;
  ret (or_list r out).
End WithClients.
End S3Buckets.

(** ** Security groups *)

Module SecurityGroups.
Section WithClients.
Context {DT : Type} (cloud : Cloud DT).

Definition is_wildcard (proto : option string) : bool :=
  match proto with
  | Some p => String.eqb p "-1" || String.eqb p "all"
  | None => false
  end.

Definition opt_Z_eqb (a b : option Z) : bool :=
  match a, b with
  | Some x, Some y => Z.eqb x y
  | None, None => true
  | _, _ => false
  end.

Definition _fmt (p : IpPermission) : string :=
  if is_wildcard (IpProtocol p) then "all"
  else if negb (opt_Z_eqb (FromPort p) (ToPort p))
       then str_opt_int (FromPort p) +:+ "-" +:+ str_opt_int (ToPort p)
       else str_opt_int (FromPort p).

(** [p.get("IpProtocol") if p.get("IpProtocol") != "-1" else "all"]. *)
Definition protocol_of (p : IpPermission) : PyVal :=
  match IpProtocol p with
  | Some proto => if String.eqb proto "-1" then PyStr "all" else PyStr proto
  | None => PyNone
  end.

Definition cidrs (p : IpPermission) : string :=
  join ", " (map (fun r => if truthy_str (CidrIp r) then default "" (CidrIp r) else "")
               (IpRanges p)).

(** One rule; [peer] is ["source"] inbound and ["destination"] outbound. *)
Definition rule (peer : string) (p : IpPermission) : PyVal :=
  PyDict [item "protocol" (protocol_of p);
          item "port_range" (PyStr (_fmt p));
          item peer (PyStr (cidrs p))].

Definition group_record (g : SecurityGroup) : PyVal :=
  let inbound := map (rule "source") (IpPermissions g) in
  let outbound := map (rule "destination") (IpPermissionsEgress g) in
  PyDict [item "group_id" (py_opt_str (GroupId g));
          item "group_name" (py_opt_str (GroupName g));
          item "description" (py_opt_str (Description g));
          item "vpc_id" (py_opt_str (VpcId g));
          item "inbound_rules" (PyList inbound);
          item "outbound_rules" (PyList outbound)].

Definition _run : M World (list PyVal) :=
  sg_pages <- paginate DescribeSecurityGroups (describe_security_groups cloud) ;;
  for_pages sg_pages
    (fun results page =>
       for_each (page_SecurityGroups page)
         (fun results g => ret (results ++ [group_record g]))
         results)
    [].

Definition collect_security_groups : M World (list PyVal) :=
  let out := [] in
  r <- try_once_retry_once _run "security groups" ;;
  ret (or_list r out).
End WithClients.
End SecurityGroups.

(** ** Formatting and output *)

Definition to_json_blob (payload : PyVal) : Rendered := JsonDumps payload 2.

(** [d[key]] on a dictionary built by the script. *)
Definition getitem {S} (key : string) (d : PyVal) : M S PyVal :=
  match dict_get key d with
  | Some v => ret v
  | None => raise (KeyError key)
  end.

(** [f"{v}"] for the values the table shows. *)
Definition format_value (v : PyVal) : string :=
  match v with
  | PyNone => "None"
  | PyStr s => s
  | PyInt z => str_int z
  | PyList _ => "[...]"
  | PyDict _ => "{...}"
  end.

(** [v or '-']. *)
Definition or_dash (v : PyVal) : PyVal :=
  match v with
  | PyNone => PyStr "-"
  | PyStr "" => PyStr "-"
  | PyInt 0 => PyStr "-"
  | PyList [] => PyStr "-"
  | PyDict [] => PyStr "-"
  | other => other
  end.

Definition to_table {S} (payload : PyVal) : M S string :=
  acc <- getitem "account_info" payload ;;
  res <- getitem "resources" payload ;;
  s <- getitem "summary" payload ;;
  account_id <- getitem "account_id" acc ;;
  region <- getitem "region" acc ;;
  scan_timestamp <- getitem "scan_timestamp" acc ;;
  total_users <- getitem "total_users" s ;;
  let lines :=
    ["AWS Account: " +:+ format_value account_id +:+ " (" +:+ format_value region +:+ ")";
     "Scan Time: " +:+ format_value scan_timestamp;
     "";
     "IAM USERS (" +:+ format_value total_users +:+ " total)"] in
  iam_users <- getitem "iam_users" res ;;
  lines <- for_each (match iam_users with PyList us => us | _ => [] end)
             (fun lines u =>
                username <- getitem "username" u ;;
                create_date <- getitem "create_date" u ;;
                last_activity <- getitem "last_activity" u ;;
                ret (lines ++
                     [format_value username +:+ " " +:+ format_value create_date +:+ " "
                      +:+ format_value (or_dash last_activity)]))
             lines ;;
  ret (join (String (Ascii.ascii_of_nat 10) "") lines).

(** [open(path, "w", encoding="utf-8")]: the file is created or emptied,
    unless the call raises. *)
Definition open_for_writing {DT} (cloud : Cloud DT) (path : string) : M World unit :=
  fun w => (open_w cloud path, w).

(** [.write(text)] on the file just opened: the text arrives whole, or the
    call raises and leaves a prefix of it in the file. *)
Definition write_text {DT} (cloud : Cloud DT) (path : string) (text : Rendered)
    : M World unit :=
  fun w =>
    match file_write cloud path text with
    | Return _ => (Return tt, write_file path text w)
    | Raise e => (Raise e, write_file path (Partial text) w)
    end.

(** [print(text)]: likewise on standard output. *)
Definition print_text {DT} (cloud : Cloud DT) (text : Rendered) : M World unit :=
  fun w =>
    match print_out cloud text with
    | Return _ => (Return tt, print_stdout text w)
    | Raise e => (Raise e, print_stdout (Partial text) w)
    end.

Definition write_or_print {DT} (cloud : Cloud DT) (text : Rendered)
    (path : option string) : M World unit :=
  if truthy_str path
  then open_for_writing cloud (default "" path) ;;; write_text cloud (default "" path) text
  else print_text cloud text.

(** ** Main *)

Inductive Format : Type := json | table.

(** The namespace [parser.parse_args()] returns. *)
Record Args : Type := {
  region : option string;
  output : option string;
  format : Format
}.

(** What argparse makes of the command line: the namespace, or one of its
    own exits. *)
Inductive CommandLine : Type :=
| Parsed (args : Args)
| HelpRequested (help : string)       (* -h, --help *)
| UsageError (message : string).      (* unknown option, bad --format choice, ... *)

(** [parser.parse_args()]: the help text goes to standard output and the
    interpreter exits with status 0; a usage error goes to standard error
    and the interpreter exits with status 2. *)
Definition parse_args (argv : CommandLine) : M World Args :=
  match argv with
  | Parsed args => ret args
  | HelpRequested help => on_world (print_stdout (Text help)) ;;; sys_exit 0
  | UsageError message => on_world (print_stderr message) ;;; sys_exit 2
  end.

Section Main.
Context {DT : Type} `{DatetimeOps DT} (cloud : Cloud DT).

(** [sum(1 for i in ec2_instances if i.get("state") == "running")]. *)
Definition is_running (i : PyVal) : bool :=
  match dict_get "state" i with
  | Some (PyStr st) => String.eqb st "running"
  | _ => false
  end.

Definition datetime_now : M World DT :=
  fun w => (Return (now cloud (calls w)), w).

(** [build_boto3_clients(region)]: no remote call is made, the construction
    succeeds or raises. *)
Definition build_boto3_clients (region : option string) : M World unit :=
  fun w => (boto3_clients cloud region, w).

(** [main] from the line after [parse_args], whose result is [args], up to
    the assignment of [payload].  The clients are built for [args.region],
    not for the region [validate_region_or_exit] returned. *)
Definition main_payload (args : Args) : M World PyVal :=
  let args_region := region args in
  region <- validate_region_or_exit cloud args_region ;;
  build_boto3_clients args_region ;;;
  ident <- get_account_identity cloud ;;
  let account_id := fst ident in
  let user_arn := snd ident in
  iam_users <- IamUsers.collect_iam_users cloud ;;
  ec2_instances <- Ec2Instances.collect_ec2_instances cloud ;;
  s3_buckets <- S3Buckets.collect_s3_buckets cloud ;;
  sec_groups <- SecurityGroups.collect_security_groups cloud ;;
  t <- datetime_now ;;
  ret (PyDict
         [item "account_info"
            (PyDict [item "account_id" (PyStr account_id);
                     item "user_arn" (PyStr user_arn);
                     item "region" (PyStr region);
                     item "scan_timestamp" (py_opt_str (utc_iso (Some t)))]);
          item "resources"
            (PyDict [item "iam_users" (PyList iam_users);
                     item "ec2_instances" (PyList ec2_instances);
                     item "s3_buckets" (PyList s3_buckets);
                     item "security_groups" (PyList sec_groups)]);
          item "summary"
            (PyDict [item "total_users" (PyInt (Z.of_nat (length iam_users)));
                     item "running_instances"
                       (PyInt (Z.of_nat (length (List.filter is_running ec2_instances))));
                     item "total_buckets" (PyInt (Z.of_nat (length s3_buckets)));
                     item "security_groups" (PyInt (Z.of_nat (length sec_groups)))])]).

Definition main (args : Args) : M World unit :=
  payload <- main_payload args ;;
  out <- match format args with
         | json => ret (to_json_blob payload)
         | table => text <- to_table payload ;; ret (Text text)
         end ;;
  write_or_print cloud out (output args).

(** The [if __name__ == "__main__"] block, once the command line is parsed. *)
Definition run_script (args : Args) : M World unit :=
  try_except (main args) is_keyboard_interrupt (fun _ => sys_exit 130).

(** The same block from the command line on. *)
Definition script (argv : CommandLine) : M World unit :=
  try_except (args <- parse_args argv ;; main args) is_keyboard_interrupt
    (fun _ => sys_exit 130).

(** The exit status the interpreter reports: [sys.exit(n)] gives [n], an
    exception nobody caught gives 1, a normal end gives 0. *)
Definition exit_status (r : Outcome unit) : Z :=
  match r with
  | Return _ => 0
  | Raise (SystemExit code) => code
  | Raise _ => 1
  end.

Definition exit_code (args : Args) (w : World) : Z :=
  exit_status (fst (run_script args w)).
End Main.

(** ** Concrete clients for the examples *)

(** Dates that are already UTC texts. *)
#[global] Instance text_dates : DatetimeOps string :=
  {| tzinfo_is_none := fun _ => false;
     replace_tzinfo_utc := fun d => d;
     astimezone_utc := fun d => d;
     strftime := fun d _ => d |}.

Definition no_pages {P} : Paged P := mkPaged [] None.

(** Client construction where the session has a default region: only an
    empty region name is refused. *)
Definition clients_of_configured_session (region : option string) : Outcome unit :=
  match region with
  | Some "" => Raise (OtherException "InvalidRegionError")
  | _ => Return tt
  end.

(** An account with credentials that work and nothing in it. *)
Definition empty_account : Cloud string :=
  {| get_available_regions := ["us-east-1"; "us-west-2"];
     region_name := Some "us-east-1";
     now := fun _ => "2025-01-01T00:00:00Z";
     get_caller_identity := fun _ =>
       Return {| Account := Some "123456789012";
                 Arn := Some "arn:aws:iam::123456789012:user/test" |};
     get_paginator := fun _ _ => Return tt;
     list_users := fun _ => no_pages;
     get_user := fun _ _ => Return {| gu_User := None |};
     list_attached_user_policies := fun _ _ => no_pages;
     describe_instances := fun _ => no_pages;
     describe_images := fun _ _ => Return {| Images := [] |};
     list_buckets := fun _ => Return {| Buckets := [] |};
     get_bucket_location := fun _ _ => Return {| LocationConstraint := None |};
     list_objects_v2 := fun _ _ => no_pages;
     describe_security_groups := fun _ => no_pages;
     boto3_clients := clients_of_configured_session;
     open_w := fun _ => Return tt;
     file_write := fun _ _ => Return tt;
     print_out := fun _ => Return tt |}.

Definition plain_instance (id st ami : string) : Instance string :=
  {| InstanceId := Some id; InstanceType := Some "t3.micro";
     State := Some {| state_Name := Some st |};
     PublicIpAddress := None; PrivateIpAddress := Some "10.0.0.5";
     inst_Placement := Some {| AvailabilityZone := Some "us-east-1a" |};
     LaunchTime := Some "2024-12-01T08:00:00Z";
     ImageId := Some ami;
     SecurityGroups := [{| gi_GroupId := Some "sg-1" |}];
     Tags := [{| Key := Some "Name"; Value := Some id |}] |}.

(** The account of the end-to-end scenario: one user without policies, a
    running and a stopped instance of the same image, one bucket with two
    objects of 500 bytes in all, one group with one wildcard inbound rule. *)
Definition small_account : Cloud string :=
  {| get_available_regions := ["us-east-1"; "us-west-2"];
     region_name := Some "us-east-1";
     now := fun _ => "2025-01-01T00:00:00Z";
     get_caller_identity := fun _ =>
       Return {| Account := Some "123456789012";
                 Arn := Some "arn:aws:iam::123456789012:user/test" |};
     get_paginator := fun _ _ => Return tt;
     list_users := fun _ =>
       mkPaged [{| Users := [{| UserName := Some "alice"; UserId := Some "AIDA1";
                                user_Arn := Some "arn:aws:iam::123456789012:user/alice";
                                CreateDate := Some "2024-01-01T00:00:00Z" |}] |}] None;
     get_user := fun _ _ => Return {| gu_User := Some {| PasswordLastUsed := None |} |};
     list_attached_user_policies := fun _ _ => mkPaged [{| AttachedPolicies := [] |}] None;
     describe_instances := fun _ =>
       mkPaged [{| Reservations :=
                     [{| Instances := [plain_instance "i-1" "running" "ami-1";
                                       plain_instance "i-2" "stopped" "ami-1"] |}] |}] None;
     describe_images := fun _ _ =>
       Return {| Images := [{| image_ImageId := Some "ami-1";
                               image_Name := Some "base-image" |}] |};
     list_buckets := fun _ =>
       Return {| Buckets := [{| bucket_Name := Some "logs";
                                CreationDate := Some "2024-02-02T00:00:00Z" |}] |};
     get_bucket_location := fun _ _ => Return {| LocationConstraint := Some "us-west-2" |};
     list_objects_v2 := fun _ _ =>
       mkPaged [{| Contents := [{| Size := Some 200 |}; {| Size := Some 300 |}] |}] None;
     describe_security_groups := fun _ =>
       mkPaged [{| page_SecurityGroups :=
                     [{| GroupId := Some "sg-1"; GroupName := Some "default";
                         Description := Some "default group"; VpcId := Some "vpc-1";
                         IpPermissions :=
                           [{| IpProtocol := Some "-1"; FromPort := None; ToPort := None;
                               IpRanges := [{| CidrIp := Some "0.0.0.0/0" |}] |}];
                         IpPermissionsEgress := [] |}] |}] None;
     boto3_clients := clients_of_configured_session;
     open_w := fun _ => Return tt;
     file_write := fun _ _ => Return tt;
     print_out := fun _ => Return tt |}.

Definition default_args : Args := {| region := None; output := None; format := json |}.


(** Clients that differ from [c] in one method. *)
Definition with_get_caller_identity {DT} (c : Cloud DT)
    (f : list Call -> Outcome CallerIdentity) : Cloud DT :=
  {| get_available_regions := get_available_regions c;
     region_name := region_name c;
     now := now c;
     get_caller_identity := f;
     get_paginator := get_paginator c;
     list_users := list_users c;
     get_user := get_user c;
     list_attached_user_policies := list_attached_user_policies c;
     describe_instances := describe_instances c;
     describe_images := describe_images c;
     list_buckets := list_buckets c;
     get_bucket_location := get_bucket_location c;
     list_objects_v2 := list_objects_v2 c;
     describe_security_groups := describe_security_groups c;
     boto3_clients := boto3_clients c;
     open_w := open_w c;
     file_write := file_write c;
     print_out := print_out c |}.

Definition with_describe_images {DT} (c : Cloud DT)
    (f : list string -> list Call -> Outcome ImagesResponse) : Cloud DT :=
  {| get_available_regions := get_available_regions c;
     region_name := region_name c;
     now := now c;
     get_caller_identity := get_caller_identity c;
     get_paginator := get_paginator c;
     list_users := list_users c;
     get_user := get_user c;
     list_attached_user_policies := list_attached_user_policies c;
     describe_instances := describe_instances c;
     describe_images := f;
     list_buckets := list_buckets c;
     get_bucket_location := get_bucket_location c;
     list_objects_v2 := list_objects_v2 c;
     describe_security_groups := describe_security_groups c;
     boto3_clients := boto3_clients c;
     open_w := open_w c;
     file_write := file_write c;
     print_out := print_out c |}.

Definition with_list_objects_v2 {DT} (c : Cloud DT)
    (f : string -> list Call -> Paged ObjectsPage) : Cloud DT :=
  {| get_available_regions := get_available_regions c;
     region_name := region_name c;
     now := now c;
     get_caller_identity := get_caller_identity c;
     get_paginator := get_paginator c;
     list_users := list_users c;
     get_user := get_user c;
     list_attached_user_policies := list_attached_user_policies c;
     describe_instances := describe_instances c;
     describe_images := describe_images c;
     list_buckets := list_buckets c;
     get_bucket_location := get_bucket_location c;
     list_objects_v2 := f;
     describe_security_groups := describe_security_groups c;
     boto3_clients := boto3_clients c;
     open_w := open_w c;
     file_write := file_write c;
     print_out := print_out c |}.

(** An operation that times out on its first call and answers 5 afterwards,
    and one that always times out. *)
Definition flaky_once : M World Z :=
  client_call ListBuckets
    (fun history => match history with
                    | [] => Raise ConnectTimeoutError
                    | _ => Return 5
                    end).

Definition always_down : M World Z :=
  client_call ListBuckets (fun _ => Raise ReadTimeoutError).

Definition tcp_rule (from_port to_port : Z) : IpPermission :=
  {| IpProtocol := Some "tcp"; FromPort := Some from_port; ToPort := Some to_port;
     IpRanges := [{| CidrIp := Some "10.0.0.0/8" |}] |}.

(** What a listing holds: the number of objects on the pages and their
    sizes added up. *)
Definition objects_of (pgs : list ObjectsPage) : list S3Object :=
  concat (map Contents pgs).

Definition object_count (pgs : list ObjectsPage) : Z :=
  Z.of_nat (length (objects_of pgs)).

Definition total_size (pgs : list ObjectsPage) : Z :=
  fold_right Z.add 0 (map (fun obj => default 0 (Size obj)) (objects_of pgs)).

(** The cell [(count, total)] after the objects of [pgs] were counted into
    it, page by page. *)
Definition tally (pgs : list ObjectsPage) (cell : Z * Z) : Z * Z :=
  fold_left
    (fun cell page =>
       fold_left (fun cell obj => S3Buckets.count_object obj cell) (Contents page) cell)
    pgs cell.

(** The world when the second listing of bucket [name] has been made. *)
Definition after_two_listings (name : string) (w : World) : World :=
  record_call (ListObjectsV2 name)
    (before_retry ("bucket " +:+ name) (record_call (ListObjectsV2 name) w)).

(** The record appended for a bucket whose stats came out as (0, 0). *)
Definition zero_record {DT} `{DatetimeOps DT} (name : string) (b : Bucket DT)
    (region : string) : PyVal :=
  PyDict [item "bucket_name" (PyStr name);
          item "creation_date" (py_opt_str (utc_iso (CreationDate b)));
          item "region" (PyStr region);
          item "object_count" (PyInt 0);
          item "size_bytes" (PyInt 0)].

(** A bucket whose listing breaks off with a timeout after its first page,
    every time it is tried. *)
Definition unreachable_bucket : Cloud string :=
  with_list_objects_v2 small_account
    (fun _ _ =>
       mkPaged [{| Contents := [{| Size := Some 200 |}; {| Size := Some 300 |}] |}]
         (Some ReadTimeoutError)).

(** A bucket of three objects (600 bytes) whose first listing times out
    after one page of two objects (500 bytes) and whose second listing
    arrives whole. *)
Definition slow_bucket : Cloud string :=
  with_list_objects_v2 small_account
    (fun _ history =>
       if bool_decide (ListObjectsV2 "logs" ∈ history)
       then mkPaged [{| Contents := [{| Size := Some 200 |}; {| Size := Some 300 |}] |};
                     {| Contents := [{| Size := Some 100 |}] |}] None
       else mkPaged [{| Contents := [{| Size := Some 200 |}; {| Size := Some 300 |}] |}]
              (Some ConnectTimeoutError)).

(** The instances of a listing, reservations flattened. *)
Definition all_instances {DT} (pgs : list (InstancesPage DT)) : list (Instance DT) :=
  concat (map Instances (concat (map Reservations pgs))).

(** [list(ami_ids)] after the primary pass over [insts]. *)
Definition unique_ami_ids {DT} `{DatetimeOps DT} (insts : list (Instance DT))
    : list string :=
  elements (snd (fold_left Ec2Instances.visit_instance insts ([], ∅))).

(** The dict [_ami_names] builds from the images of an answer. *)
Definition names_of (imgs : list Image) : gmap string PyVal :=
  fold_left
    (fun names img => <[default "" (image_ImageId img) := py_opt_str (image_Name img)]> names)
    imgs ∅.

(** The image lookup times out once, then answers. *)
Definition images_flaky : Cloud string :=
  with_describe_images small_account
    (fun ids history =>
       if bool_decide (DescribeImages ids ∈ history)
       then describe_images small_account ids history
       else Raise ConnectTimeoutError).

(** The value a computation returned, if it returned. *)
Definition returned {A} (r : Outcome A) : option A :=
  match r with
  | Return a => Some a
  | Raise _ => None
  end.

(** [ensures m Q]: whenever [m] returns, the value satisfies [Q]. *)
Definition ensures {S A} (m : M S A) (Q : A -> Prop) : Prop :=
  forall s a s', m s = (Return a, s') -> Q a.

(** The keys of the bucket and instance records, in the order of the dict
    literals. *)
Definition bucket_keys : list PyVal :=
  map PyStr ["bucket_name"; "creation_date"; "region"; "object_count"; "size_bytes"].

Definition instance_keys : list PyVal :=
  map PyStr ["instance_id"; "instance_type"; "state"; "public_ip"; "private_ip";
             "availability_zone"; "launch_time"; "ami_id"; "ami_name";
             "security_groups"; "tags"].

(** What holds of every bucket record and of every instance record. *)
Definition is_bucket_record (r : PyVal) : Prop :=
  dict_keys r = bucket_keys /\
  exists (name : string) (count size : Z),
    dict_get "bucket_name" r = Some (PyStr name) /\
    dict_get "object_count" r = Some (PyInt count) /\
    dict_get "size_bytes" r = Some (PyInt size).

Definition is_instance_record {DT} (r : PyVal) : Prop :=
  dict_keys r = instance_keys /\
  exists inst : Instance DT,
    dict_get "instance_id" r = Some (py_opt_str (InstanceId inst)) /\
    dict_get "security_groups" r
    = Some (PyList (map (fun sg => py_opt_str (gi_GroupId sg)) (SecurityGroups inst))).

(** Listing the objects of the bucket is denied after the first page. *)
Definition denied_bucket : Cloud string :=
  with_list_objects_v2 small_account
    (fun _ _ =>
       mkPaged [{| Contents := [{| Size := Some 200 |}; {| Size := Some 300 |}] |}]
         (Some (ClientError "AccessDenied"))).

(** The identity lookup times out once and would answer afterwards. *)
Definition identity_flaky : Cloud string :=
  with_get_caller_identity small_account
    (fun history =>
       match history with
       | [] => Raise ConnectTimeoutError
       | _ => get_caller_identity small_account history
       end).

(** The identity lookup answers without Account and Arn. *)
Definition identity_blank : Cloud string :=
  with_get_caller_identity small_account
    (fun _ => Return {| Account := None; Arn := None |}).

(** The credentials are rejected. *)
Definition bad_credentials : Cloud string :=
  with_get_caller_identity small_account
    (fun _ => Raise (ClientError "InvalidClientTokenId")).

(** The user presses Ctrl-C during the identity lookup. *)
Definition interrupted_identity : Cloud string :=
  with_get_caller_identity small_account (fun _ => Raise KeyboardInterrupt).

(** [region] passes [validate_region_or_exit]: it is not given, or it is one
    of the known regions. *)
Definition region_accepted {DT} (cloud : Cloud DT) (region : option string) : Prop :=
  truthy_str region = false \/ default "" region ∈ get_available_regions cloud.

(** The region [main] goes on with. *)
Definition resolved_region {DT} (cloud : Cloud DT) (region : option string) : string :=
  if truthy_str region then default "" region
  else if truthy_str (region_name cloud) then default "" (region_name cloud)
       else "unknown".

(** The dicts appended to [attached] for the policies on [pgs]. *)
Definition policy_records (pgs : list PoliciesPage) : list PyVal :=
  concat (map (fun pg =>
                 map (fun p => PyDict [item "policy_name" (py_opt_str (PolicyName p));
                                       item "policy_arn" (py_opt_str (PolicyArn p))])
                   (AttachedPolicies pg))
            pgs).

(** The record of user [u] when [get_user] was refused and the policy
    listing broke off after the pages [pgs]. *)
Definition user_record_without_enrichment {DT} `{DatetimeOps DT} (u : User DT)
    (pgs : list PoliciesPage) : PyVal :=
  PyDict [item "username" (py_opt_str (UserName u));
          item "user_id" (py_opt_str (UserId u));
          item "arn" (py_opt_str (user_Arn u));
          item "create_date" (py_opt_str (utc_iso (CreateDate u)));
          item "last_activity" PyNone;
          item "attached_policies" (PyList (policy_records pgs))].

(** An account whose enrichment calls are refused: region lookup, get_user
    and, after a first page, the policy listing. *)
Definition restricted_account : Cloud string :=
  {| get_available_regions := get_available_regions small_account;
     region_name := region_name small_account;
     now := now small_account;
     get_caller_identity := get_caller_identity small_account;
     get_paginator := get_paginator small_account;
     list_users := list_users small_account;
     get_user := fun _ _ => Raise (ClientError "AccessDenied");
     list_attached_user_policies := fun _ _ =>
       mkPaged [{| AttachedPolicies :=
                     [{| PolicyName := Some "ReadOnlyAccess";
                         PolicyArn := Some "arn:aws:iam::aws:policy/ReadOnlyAccess" |}] |}]
         (Some (ClientError "AccessDenied"));
     describe_instances := describe_instances small_account;
     describe_images := describe_images small_account;
     list_buckets := list_buckets small_account;
     get_bucket_location := fun _ _ => Raise (ClientError "AccessDenied");
     list_objects_v2 := list_objects_v2 small_account;
     describe_security_groups := describe_security_groups small_account;
     boto3_clients := boto3_clients small_account;
     open_w := open_w small_account;
     file_write := file_write small_account;
     print_out := print_out small_account |}.

(** [raises_only m P]: whenever [m] raises, the exception satisfies [P]. *)
Definition raises_only {S A} (m : M S A) (P : Exc -> Prop) : Prop :=
  forall s e s', m s = (Raise e, s') -> P e.

(** Every exception a client method of [cloud], the construction of the
    clients or an output call raises, at any point of any run, satisfies
    [Q]. *)
Definition cloud_raises {DT} (cloud : Cloud DT) (Q : Exc -> Prop) : Prop :=
  (forall h e, get_caller_identity cloud h = Raise e -> Q e) /\
  (forall op h e, get_paginator cloud op h = Raise e -> Q e) /\
  (forall h e, failure (list_users cloud h) = Some e -> Q e) /\
  (forall u h e, get_user cloud u h = Raise e -> Q e) /\
  (forall u h e, failure (list_attached_user_policies cloud u h) = Some e -> Q e) /\
  (forall h e, failure (describe_instances cloud h) = Some e -> Q e) /\
  (forall ids h e, describe_images cloud ids h = Raise e -> Q e) /\
  (forall h e, list_buckets cloud h = Raise e -> Q e) /\
  (forall b h e, get_bucket_location cloud b h = Raise e -> Q e) /\
  (forall b h e, failure (list_objects_v2 cloud b h) = Some e -> Q e) /\
  (forall h e, failure (describe_security_groups cloud h) = Some e -> Q e) /\
  (forall region e, boto3_clients cloud region = Raise e -> Q e) /\
  (forall path e, open_w cloud path = Raise e -> Q e) /\
  (forall path text e, file_write cloud path text = Raise e -> Q e) /\
  (forall text e, print_out cloud text = Raise e -> Q e).

(** The Value of the last tag of [tags] whose Key is [k], if there is one. *)
Fixpoint last_tag_value (k : option string) (tags : list Tag) : option (option string) :=
  match tags with
  | [] => None
  | t :: rest =>
      match last_tag_value k rest with
      | Some v => Some v
      | None => if decide (Key t = k) then Some (Value t) else None
      end
  end.

(** Dictionaries whose keys are strings or [None]. *)
Definition str_keyed (d : list (PyVal * PyVal)) : Prop :=
  Forall (fun kv => exists k : option string, fst kv = py_opt_str k) d.

(** Frames whose world is read back as it was written. *)
Class LawfulWorld (S : Type) `{HasWorld S} : Prop :=
  get_set_world : forall (w : World) (s : S), get_world (set_world w s) = w.

(** [keeps R m]: the world before [m] and the world after it, whether [m]
    returned or raised, are related by [R]. *)
Definition keeps {S} `{HasWorld S} {A} (R : World -> World -> Prop) (m : M S A) : Prop :=
  forall s, R (get_world s) (get_world (snd (m s))).


(** The calls of [w'] are those of [w] followed by further calls. *)
Definition calls_extended (w w' : World) : Prop :=
  exists more, calls w' = calls w ++ more.


(** What a run can raise once its region has passed validation: as above,
    without the [sys.exit(2)] of the validation. *)
Definition validated_run_raises (Q : Exc -> Prop) (e : Exc) : Prop :=
  Q e \/ (exists key, e = KeyError key) \/ e = SystemExit 1.




(** Building a paginator times out. *)
Definition paginator_down : Cloud string :=
  {| get_available_regions := get_available_regions small_account;
     region_name := region_name small_account;
     now := now small_account;
     get_caller_identity := get_caller_identity small_account;
     get_paginator := fun _ _ => Raise ConnectTimeoutError;
     list_users := list_users small_account;
     get_user := get_user small_account;
     list_attached_user_policies := list_attached_user_policies small_account;
     describe_instances := describe_instances small_account;
     describe_images := describe_images small_account;
     list_buckets := list_buckets small_account;
     get_bucket_location := get_bucket_location small_account;
     list_objects_v2 := list_objects_v2 small_account;
     describe_security_groups := describe_security_groups small_account;
     boto3_clients := boto3_clients small_account;
     open_w := open_w small_account;
     file_write := file_write small_account;
     print_out := print_out small_account |}.

(** The image lookup is refused. *)
Definition images_denied : Cloud string :=
  with_describe_images small_account
    (fun _ _ => Raise (ClientError "UnauthorizedOperation")).

(** [get_user] is refused while the policies can be listed, and the other
    way round: [get_user] answers with a last login while the policy listing
    is refused after its first page. *)
Definition with_iam_enrichment {DT} (c : Cloud DT)
    (f : option string -> list Call -> Outcome (GetUserResponse DT))
    (g : option string -> list Call -> Paged PoliciesPage) : Cloud DT :=
  {| get_available_regions := get_available_regions c;
     region_name := region_name c;
     now := now c;
     get_caller_identity := get_caller_identity c;
     get_paginator := get_paginator c;
     list_users := list_users c;
     get_user := f;
     list_attached_user_policies := g;
     describe_instances := describe_instances c;
     describe_images := describe_images c;
     list_buckets := list_buckets c;
     get_bucket_location := get_bucket_location c;
     list_objects_v2 := list_objects_v2 c;
     describe_security_groups := describe_security_groups c;
     boto3_clients := boto3_clients c;
     open_w := open_w c;
     file_write := file_write c;
     print_out := print_out c |}.

Definition read_only_policy_page : PoliciesPage :=
  {| AttachedPolicies :=
       [{| PolicyName := Some "ReadOnlyAccess";
           PolicyArn := Some "arn:aws:iam::aws:policy/ReadOnlyAccess" |}] |}.

Definition user_lookup_denied : Cloud string :=
  with_iam_enrichment small_account
    (fun _ _ => Raise (ClientError "AccessDenied"))
    (fun _ _ => mkPaged [read_only_policy_page] None).

Definition policies_denied : Cloud string :=
  with_iam_enrichment small_account
    (fun _ _ => Return {| gu_User := Some {| PasswordLastUsed :=
                                               Some "2024-06-01T12:00:00Z" |} |})
    (fun _ _ => mkPaged [read_only_policy_page] (Some (ClientError "AccessDenied"))).

(** The record of user [u] with the given last activity and the policies of
    the pages [pgs]. *)
Definition user_record_of {DT} `{DatetimeOps DT} (u : User DT)
    (last_activity : option string) (pgs : list PoliciesPage) : PyVal :=
  PyDict [item "username" (py_opt_str (UserName u));
          item "user_id" (py_opt_str (UserId u));
          item "arn" (py_opt_str (user_Arn u));
          item "create_date" (py_opt_str (utc_iso (CreateDate u)));
          item "last_activity" (py_opt_str last_activity);
          item "attached_policies" (PyList (policy_records pgs))].

(** The client call [c], made after the calls [history], is answered by a
    KeyboardInterrupt.  For a listing this is an interrupt before its first
    page arrives; an interrupt between two later pages is raised by the
    loop over the pages when it gets there. *)
Definition interrupted {DT} (cloud : Cloud DT) (c : Call) (history : list Call) : Prop :=
  match c with
  | GetCallerIdentity => get_caller_identity cloud history = Raise KeyboardInterrupt
  | GetPaginator operation => get_paginator cloud operation history = Raise KeyboardInterrupt
  | ListUsers => list_users cloud history = mkPaged [] (Some KeyboardInterrupt)
  | GetUser username => get_user cloud username history = Raise KeyboardInterrupt
  | ListAttachedUserPolicies username =>
      list_attached_user_policies cloud username history
      = mkPaged [] (Some KeyboardInterrupt)
  | DescribeInstances => describe_instances cloud history = mkPaged [] (Some KeyboardInterrupt)
  | DescribeImages image_ids => describe_images cloud image_ids history = Raise KeyboardInterrupt
  | ListBuckets => list_buckets cloud history = Raise KeyboardInterrupt
  | GetBucketLocation bucket => get_bucket_location cloud bucket history = Raise KeyboardInterrupt
  | ListObjectsV2 bucket =>
      list_objects_v2 cloud bucket history = mkPaged [] (Some KeyboardInterrupt)
  | DescribeSecurityGroups =>
      describe_security_groups cloud history = mkPaged [] (Some KeyboardInterrupt)
  end.

(** [halts_on_interrupt cloud m]: [m] only adds calls to the history, and a
    call of [m] that is answered by a KeyboardInterrupt is its last call and
    makes [m] end in that KeyboardInterrupt. *)
Definition halts_on_interrupt {DT} (cloud : Cloud DT) {S} `{HasWorld S} {A}
    (m : M S A) : Prop :=
  forall s, exists cs,
    calls (get_world (snd (m s))) = calls (get_world s) ++ cs /\
    forall p c q, cs = p ++ c :: q ->
      interrupted cloud c (calls (get_world s) ++ p) ->
      fst (m s) = Raise KeyboardInterrupt /\ q = [].

(** The user presses Ctrl-C while the region of the bucket is looked up,
    and while the objects of the bucket are listed. *)
Definition interrupted_bucket_region : Cloud string :=
  {| get_available_regions := get_available_regions small_account;
     region_name := region_name small_account;
     now := now small_account;
     get_caller_identity := get_caller_identity small_account;
     get_paginator := get_paginator small_account;
     list_users := list_users small_account;
     get_user := get_user small_account;
     list_attached_user_policies := list_attached_user_policies small_account;
     describe_instances := describe_instances small_account;
     describe_images := describe_images small_account;
     list_buckets := list_buckets small_account;
     get_bucket_location := fun _ _ => Raise KeyboardInterrupt;
     list_objects_v2 := list_objects_v2 small_account;
     describe_security_groups := describe_security_groups small_account;
     boto3_clients := boto3_clients small_account;
     open_w := open_w small_account;
     file_write := file_write small_account;
     print_out := print_out small_account |}.

Definition interrupted_object_listing : Cloud string :=
  with_list_objects_v2 small_account (fun _ _ => mkPaged [] (Some KeyboardInterrupt)).

(** A session without a default region: the clients cannot be built unless
    a region is given. *)
Definition no_default_region : Cloud string :=
  {| get_available_regions := get_available_regions small_account;
     region_name := None;
     now := now small_account;
     get_caller_identity := get_caller_identity small_account;
     get_paginator := get_paginator small_account;
     list_users := list_users small_account;
     get_user := get_user small_account;
     list_attached_user_policies := list_attached_user_policies small_account;
     describe_instances := describe_instances small_account;
     describe_images := describe_images small_account;
     list_buckets := list_buckets small_account;
     get_bucket_location := get_bucket_location small_account;
     list_objects_v2 := list_objects_v2 small_account;
     describe_security_groups := describe_security_groups small_account;
     boto3_clients := fun region =>
       if truthy_str region then Return tt else Raise (OtherException "NoRegionError");
     open_w := open_w small_account;
     file_write := file_write small_account;
     print_out := print_out small_account |}.

(** [--region ''] and [--region mars-1]. *)
Definition empty_region_args : Args :=
  {| region := Some ""; output := None; format := json |}.

Definition unknown_region_args : Args :=
  {| region := Some "mars-1"; output := None; format := json |}.



(** * Properties *)

(** ** Equations of the monad *)

Section MonadEquations.
Context {S : Type}.

Lemma bind_Return {A B} (m : M S A) (k : A -> M S B) s a s' :
  m s = (Return a, s') -> bind m k s = k a s'.
Proof. intros E. unfold bind. now rewrite E. Qed.

Lemma bind_Raise {A B} (m : M S A) (k : A -> M S B) s e s' :
  m s = (Raise e, s') -> bind m k s = (Raise e, s').
Proof. intros E. unfold bind. now rewrite E. Qed.

Lemma try_except_Return {A} (body : M S A) classes handler s a s' :
  body s = (Return a, s') -> try_except body classes handler s = (Return a, s').
Proof. intros E. unfold try_except. now rewrite E. Qed.

Lemma try_except_caught {A} (body : M S A) classes handler s e s' :
  body s = (Raise e, s') -> classes e = true ->
  try_except body classes handler s = handler e s'.
Proof. intros E C. unfold try_except. now rewrite E, C. Qed.

Lemma try_except_passes {A} (body : M S A) classes handler s e s' :
  body s = (Raise e, s') -> classes e = false ->
  try_except body classes handler s = (Raise e, s').
Proof. intros E C. unfold try_except. now rewrite E, C. Qed.
End MonadEquations.

(** ** The retry guard, case by case *)

Section RetryGuard.
Context {S : Type} `{HasWorld S} {A : Type}.
Variables (fn : M S A) (on : string).

Lemma guard_first_try s v s1 :
  fn s = (Return v, s1) ->
  try_once_retry_once fn on s = (Return (Some v), s1).
Proof.
  intros E. unfold try_once_retry_once.
  apply try_except_Return. now rewrite (bind_Return _ _ _ _ _ E).
Qed.

Lemma guard_not_network s e s1 :
  fn s = (Raise e, s1) -> is_network_error e = false ->
  try_once_retry_once fn on s = (Raise e, s1).
Proof.
  intros E N. unfold try_once_retry_once.
  apply try_except_passes; [|exact N]. now rewrite (bind_Raise _ _ _ _ _ E).
Qed.

Lemma guard_second_try s e s1 v s2 :
  fn s = (Raise e, s1) -> is_network_error e = true ->
  fn (before_retry on s1) = (Return v, s2) ->
  try_once_retry_once fn on s = (Return (Some v), s2).
Proof.
  intros E N E2. unfold try_once_retry_once.
  rewrite (try_except_caught _ _ _ s e s1); [|now rewrite (bind_Raise _ _ _ _ _ E)|exact N].
  change (try_except (v0 <- fn;; ret (Some v0)) is_network_error
            (fun _ => warn ("Network issue persisted while " +:+ on +:+ ", skipping.");;; ret None)
            (before_retry on s1) = (Return (Some v), s2)).
  apply try_except_Return. now rewrite (bind_Return _ _ _ _ _ E2).
Qed.

Lemma guard_gives_up s e s1 e2 s2 :
  fn s = (Raise e, s1) -> is_network_error e = true ->
  fn (before_retry on s1) = (Raise e2, s2) -> is_network_error e2 = true ->
  try_once_retry_once fn on s = (Return None, after_giving_up on s2).
Proof.
  intros E N E2 N2. unfold try_once_retry_once.
  rewrite (try_except_caught _ _ _ s e s1); [|now rewrite (bind_Raise _ _ _ _ _ E)|exact N].
  change (try_except (v0 <- fn;; ret (Some v0)) is_network_error
            (fun _ => warn ("Network issue persisted while " +:+ on +:+ ", skipping.");;; ret None)
            (before_retry on s1) = (Return None, after_giving_up on s2)).
  rewrite (try_except_caught _ _ _ _ e2 s2); [reflexivity|now rewrite (bind_Raise _ _ _ _ _ E2)|exact N2].
Qed.

Lemma guard_second_not_network s e s1 e2 s2 :
  fn s = (Raise e, s1) -> is_network_error e = true ->
  fn (before_retry on s1) = (Raise e2, s2) -> is_network_error e2 = false ->
  try_once_retry_once fn on s = (Raise e2, s2).
Proof.
  intros E N E2 N2. unfold try_once_retry_once.
  rewrite (try_except_caught _ _ _ s e s1); [|now rewrite (bind_Raise _ _ _ _ _ E)|exact N].
  change (try_except (v0 <- fn;; ret (Some v0)) is_network_error
            (fun _ => warn ("Network issue persisted while " +:+ on +:+ ", skipping.");;; ret None)
            (before_retry on s1) = (Raise e2, s2)).
  apply try_except_passes; [|exact N2]. now rewrite (bind_Raise _ _ _ _ _ E2).
Qed.
End RetryGuard.

Lemma counted_step {S A} (fn : M S A) (n : Z) s r s' :
  fn s = (r, s') -> counted fn (n, s) = (r, (n + 1, s')).
Proof. intros E. unfold counted. cbn. now rewrite E. Qed.

(** C2. Wrapped by the retry guard, an operation that fails with a
    transient-network error and then succeeds is invoked exactly twice and
    its value is returned; an operation that fails with a transient-network
    error on both invocations is invoked exactly twice (not a third time)
    and the guard returns None, the value every call site degrades to its
    empty value ([or out] gives the empty list, [or (0, 0)] the pair of
    zeros).  The counter [n] sits in a cell the operation cannot reach and
    advances once per invocation. *)
Theorem retry_guard_invokes_at_most_twice
    {S : Type} `{HasWorld S} {A : Type} (fn : M S A) (on : string) (n : Z) (s : S) :
  (forall e1 s1 v s2,
      fn s = (Raise e1, s1) -> is_network_error e1 = true ->
      fn (before_retry on s1) = (Return v, s2) ->
      try_once_retry_once (counted fn) on (n, s) = (Return (Some v), (n + 2, s2)))
  /\
  (forall e1 s1 e2 s2,
      fn s = (Raise e1, s1) -> is_network_error e1 = true ->
      fn (before_retry on s1) = (Raise e2, s2) -> is_network_error e2 = true ->
      try_once_retry_once (counted fn) on (n, s)
      = (Return None, (n + 2, after_giving_up on s2)))
  /\
  (forall (X Y : Type) (out : list X) (dflt : X * Y),
      or_list None out = out /\ or_pair None dflt = dflt).
Proof.
  split; [|split; [|intros; split; reflexivity]].
  - intros e1 s1 v s2 E1 N1 E2.
    replace (n + 2) with (n + 1 + 1) by lia.
    eapply guard_second_try; [apply counted_step, E1 | exact N1 |].
    apply (counted_step fn (n + 1)), E2.
  - intros e1 s1 e2 s2 E1 N1 E2 N2.
    replace (n + 2) with (n + 1 + 1) by lia.
    change (n + 1 + 1, after_giving_up on s2)
      with (after_giving_up on (n + 1 + 1, s2)).
    eapply guard_gives_up; [apply counted_step, E1 | exact N1 | | exact N2].
    apply (counted_step fn (n + 1)), E2.
Qed.

Lemma retry_guard_invokes_at_most_twice_witness :
  try_once_retry_once (counted flaky_once) "demo" (0, initial_world)
  = (Return (Some 5),
     (2, {| calls := [ListBuckets; ListBuckets];
            stderr := ["[WARNING] Network issue while demo, retrying..."];
            stdout := []; files := []; slept := 1 |}))
  /\
  try_once_retry_once (counted always_down) "demo" (0, initial_world)
  = (Return None,
     (2, {| calls := [ListBuckets; ListBuckets];
            stderr := ["[WARNING] Network issue while demo, retrying...";
                       "[WARNING] Network issue persisted while demo, skipping."];
            stdout := []; files := []; slept := 1 |})).
Proof.
  split.
  - apply (proj1 (retry_guard_invokes_at_most_twice flaky_once "demo" 0 initial_world)
             ConnectTimeoutError (record_call ListBuckets initial_world) 5);
      reflexivity.
  - etransitivity.
    + apply (proj1 (proj2 (retry_guard_invokes_at_most_twice always_down "demo" 0
                              initial_world))
               ReadTimeoutError (record_call ListBuckets initial_world) ReadTimeoutError
               (record_call ListBuckets
                  (before_retry "demo" (record_call ListBuckets initial_world))));
        reflexivity.
    + vm_compute. reflexivity.
Defined.

(** ** Security-group rules *)

Lemma opt_Z_eqb_eq (a b : option Z) :
  SecurityGroups.opt_Z_eqb a b = true <-> a = b.
Proof.
  destruct a as [x|], b as [y|]; cbn; split; intros E; try congruence.
  - apply Z.eqb_eq in E. now subst.
  - inversion E. apply Z.eqb_refl.
Qed.

Lemma is_wildcard_spec (proto : option string) :
  SecurityGroups.is_wildcard proto = true <-> proto = Some "-1" \/ proto = Some "all".
Proof.
  destruct proto as [p|]; cbn.
  - rewrite orb_true_iff, !String.eqb_eq. split.
    + intros [-> | ->]; auto.
    + intros [E | E]; inversion E; auto.
  - split; [discriminate | intros [E | E]; discriminate].
Qed.

(** C9. For every permission entry, inbound (peer "source") or outbound
    (peer "destination"): when the protocol designator is the wildcard "-1"
    or "all", the rule's protocol is the literal "all" and its port_range is
    "all"; otherwise the port_range is str(FromPort) when FromPort equals
    ToPort and str(FromPort) + "-" + str(ToPort) when they differ, where str
    of a port number is its decimal numeral (80 gives "80", 1000 and 2000
    give "1000-2000"). *)
Theorem rule_formatting (peer : string) (p : IpPermission) :
  let r := SecurityGroups.rule peer p in
  (IpProtocol p = Some "-1" \/ IpProtocol p = Some "all" ->
     dict_get "protocol" r = Some (PyStr "all") /\
     dict_get "port_range" r = Some (PyStr "all"))
  /\
  (IpProtocol p <> Some "-1" -> IpProtocol p <> Some "all" ->
     (FromPort p = ToPort p ->
        dict_get "port_range" r = Some (PyStr (str_opt_int (FromPort p)))) /\
     (FromPort p <> ToPort p ->
        dict_get "port_range" r
        = Some (PyStr (str_opt_int (FromPort p) +:+ "-" +:+ str_opt_int (ToPort p)))))
  /\
  (forall n : Z, str_opt_int (Some n) = NilZero.string_of_int (Z.to_int n))
  /\
  str_opt_int (Some 80) = "80"
  /\
  str_opt_int (Some 1000) +:+ "-" +:+ str_opt_int (Some 2000) = "1000-2000".
Proof.
  cbn zeta. repeat split.
  - destruct H as [E | E]; unfold SecurityGroups.rule, SecurityGroups.protocol_of;
      rewrite E; reflexivity.
  - assert (W : SecurityGroups.is_wildcard (IpProtocol p) = true)
      by (apply is_wildcard_spec; exact H).
    unfold SecurityGroups.rule, SecurityGroups._fmt. rewrite W. reflexivity.
  - intros E.
    assert (W : SecurityGroups.is_wildcard (IpProtocol p) = false).
    { destruct (SecurityGroups.is_wildcard (IpProtocol p)) eqn:W; [|reflexivity].
      apply is_wildcard_spec in W. tauto. }
    apply opt_Z_eqb_eq in E.
    unfold SecurityGroups.rule, SecurityGroups._fmt. rewrite W, E. reflexivity.
  - intros NE.
    assert (W : SecurityGroups.is_wildcard (IpProtocol p) = false).
    { destruct (SecurityGroups.is_wildcard (IpProtocol p)) eqn:W; [|reflexivity].
      apply is_wildcard_spec in W. tauto. }
    assert (E : SecurityGroups.opt_Z_eqb (FromPort p) (ToPort p) = false).
    { destruct (SecurityGroups.opt_Z_eqb (FromPort p) (ToPort p)) eqn:E; [|reflexivity].
      apply opt_Z_eqb_eq in E. contradiction. }
    unfold SecurityGroups.rule, SecurityGroups._fmt. rewrite W, E. reflexivity.
Qed.

Lemma rule_formatting_witness :
  dict_get "port_range" (SecurityGroups.rule "source" (tcp_rule 80 80))
  = Some (PyStr "80")
  /\ dict_get "port_range" (SecurityGroups.rule "destination" (tcp_rule 1000 2000))
     = Some (PyStr "1000-2000")
  /\ dict_get "protocol"
       (SecurityGroups.rule "source"
          {| IpProtocol := Some "-1"; FromPort := None; ToPort := None; IpRanges := [] |})
     = Some (PyStr "all").
Proof.
  split; [|split].
  - apply (proj1 (proj1 (proj2 (rule_formatting "source" (tcp_rule 80 80)))
                    ltac:(discriminate) ltac:(discriminate))).
    reflexivity.
  - apply (proj2 (proj1 (proj2 (rule_formatting "destination" (tcp_rule 1000 2000)))
                    ltac:(discriminate) ltac:(discriminate))).
    discriminate.
  - apply (proj1 (rule_formatting "source"
                    {| IpProtocol := Some "-1"; FromPort := None; ToPort := None;
                       IpRanges := [] |})).
    left. reflexivity.
Defined.

(** ** Bucket statistics *)

Section BucketStats.
Context {DT : Type} (cloud : Cloud DT).

Lemma count_objects_loop (objs : list S3Object) (cell : Z * Z) (w : World) :
  for_each objs (fun _ obj => update_cell (S3Buckets.count_object obj)) tt (cell, w)
  = (Return tt,
     (fold_left (fun cell obj => S3Buckets.count_object obj cell) objs cell, w)).
Proof.
  revert cell. induction objs as [|obj objs IH]; intros cell; [reflexivity|].
  cbn [for_each fold_left]. unfold bind at 1. cbn. apply IH.
Qed.

Lemma count_pages_loop (pgs : list ObjectsPage) (cell : Z * Z) (w : World) :
  for_each pgs
    (fun _ page =>
       for_each (Contents page)
         (fun _ obj => update_cell (S3Buckets.count_object obj)) tt)
    tt (cell, w)
  = (Return tt, (tally pgs cell, w)).
Proof.
  revert cell. induction pgs as [|page pgs IH]; intros cell; [reflexivity|].
  cbn [for_each]. unfold bind at 1. rewrite count_objects_loop. apply IH.
Qed.

Lemma tally_objects (objs : list S3Object) (c t : Z) :
  fold_left (fun cell obj => S3Buckets.count_object obj cell) objs (c, t)
  = (c + Z.of_nat (length objs),
     t + fold_right Z.add 0 (map (fun obj => default 0 (Size obj)) objs)).
Proof.
  revert c t. induction objs as [|obj objs IH]; intros c t.
  - cbn. f_equal; lia.
  - cbn [fold_left]. unfold S3Buckets.count_object at 2. cbn [fst snd].
    rewrite IH. cbn [length map fold_right]. f_equal; lia.
Qed.

Lemma tally_totals (pgs : list ObjectsPage) (c t : Z) :
  tally pgs (c, t) = (c + object_count pgs, t + total_size pgs).
Proof.
  unfold object_count, total_size, objects_of.
  revert c t. induction pgs as [|page pgs IH]; intros c t.
  - cbn. f_equal; lia.
  - unfold tally in *. cbn [fold_left map concat].
    rewrite tally_objects, IH.
    rewrite length_app, map_app, fold_right_app.
    assert (F : forall (l : list Z) (z : Z),
               fold_right Z.add z l = fold_right Z.add 0 l + z).
    { induction l as [|x l IHl]; intros z; cbn; [lia | rewrite IHl; lia]. }
    rewrite (F _ (fold_right Z.add 0 _)). f_equal; lia.
Qed.

(** One pass of the inner [_run]: the cell ends at the tally of the pages
    that arrived, whether the listing failed or not. *)
Lemma bucket_stats_run_pass (name : string) (cell : Z * Z) (w : World) :
  S3Buckets._bucket_stats_run cloud name (cell, w)
  = (match failure (list_objects_v2 cloud name (calls w)) with
     | Some e => Raise e
     | None => Return (tally (pages (list_objects_v2 cloud name (calls w))) cell)
     end,
     (tally (pages (list_objects_v2 cloud name (calls w))) cell,
      record_call (ListObjectsV2 name) w)).
Proof.
  unfold S3Buckets._bucket_stats_run, paginate, client_call.
  unfold bind at 1. cbn [get_world set_world world_under_cell world_itself fst snd].
  unfold for_pages. unfold bind at 1. unfold bind at 1.
  rewrite count_pages_loop.
  destruct (failure (list_objects_v2 cloud name (calls w))); reflexivity.
Qed.
End BucketStats.

Section BucketStatsRetry.
Context {DT : Type} `{DatetimeOps DT} (cloud : Cloud DT).
Variables (name : string) (w : World).

Lemma calls_before_second_listing :
  calls (before_retry ("bucket " +:+ name) (record_call (ListObjectsV2 name) w))
  = calls w ++ [ListObjectsV2 name].
Proof. reflexivity. Qed.

(** C5. The accumulators of _bucket_stats are not reset between the first
    attempt and the retry: when the first listing of a bucket raises a
    transient-network error after pages holding k objects of s bytes, and
    the retried listing arrives whole with n objects of b bytes, the
    returned stats are (k + n, s + b), not the bucket's (n, b). *)
Theorem bucket_stats_retry_adds_partial_tally
    (pages1 pages2 : list ObjectsPage) (e : Exc) :
  list_objects_v2 cloud name (calls w) = mkPaged pages1 (Some e) ->
  is_network_error e = true ->
  list_objects_v2 cloud name (calls w ++ [ListObjectsV2 name]) = mkPaged pages2 None ->
  S3Buckets._bucket_stats cloud name w
  = (Return (object_count pages1 + object_count pages2,
             total_size pages1 + total_size pages2),
     (after_two_listings name w)).
Proof.
  intros L1 N L2.
  unfold S3Buckets._bucket_stats, with_cell.
  unfold bind at 1.
  rewrite (guard_second_try (S3Buckets._bucket_stats_run cloud name)
             ("bucket " +:+ name) ((0, 0), w) e
             (tally pages1 (0, 0), record_call (ListObjectsV2 name) w)
             (tally pages2 (tally pages1 (0, 0)))
             (tally pages2 (tally pages1 (0, 0)), (after_two_listings name w))).
  - cbn [ret or_pair fst]. rewrite (tally_totals pages1 0 0), tally_totals.
    reflexivity.
  - rewrite bucket_stats_run_pass, L1. reflexivity.
  - exact N.
  - change (before_retry ("bucket " +:+ name)
              (tally pages1 (0, 0), record_call (ListObjectsV2 name) w))
      with (tally pages1 (0, 0),
            before_retry ("bucket " +:+ name) (record_call (ListObjectsV2 name) w)).
    rewrite bucket_stats_run_pass, calls_before_second_listing, L2. reflexivity.
Qed.

(** C4. When the object listing of a bucket fails with a transient-network
    error on the first attempt and again on the single retry, whatever
    number of objects was counted before each failure, _bucket_stats
    returns (0, 0), and the record appended for the bucket carries
    object_count 0 and size_bytes 0 next to the region that the region
    lookup then yields. *)
Theorem bucket_stats_double_failure_reports_zero
    (pages1 pages2 : list ObjectsPage) (e1 e2 : Exc) :
  list_objects_v2 cloud name (calls w) = mkPaged pages1 (Some e1) ->
  is_network_error e1 = true ->
  list_objects_v2 cloud name (calls w ++ [ListObjectsV2 name]) = mkPaged pages2 (Some e2) ->
  is_network_error e2 = true ->
  S3Buckets._bucket_stats cloud name w
  = (Return (0, 0), after_giving_up ("bucket " +:+ name) (after_two_listings name w))
  /\
  forall (results : list PyVal) (b : Bucket DT),
    bucket_Name b = Some name ->
    S3Buckets.bucket_record cloud results b w
    = bind (S3Buckets._bucket_region cloud name)
        (fun region => ret (results ++ [zero_record name b region]))
        (after_giving_up ("bucket " +:+ name) (after_two_listings name w)).
Proof.
  intros L1 N1 L2 N2.
  assert (E : S3Buckets._bucket_stats cloud name w
              = (Return (0, 0), after_giving_up ("bucket " +:+ name) (after_two_listings name w))).
  { unfold S3Buckets._bucket_stats, with_cell.
    unfold bind at 1.
    rewrite (guard_gives_up (S3Buckets._bucket_stats_run cloud name)
               ("bucket " +:+ name) ((0, 0), w) e1
               (tally pages1 (0, 0), record_call (ListObjectsV2 name) w)
               e2
               (tally pages2 (tally pages1 (0, 0)), (after_two_listings name w))).
    - reflexivity.
    - rewrite bucket_stats_run_pass, L1. reflexivity.
    - exact N1.
    - change (before_retry ("bucket " +:+ name)
                (tally pages1 (0, 0), record_call (ListObjectsV2 name) w))
        with (tally pages1 (0, 0),
              before_retry ("bucket " +:+ name) (record_call (ListObjectsV2 name) w)).
      rewrite bucket_stats_run_pass, calls_before_second_listing, L2. reflexivity.
    - exact N2. }
  split; [exact E|].
  intros results b Hname.
  unfold S3Buckets.bucket_record. rewrite Hname. cbn [subscript].
  unfold bind at 1. cbn [ret].
  unfold bind at 1. rewrite E. reflexivity.
Qed.
End BucketStatsRetry.

Lemma bucket_stats_retry_adds_partial_tally_witness :
  S3Buckets._bucket_stats slow_bucket "logs" initial_world
  = (Return (2 + 3, 500 + 600), after_two_listings "logs" initial_world).
Proof.
  apply (bucket_stats_retry_adds_partial_tally slow_bucket "logs" initial_world
           [{| Contents := [{| Size := Some 200 |}; {| Size := Some 300 |}] |}]
           [{| Contents := [{| Size := Some 200 |}; {| Size := Some 300 |}] |};
            {| Contents := [{| Size := Some 100 |}] |}]
           ConnectTimeoutError); reflexivity.
Defined.

Lemma bucket_stats_double_failure_reports_zero_witness :
  S3Buckets._bucket_stats unreachable_bucket "logs" initial_world
  = (Return (0, 0),
     {| calls := [ListObjectsV2 "logs"; ListObjectsV2 "logs"];
        stderr := ["[WARNING] Network issue while bucket logs, retrying...";
                   "[WARNING] Network issue persisted while bucket logs, skipping."];
        stdout := []; files := []; slept := 1 |}).
Proof.
  etransitivity.
  - apply (proj1 (bucket_stats_double_failure_reports_zero unreachable_bucket "logs"
                    initial_world
                    [{| Contents := [{| Size := Some 200 |}; {| Size := Some 300 |}] |}]
                    [{| Contents := [{| Size := Some 200 |}; {| Size := Some 300 |}] |}]
                    ReadTimeoutError ReadTimeoutError
                    ltac:(reflexivity) ltac:(reflexivity)
                    ltac:(reflexivity) ltac:(reflexivity))).
  - vm_compute. reflexivity.
Defined.

(** ** Loops that only compute *)

Lemma for_each_pure {S X Acc} (f : Acc -> X -> Acc) (xs : list X) (acc : Acc) (s : S) :
  for_each xs (fun acc x => ret (f acc x)) acc s = (Return (fold_left f xs acc), s).
Proof.
  revert acc. induction xs as [|x xs IH]; intros acc; [reflexivity|].
  cbn [for_each fold_left]. unfold bind at 1. cbn [ret]. apply IH.
Qed.

Lemma fold_left_concat {X Acc} (f : Acc -> X -> Acc) (xss : list (list X)) (acc : Acc) :
  fold_left (fun acc xs => fold_left f xs acc) xss acc = fold_left f (concat xss) acc.
Proof.
  revert acc. induction xss as [|xs xss IH]; intros acc; [reflexivity|].
  cbn [fold_left concat]. now rewrite IH, fold_left_app.
Qed.

Lemma or_list_Some {X} (l : list X) : or_list (Some l) [] = l.
Proof. now destruct l. Qed.

(** ** EC2 instances *)

Section Ec2Properties.
Context {DT : Type} `{DatetimeOps DT} (cloud : Cloud DT).

Lemma visit_all_records (insts : list (Instance DT)) acc :
  fst (fold_left Ec2Instances.visit_instance insts acc)
  = fst acc ++ map Ec2Instances.instance_record insts.
Proof.
  revert acc. induction insts as [|i insts IH]; intros acc.
  - cbn. now rewrite app_nil_r.
  - cbn [fold_left map]. rewrite IH. cbn [Ec2Instances.visit_instance fst].
    now rewrite <- app_assoc.
Qed.

Lemma truthy_str_Some (o : option string) (x : string) :
  truthy_str o = true -> default "" o = x -> o = Some x /\ x <> "".
Proof.
  destruct o as [s|]; cbn; [|discriminate].
  intros T <-. split; [reflexivity|].
  intros ->. discriminate.
Qed.

Lemma visit_all_ids (insts : list (Instance DT)) acc (x : string) :
  x ∈ snd (fold_left Ec2Instances.visit_instance insts acc)
  <-> x ∈ snd acc \/ (x <> "" /\ exists i, i ∈ insts /\ ImageId i = Some x).
Proof.
  revert acc. induction insts as [|i insts IH]; intros acc.
  - cbn. split; [auto|]. intros [?|(_ & i & Hi & _)]; [assumption|].
    now apply elem_of_nil in Hi.
  - cbn [fold_left]. rewrite IH. cbn [Ec2Instances.visit_instance snd].
    split.
    + intros [Hx | (Hne & j & Hj & Ej)].
      * destruct (truthy_str (ImageId i)) eqn:T.
        -- apply elem_of_union in Hx as [Hx | Hx]; [now left|].
           apply elem_of_singleton in Hx.
           destruct (truthy_str_Some _ _ T (eq_sym Hx)) as [E Hne].
           right. split; [exact Hne|]. exists i. split; [apply elem_of_cons; now left | exact E].
        -- now left.
      * right. split; [exact Hne|]. exists j. split; [apply elem_of_cons; now right | exact Ej].
    + intros [Hx | (Hne & j & Hj & Ej)].
      * left. destruct (truthy_str (ImageId i)); [apply elem_of_union; now left | exact Hx].
      * apply elem_of_cons in Hj as [-> | Hj].
        -- left. rewrite Ej. cbn. destruct (String.eqb x "") eqn:Ex.
           ++ apply String.eqb_eq in Ex. contradiction.
           ++ cbn. apply elem_of_union. right. now apply elem_of_singleton.
        -- right. split; [exact Hne|]. now exists j.
Qed.

Lemma primary_pass (pg : Paged (InstancesPage DT)) (w : World) :
  for_pages pg
    (fun acc page =>
       for_each (Reservations page)
         (fun acc res =>
            for_each (Instances res)
              (fun acc inst => ret (Ec2Instances.visit_instance acc inst)) acc)
         acc)
    ([], ∅) w
  = (match failure pg with
     | Some e => Raise e
     | None => Return (fold_left Ec2Instances.visit_instance (all_instances (pages pg)) ([], ∅))
     end, w).
Proof.
  unfold for_pages.
  assert (R : forall (ress : list (Reservation DT)) acc (s : World),
             for_each ress
               (fun acc res =>
                  for_each (Instances res)
                    (fun acc inst => ret (Ec2Instances.visit_instance acc inst)) acc)
               acc s
             = (Return (fold_left Ec2Instances.visit_instance
                          (concat (map Instances ress)) acc), s)).
  { induction ress as [|res ress IH]; intros acc s; [reflexivity|].
    cbn [for_each]. unfold bind at 1. rewrite for_each_pure, IH.
    cbn [map concat]. now rewrite fold_left_app. }
  assert (P : forall (pgs : list (InstancesPage DT)) acc (s : World),
             for_each pgs
               (fun acc page =>
                  for_each (Reservations page)
                    (fun acc res =>
                       for_each (Instances res)
                         (fun acc inst => ret (Ec2Instances.visit_instance acc inst)) acc)
                    acc)
               acc s
             = (Return (fold_left Ec2Instances.visit_instance (all_instances pgs) acc), s)).
  { induction pgs as [|page pgs IH]; intros acc s; [reflexivity|].
    cbn [for_each]. unfold bind at 1. rewrite R, IH.
    unfold all_instances. cbn [map concat]. now rewrite map_app, concat_app, fold_left_app. }
  unfold bind. rewrite P. destruct (failure pg); reflexivity.
Qed.

(** [_run] once the listing has arrived whole: the records of the primary
    pass, then the image lookup, then the names written into the records. *)
Lemma ec2_run_after_listing (pgs : list (InstancesPage DT)) (w : World) :
  describe_instances cloud (calls w) = mkPaged pgs None ->
  Ec2Instances._run cloud w
  = bind (Ec2Instances._ami_names cloud (unique_ami_ids (all_instances pgs)))
      (fun names =>
         ret (map (Ec2Instances.resolve_ami_name names)
                (map Ec2Instances.instance_record (all_instances pgs))))
      (record_call DescribeInstances w).
Proof.
  intros L. unfold Ec2Instances._run, paginate, client_call.
  unfold bind at 1. cbn [get_world set_world world_itself].
  unfold bind at 1. rewrite primary_pass, L. cbn [failure pages].
  unfold unique_ami_ids. rewrite visit_all_records. reflexivity.
Qed.

Lemma ami_names_no_ids (w : World) :
  Ec2Instances._ami_names cloud [] w = (Return ∅, w).
Proof. reflexivity. Qed.

Lemma ami_names_client_error (ids : list string) (w : World) (msg : string) :
  ids <> [] ->
  describe_images cloud ids (calls w) = Raise (ClientError msg) ->
  Ec2Instances._ami_names cloud ids w = (Return ∅, record_call (DescribeImages ids) w).
Proof.
  intros NE E. destruct ids as [|x ids]; [contradiction|].
  unfold Ec2Instances._ami_names.
  rewrite (try_except_caught _ _ _ w (ClientError msg)
             (record_call (DescribeImages (x :: ids)) w)); [reflexivity| |reflexivity].
  unfold bind, client_call. cbn [get_world set_world world_itself]. rewrite E. reflexivity.
Qed.

Lemma names_loop (imgs : list Image) (names : gmap string PyVal) (w : World) :
  Forall (fun img => is_Some (image_ImageId img)) imgs ->
  for_each imgs
    (fun names img =>
       image_id <- subscript "ImageId" (image_ImageId img) ;;
       ret (<[image_id := py_opt_str (image_Name img)]> names))
    names w
  = (Return (fold_left
               (fun names img =>
                  <[default "" (image_ImageId img) := py_opt_str (image_Name img)]> names)
               imgs names), w).
Proof.
  intros F. revert names. induction F as [|img imgs [id Hid] F IH]; intros names.
  - reflexivity.
  - cbn [for_each fold_left]. unfold bind at 1. rewrite Hid. cbn. apply IH.
Qed.

Lemma ami_names_answer (ids : list string) (w : World) (resp : ImagesResponse) :
  ids <> [] ->
  describe_images cloud ids (calls w) = Return resp ->
  Forall (fun img => is_Some (image_ImageId img)) (Images resp) ->
  Ec2Instances._ami_names cloud ids w
  = (Return (names_of (Images resp)), record_call (DescribeImages ids) w).
Proof.
  intros NE E F. destruct ids as [|x ids]; [contradiction|].
  unfold Ec2Instances._ami_names.
  apply try_except_Return.
  unfold bind at 1, client_call. cbn [get_world set_world world_itself]. rewrite E.
  now rewrite names_loop.
Qed.

Lemma resolve_nothing (r : PyVal) : Ec2Instances.resolve_ami_name ∅ r = r.
Proof.
  unfold Ec2Instances.resolve_ami_name.
  destruct (dict_get "ami_id" r) as [[]|]; try reflexivity.
Qed.

Lemma resolve_nothing_all (rs : list PyVal) :
  map (Ec2Instances.resolve_ami_name ∅) rs = rs.
Proof.
  induction rs as [|r rs IH]; [reflexivity|].
  cbn [map]. now rewrite resolve_nothing, IH.
Qed.
End Ec2Properties.

Section AmiResolution.
Context {DT : Type} `{DatetimeOps DT} (cloud : Cloud DT).

Lemma ami_name_starts_null (i : Instance DT) :
  dict_get "ami_name" (Ec2Instances.instance_record i) = Some PyNone.
Proof. reflexivity. Qed.

Lemma ami_name_written (names : gmap string PyVal) (i : Instance DT) (x : string) (n : PyVal) :
  ImageId i = Some x -> names !! x = Some n ->
  dict_get "ami_name" (Ec2Instances.resolve_ami_name names (Ec2Instances.instance_record i))
  = Some n.
Proof.
  intros E L. unfold Ec2Instances.resolve_ami_name.
  replace (dict_get "ami_id" (Ec2Instances.instance_record i)) with (Some (PyStr x))
    by (unfold Ec2Instances.instance_record; rewrite E; reflexivity).
  rewrite L. reflexivity.
Qed.

(** C6 (amended). Once the primary pagination pass of an attempt has
    completed, the set of non-empty ami_ids seen is turned into a list
    without repetitions and, when that list is not empty, exactly one
    describe-images call is made with it (none when it is empty); two
    instances with the same ami_id contribute one id and both records get
    the resolved name; when the call fails with a ClientError every record
    keeps ami_name null and no further describe-images call follows. *)
Theorem ami_names_one_batched_call (pgs : list (InstancesPage DT)) (w : World) :
  describe_instances cloud (calls w) = mkPaged pgs None ->
  let insts := all_instances pgs in
  let ids := unique_ami_ids insts in
  let records := map Ec2Instances.instance_record insts in
  let w1 := record_call DescribeInstances w in
  (NoDup ids /\
   forall x, x ∈ ids <-> x <> "" /\ exists i, i ∈ insts /\ ImageId i = Some x)
  /\
  (ids = [] ->
   Ec2Instances.collect_ec2_instances cloud w = (Return records, w1))
  /\
  (ids <> [] -> forall msg,
   describe_images cloud ids (calls w1) = Raise (ClientError msg) ->
   Ec2Instances.collect_ec2_instances cloud w
   = (Return records, record_call (DescribeImages ids) w1))
  /\
  (ids <> [] -> forall resp,
   describe_images cloud ids (calls w1) = Return resp ->
   Forall (fun img => is_Some (image_ImageId img)) (Images resp) ->
   Ec2Instances.collect_ec2_instances cloud w
   = (Return (map (Ec2Instances.resolve_ami_name (names_of (Images resp))) records),
      record_call (DescribeImages ids) w1))
  /\
  (forall i : Instance DT,
     dict_get "ami_name" (Ec2Instances.instance_record i) = Some PyNone)
  /\
  (forall names (i : Instance DT) x n,
     ImageId i = Some x -> names !! x = Some n ->
     dict_get "ami_name"
       (Ec2Instances.resolve_ami_name names (Ec2Instances.instance_record i)) = Some n).
Proof.
  intros L insts ids records w1.
  pose proof (ec2_run_after_listing cloud pgs w L) as R.
  fold insts ids records w1 in R.
  assert (C : forall rs w', Ec2Instances._run cloud w = (Return rs, w') ->
              Ec2Instances.collect_ec2_instances cloud w = (Return rs, w')).
  { intros rs w' E. unfold Ec2Instances.collect_ec2_instances.
    unfold bind at 1.
    rewrite (guard_first_try _ _ _ _ _ E). cbn [ret]. now rewrite or_list_Some. }
  split; [split|split; [|split; [|split; [|split]]]].
  - apply NoDup_elements.
  - intros x. unfold ids, unique_ami_ids. rewrite elem_of_elements, visit_all_ids.
    cbn [snd]. split.
    + intros [Hx | Hx]; [now apply not_elem_of_empty in Hx | exact Hx].
    + intros Hx. now right.
  - intros E. apply C. rewrite R, E. unfold bind. rewrite ami_names_no_ids.
    cbn [ret]. now rewrite resolve_nothing_all.
  - intros NE msg E. apply C. rewrite R. unfold bind.
    rewrite (ami_names_client_error cloud ids w1 msg NE E).
    cbn [ret]. now rewrite resolve_nothing_all.
  - intros NE resp E F. apply C. rewrite R. unfold bind.
    rewrite (ami_names_answer cloud ids w1 resp NE E F). reflexivity.
  - apply ami_name_starts_null.
  - apply ami_name_written.
Qed.
End AmiResolution.

Lemma ami_names_one_batched_call_witness :
  Ec2Instances.collect_ec2_instances small_account initial_world
  = (Return
       (map (Ec2Instances.resolve_ami_name (<["ami-1" := PyStr "base-image"]> ∅))
          (map Ec2Instances.instance_record
             [plain_instance "i-1" "running" "ami-1";
              plain_instance "i-2" "stopped" "ami-1"])),
     {| calls := [DescribeInstances; DescribeImages ["ami-1"]];
        stderr := []; stdout := []; files := []; slept := 0 |}).
Proof.
  apply (proj1 (proj2 (proj2 (proj2
           (ami_names_one_batched_call small_account
              (pages (describe_instances small_account [])) initial_world
              ltac:(reflexivity)))))
           ltac:(vm_compute; discriminate)
           {| Images := [{| image_ImageId := Some "ami-1";
                            image_Name := Some "base-image" |}] |}
           ltac:(reflexivity)).
  repeat constructor. eexists. reflexivity.
Defined.

(** C6 as stated fails when the batched call fails with a transient-network
    error: the guard repeats the whole pass, so two describe-images calls
    are made and the names are resolved although the first call failed.
    With no ami_id to resolve no describe-images call is made at all. *)
Lemma batched_image_call_repeated_by_retry :
  describe_images images_flaky ["ami-1"] [DescribeInstances] = Raise ConnectTimeoutError
  /\ calls (snd (Ec2Instances.collect_ec2_instances images_flaky initial_world))
     = [DescribeInstances; DescribeImages ["ami-1"];
        DescribeInstances; DescribeImages ["ami-1"]]
  /\ option_map (map (dict_get "ami_name"))
       (returned (fst (Ec2Instances.collect_ec2_instances images_flaky initial_world)))
     = Some [Some (PyStr "base-image"); Some (PyStr "base-image")]
  /\ calls (snd (Ec2Instances.collect_ec2_instances empty_account initial_world))
     = [DescribeInstances].
Proof. repeat split; vm_compute; reflexivity. Qed.

(** ** What a computation ensures when it returns *)

Section Ensures.
Context {S : Type}.

Lemma bind_inv {A B} (m : M S A) (k : A -> M S B) s b s' :
  bind m k s = (Return b, s') ->
  exists a s1, m s = (Return a, s1) /\ k a s1 = (Return b, s').
Proof.
  unfold bind. destruct (m s) as [[a|e] s1]; intros E; [eauto | discriminate].
Qed.

Lemma ensures_ret {A} (a : A) (Q : A -> Prop) : Q a -> ensures (@ret S A a) Q.
Proof. intros Ha s a' s' E. inversion E. now subst. Qed.

Lemma ensures_raise {A} (e : Exc) (Q : A -> Prop) : ensures (@raise S A e) Q.
Proof. intros s a s' E. discriminate. Qed.

Lemma ensures_weaken {A} (m : M S A) (P Q : A -> Prop) :
  ensures m P -> (forall a, P a -> Q a) -> ensures m Q.
Proof. intros Hm HPQ s a s' E. eauto. Qed.

Lemma ensures_bind {A B} (m : M S A) (k : A -> M S B) (P : A -> Prop) (Q : B -> Prop) :
  ensures m P -> (forall a, P a -> ensures (k a) Q) -> ensures (bind m k) Q.
Proof.
  intros Hm Hk s b s' E. apply bind_inv in E as (a & s1 & E1 & E2).
  eapply Hk; eauto.
Qed.

Lemma ensures_anything {A} (m : M S A) : ensures m (fun _ => True).
Proof. intros s a s' _. exact I. Qed.

Lemma ensures_try_except {A} (body : M S A) classes handler (Q : A -> Prop) :
  ensures body Q -> (forall e, ensures (handler e) Q) ->
  ensures (try_except body classes handler) Q.
Proof.
  intros Hb Hh s a s' E. unfold try_except in E.
  destruct (body s) as [[x|e] s1] eqn:B.
  - inversion E; subst. eauto.
  - destruct (classes e); [eapply Hh; eauto | discriminate].
Qed.

Lemma ensures_for_each {X Acc} (xs : list X) (body : Acc -> X -> M S Acc)
    (I : Acc -> Prop) :
  (forall acc x, I acc -> ensures (body acc x) I) ->
  forall acc, I acc -> ensures (for_each xs body acc) I.
Proof.
  intros Hbody. induction xs as [|x xs IH]; intros acc Hacc.
  - now apply ensures_ret.
  - cbn [for_each]. eapply ensures_bind; [apply Hbody, Hacc | intros a Ha; now apply IH].
Qed.

Lemma ensures_for_pages {P Acc} (pg : Paged P) (body : Acc -> P -> M S Acc)
    (I : Acc -> Prop) :
  (forall acc x, I acc -> ensures (body acc x) I) ->
  forall acc, I acc -> ensures (for_pages pg body acc) I.
Proof.
  intros Hbody acc Hacc. unfold for_pages.
  eapply ensures_bind; [apply (ensures_for_each _ _ I Hbody acc Hacc)|].
  intros a Ha. destruct (failure pg); [apply ensures_raise | now apply ensures_ret].
Qed.

Lemma ensures_guard `{HasWorld S} {A} (fn : M S A) (on : string) (Q : A -> Prop) :
  ensures fn Q ->
  ensures (try_once_retry_once fn on) (fun r => forall v, r = Some v -> Q v).
Proof.
  intros Hfn. unfold try_once_retry_once.
  assert (Once : ensures (v <- fn ;; ret (Some v)) (fun r => forall v, r = Some v -> Q v)).
  { eapply ensures_bind; [exact Hfn|]. intros a Ha. apply ensures_ret.
    intros v E. inversion E. now subst. }
  apply ensures_try_except; [exact Once|]. intros e.
  eapply ensures_bind; [apply ensures_anything|]. intros _ _.
  eapply ensures_bind; [apply ensures_anything|]. intros _ _.
  apply ensures_try_except; [exact Once|]. intros e2.
  eapply ensures_bind; [apply ensures_anything|]. intros _ _.
  apply ensures_ret. discriminate.
Qed.

(** [guarded or out] with [out = []] is a list whose members all come from
    the guarded function. *)
Lemma ensures_guard_or_list `{HasWorld S} {X} (fn : M S (list X)) (on : string)
    (Q : X -> Prop) :
  ensures fn (Forall Q) ->
  ensures (r <- try_once_retry_once fn on ;; ret (or_list r [])) (Forall Q).
Proof.
  intros Hfn. eapply ensures_bind; [apply ensures_guard, Hfn|].
  intros r Hr. apply ensures_ret. destruct r as [[|x l]|]; cbn.
  - constructor.
  - now apply Hr.
  - constructor.
Qed.
End Ensures.

(** ** The assembled report *)

Section Report.
Context {DT : Type} `{DatetimeOps DT} (cloud : Cloud DT).

(** A payload is assembled only from what the four collectors returned. *)
Lemma main_payload_inv (args : Args) (w w' : World) (p : PyVal) :
  main_payload cloud args w = (Return p, w') ->
  exists account_info iam_users ec2_instances s3_buckets sec_groups w1 w2 w3 w4,
    IamUsers.collect_iam_users cloud w1 = (Return iam_users, w2) /\
    Ec2Instances.collect_ec2_instances cloud w2 = (Return ec2_instances, w3) /\
    S3Buckets.collect_s3_buckets cloud w3 = (Return s3_buckets, w4) /\
    SecurityGroups.collect_security_groups cloud w4 = (Return sec_groups, w') /\
    p = PyDict
          [item "account_info" account_info;
           item "resources"
             (PyDict [item "iam_users" (PyList iam_users);
                      item "ec2_instances" (PyList ec2_instances);
                      item "s3_buckets" (PyList s3_buckets);
                      item "security_groups" (PyList sec_groups)]);
           item "summary"
             (PyDict [item "total_users" (PyInt (Z.of_nat (length iam_users)));
                      item "running_instances"
                        (PyInt (Z.of_nat (length (List.filter is_running ec2_instances))));
                      item "total_buckets" (PyInt (Z.of_nat (length s3_buckets)));
                      item "security_groups" (PyInt (Z.of_nat (length sec_groups)))])].
Proof.
  unfold main_payload. intros E.
  apply bind_inv in E as (region & w0 & _ & E).
  apply bind_inv in E as (built & w0' & _ & E).
  apply bind_inv in E as (ident & w1 & _ & E).
  apply bind_inv in E as (iam_users & w2 & E1 & E).
  apply bind_inv in E as (ec2_instances & w3 & E2 & E).
  apply bind_inv in E as (s3_buckets & w4 & E3 & E).
  apply bind_inv in E as (sec_groups & w5 & E4 & E).
  apply bind_inv in E as (t & w6 & Et & E).
  unfold datetime_now in Et. inversion Et; subst w6.
  unfold ret in E. inversion E; subst.
  eexists _, iam_users, ec2_instances, s3_buckets, sec_groups, w1, w2, w3, w4.
  repeat split; eassumption || reflexivity.
Qed.

Lemma is_running_spec (i : PyVal) :
  is_running i = true <-> dict_get "state" i = Some (PyStr "running").
Proof.
  unfold is_running. destruct (dict_get "state" i) as [[| st | | |]|]; try (split; discriminate).
  rewrite String.eqb_eq. split; [now intros -> | intros E; now inversion E].
Qed.

(** A collector of the form [try_once_retry_once(_run, ...) or out] returns
    the empty list when both attempts end in a network error. *)
Lemma collector_degrades_to_empty {X} (fn : M World (list X)) (on : string)
    (w w1 w2 : World) (e1 e2 : Exc) :
  fn w = (Raise e1, w1) -> is_network_error e1 = true ->
  fn (before_retry on w1) = (Raise e2, w2) -> is_network_error e2 = true ->
  (r <- try_once_retry_once fn on ;; ret (or_list r [])) w
  = (Return [], after_giving_up on w2).
Proof.
  intros E1 N1 E2 N2. unfold bind.
  now rewrite (guard_gives_up fn on w e1 w1 e2 w2 E1 N1 E2 N2).
Qed.

(** With its paginator built, the IAM collector is the guarded pass. *)
Lemma iam_with_paginator (w : World) :
  get_paginator cloud "list_users" (calls w) = Return tt ->
  IamUsers.collect_iam_users cloud w
  = (r <- try_once_retry_once (IamUsers._run cloud) "IAM users" ;; ret (or_list r []))
      (record_call (GetPaginator "list_users") w).
Proof.
  intros P. unfold IamUsers.collect_iam_users.
  rewrite (bind_Return _ _ w true (record_call (GetPaginator "list_users") w));
    [reflexivity|].
  apply try_except_Return. unfold bind, client_call.
  cbn [get_world set_world world_itself]. now rewrite P.
Qed.

(** C8. In every report that main assembles, the four resource lists are
    lists, and the counters are computed from them: total_users and
    total_buckets and the security-group counter are the lengths of their
    lists, running_instances is the number of instance records whose state
    is "running".  A collector whose two attempts both end in a network
    error contributes the empty list. *)
Theorem report_lists_and_counters :
  (forall (args : Args) (w w' : World) (p : PyVal),
      main_payload cloud args w = (Return p, w') ->
      exists resources summary iam_users ec2_instances s3_buckets sec_groups,
        dict_get "resources" p = Some resources /\
        dict_get "summary" p = Some summary /\
        dict_get "iam_users" resources = Some (PyList iam_users) /\
        dict_get "ec2_instances" resources = Some (PyList ec2_instances) /\
        dict_get "s3_buckets" resources = Some (PyList s3_buckets) /\
        dict_get "security_groups" resources = Some (PyList sec_groups) /\
        dict_get "total_users" summary = Some (PyInt (Z.of_nat (length iam_users))) /\
        dict_get "running_instances" summary
        = Some (PyInt (Z.of_nat (length (List.filter is_running ec2_instances)))) /\
        dict_get "total_buckets" summary = Some (PyInt (Z.of_nat (length s3_buckets))) /\
        dict_get "security_groups" summary = Some (PyInt (Z.of_nat (length sec_groups))))
  /\
  (forall i : PyVal, is_running i = true <-> dict_get "state" i = Some (PyStr "running"))
  /\
  (forall w w1 w2 e1 e2,
      get_paginator cloud "list_users" (calls w) = Return tt ->
      IamUsers._run cloud (record_call (GetPaginator "list_users") w) = (Raise e1, w1) ->
      is_network_error e1 = true ->
      IamUsers._run cloud (before_retry "IAM users" w1) = (Raise e2, w2) ->
      is_network_error e2 = true ->
      IamUsers.collect_iam_users cloud w
      = (Return [], after_giving_up "IAM users" w2))
  /\
  (forall w w1 w2 e1 e2,
      Ec2Instances._run cloud w = (Raise e1, w1) -> is_network_error e1 = true ->
      Ec2Instances._run cloud (before_retry "EC2 instances" w1) = (Raise e2, w2) ->
      is_network_error e2 = true ->
      Ec2Instances.collect_ec2_instances cloud w
      = (Return [], after_giving_up "EC2 instances" w2))
  /\
  (forall w w1 w2 e1 e2,
      S3Buckets._run cloud w = (Raise e1, w1) -> is_network_error e1 = true ->
      S3Buckets._run cloud (before_retry "S3 buckets" w1) = (Raise e2, w2) ->
      is_network_error e2 = true ->
      S3Buckets.collect_s3_buckets cloud w
      = (Return [], after_giving_up "S3 buckets" w2))
  /\
  (forall w w1 w2 e1 e2,
      SecurityGroups._run cloud w = (Raise e1, w1) -> is_network_error e1 = true ->
      SecurityGroups._run cloud (before_retry "security groups" w1) = (Raise e2, w2) ->
      is_network_error e2 = true ->
      SecurityGroups.collect_security_groups cloud w
      = (Return [], after_giving_up "security groups" w2)).
Proof.
  split; [|split; [|split; [|split; [|split]]]].
  - intros args w w' p E.
    apply main_payload_inv in E
      as (acc & iam & ec2 & s3 & sgs & w1 & w2 & w3 & w4 & _ & _ & _ & _ & ->).
    eexists _, _, iam, ec2, s3, sgs. repeat split; reflexivity.
  - apply is_running_spec.
  - intros w w1 w2 e1 e2 P E1 N1 E2 N2. rewrite (iam_with_paginator w P).
    now apply collector_degrades_to_empty with (e1 := e1) (w1 := w1) (e2 := e2).
  - intros; now apply collector_degrades_to_empty with (e1 := e1) (w1 := w1) (e2 := e2).
  - intros; now apply collector_degrades_to_empty with (e1 := e1) (w1 := w1) (e2 := e2).
  - intros; now apply collector_degrades_to_empty with (e1 := e1) (w1 := w1) (e2 := e2).
Qed.

(** Every record the S3 collector returns is a bucket record. *)
Lemma s3_records_shape :
  ensures (S3Buckets.collect_s3_buckets cloud) (Forall is_bucket_record).
Proof.
  unfold S3Buckets.collect_s3_buckets. apply ensures_guard_or_list.
  unfold S3Buckets._run.
  eapply ensures_bind; [apply ensures_anything|]. intros resp _.
  apply ensures_for_each; [|constructor].
  intros results b Hres. unfold S3Buckets.bucket_record.
  eapply ensures_bind; [apply ensures_anything|]. intros name _.
  eapply ensures_bind; [apply ensures_anything|]. intros stats _.
  eapply ensures_bind; [apply ensures_anything|]. intros region _.
  apply ensures_ret. apply Forall_app. split; [exact Hres|].
  constructor; [|constructor].
  split; [reflexivity|]. exists name, (fst stats), (snd stats). repeat split.
Qed.

Lemma instance_record_shape (inst : Instance DT) :
  @is_instance_record DT (Ec2Instances.instance_record inst).
Proof. split; [reflexivity|]. exists inst. split; reflexivity. Qed.

Lemma resolved_record_shape (names : gmap string PyVal) (inst : Instance DT) :
  @is_instance_record DT
    (Ec2Instances.resolve_ami_name names (Ec2Instances.instance_record inst)).
Proof.
  unfold Ec2Instances.resolve_ami_name.
  destruct (dict_get "ami_id" (Ec2Instances.instance_record inst)) as [[| ami | | |]|];
    try apply instance_record_shape.
  destruct (names !! ami) as [n|]; [|apply instance_record_shape].
  split; [reflexivity|]. exists inst. split; reflexivity.
Qed.

(** Every record the EC2 collector returns is an instance record. *)
Lemma ec2_records_shape :
  ensures (Ec2Instances.collect_ec2_instances cloud) (Forall (@is_instance_record DT)).
Proof.
  unfold Ec2Instances.collect_ec2_instances. apply ensures_guard_or_list.
  unfold Ec2Instances._run.
  eapply ensures_bind; [apply ensures_anything|]. intros pg _.
  eapply ensures_bind with
    (P := fun acc => exists insts, fst acc = map Ec2Instances.instance_record insts).
  - apply ensures_for_pages; [|now exists []].
    intros acc page Hacc. apply ensures_for_each; [|exact Hacc].
    intros acc1 res Hacc1. apply ensures_for_each; [|exact Hacc1].
    intros acc2 inst [insts Hacc2]. apply ensures_ret.
    exists (insts ++ [inst]). cbn [Ec2Instances.visit_instance fst].
    now rewrite Hacc2, map_app.
  - intros acc [insts Hacc].
    eapply ensures_bind; [apply ensures_anything|]. intros names _.
    apply ensures_ret. rewrite Hacc, map_map.
    apply Forall_map, Forall_forall. intros inst _. apply resolved_record_shape.
Qed.

(** Where [main] puts the rendered report. *)
Lemma main_emits_payload (args : Args) (w w' : World) :
  main cloud args w = (Return tt, w') -> format args = json ->
  exists p w1,
    main_payload cloud args w = (Return p, w1) /\
    w' = (if truthy_str (output args)
          then write_file (default "" (output args)) (JsonDumps p 2) w1
          else print_stdout (JsonDumps p 2) w1).
Proof.
  intros E F. unfold main in E.
  apply bind_inv in E as (p & w1 & Ep & E). rewrite F in E.
  apply bind_inv in E as (out & w2 & Eo & E).
  unfold ret in Eo. inversion Eo; subst out w2.
  exists p, w1. split; [exact Ep|].
  unfold write_or_print in E. destruct (truthy_str (output args)).
  - apply bind_inv in E as (opened & w3 & Eop & E).
    unfold open_for_writing in Eop. inversion Eop; subst w3.
    unfold write_text in E.
    destruct (file_write cloud (default "" (output args)) (to_json_blob p));
      now inversion E.
  - unfold print_text in E.
    destruct (print_out cloud (to_json_blob p)); now inversion E.
Qed.

Lemma payload_record_keys (args : Args) (w w' : World) (p : PyVal) :
  main_payload cloud args w = (Return p, w') ->
  exists resources buckets instances,
    dict_get "resources" p = Some resources /\
    dict_get "s3_buckets" resources = Some (PyList buckets) /\
    dict_get "ec2_instances" resources = Some (PyList instances) /\
    Forall is_bucket_record buckets /\
    Forall (@is_instance_record DT) instances.
Proof.
  intros E.
  apply main_payload_inv in E
    as (acc & iam & ec2 & s3 & sgs & w1 & w2 & w3 & w4 & _ & E2 & E3 & _ & ->).
  eexists _, s3, ec2. repeat split; try reflexivity.
  - exact (s3_records_shape _ _ _ E3).
  - exact (ec2_records_shape _ _ _ E2).
Qed.

(** C7 (amended). Whenever main ends normally with the json format, what it
    printed or wrote is json.dumps(payload, indent=2) of a payload in which
    every bucket record has exactly the keys bucket_name, creation_date,
    region, object_count and size_bytes (the byte total is under
    size_bytes), and every instance record has exactly the keys
    instance_id, instance_type, state, public_ip, private_ip,
    availability_zone, launch_time, ami_id, ami_name, security_groups and
    tags, with the instance's security-group ids, in their order, under
    security_groups. *)
Theorem report_record_keys (args : Args) (w w' : World) :
  main cloud args w = (Return tt, w') -> format args = json ->
  exists (p : PyVal) (w1 : World) resources buckets instances,
    w' = (if truthy_str (output args)
          then write_file (default "" (output args)) (JsonDumps p 2) w1
          else print_stdout (JsonDumps p 2) w1) /\
    dict_get "resources" p = Some resources /\
    dict_get "s3_buckets" resources = Some (PyList buckets) /\
    dict_get "ec2_instances" resources = Some (PyList instances) /\
    Forall (fun r =>
              dict_keys r = map PyStr ["bucket_name"; "creation_date"; "region";
                                       "object_count"; "size_bytes"] /\
              exists (name : string) (count size : Z),
                dict_get "bucket_name" r = Some (PyStr name) /\
                dict_get "object_count" r = Some (PyInt count) /\
                dict_get "size_bytes" r = Some (PyInt size))
      buckets /\
    Forall (fun r =>
              dict_keys r = map PyStr ["instance_id"; "instance_type"; "state";
                                       "public_ip"; "private_ip"; "availability_zone";
                                       "launch_time"; "ami_id"; "ami_name";
                                       "security_groups"; "tags"] /\
              exists inst : Instance DT,
                dict_get "instance_id" r = Some (py_opt_str (InstanceId inst)) /\
                dict_get "security_groups" r
                = Some (PyList (map (fun sg => py_opt_str (gi_GroupId sg))
                                  (SecurityGroups inst))))
      instances.
Proof.
  intros E F.
  destruct (main_emits_payload args w w' E F) as (p & w1 & Ep & Ew).
  destruct (payload_record_keys args w w1 p Ep) as (res & bs & insts & R & B & I & HB & HI).
  exists p, w1, res, bs, insts. repeat split; assumption.
Qed.
End Report.

Lemma report_lists_and_counters_witness :
  exists resources summary iam_users ec2_instances s3_buckets sec_groups,
    dict_get "resources" (default PyNone
      (returned (fst (main_payload small_account default_args initial_world))))
    = Some resources /\
    dict_get "summary" (default PyNone
      (returned (fst (main_payload small_account default_args initial_world))))
    = Some summary /\
    dict_get "iam_users" resources = Some (PyList iam_users) /\
    dict_get "ec2_instances" resources = Some (PyList ec2_instances) /\
    dict_get "s3_buckets" resources = Some (PyList s3_buckets) /\
    dict_get "security_groups" resources = Some (PyList sec_groups) /\
    dict_get "total_users" summary = Some (PyInt (Z.of_nat (length iam_users))) /\
    dict_get "running_instances" summary
    = Some (PyInt (Z.of_nat (length (List.filter is_running ec2_instances)))) /\
    dict_get "total_buckets" summary = Some (PyInt (Z.of_nat (length s3_buckets))) /\
    dict_get "security_groups" summary = Some (PyInt (Z.of_nat (length sec_groups))).
Proof.
  apply (proj1 (report_lists_and_counters small_account) default_args initial_world
           (snd (main_payload small_account default_args initial_world))).
  vm_compute. reflexivity.
Defined.

Lemma report_record_keys_witness :
  exists (p : PyVal) (w1 : World) resources buckets instances,
    snd (main small_account default_args initial_world)
    = (if truthy_str (output default_args)
       then write_file (default "" (output default_args)) (JsonDumps p 2) w1
       else print_stdout (JsonDumps p 2) w1) /\
    dict_get "resources" p = Some resources /\
    dict_get "s3_buckets" resources = Some (PyList buckets) /\
    dict_get "ec2_instances" resources = Some (PyList instances) /\
    Forall (fun r =>
              dict_keys r = map PyStr ["bucket_name"; "creation_date"; "region";
                                       "object_count"; "size_bytes"] /\
              exists (name : string) (count size : Z),
                dict_get "bucket_name" r = Some (PyStr name) /\
                dict_get "object_count" r = Some (PyInt count) /\
                dict_get "size_bytes" r = Some (PyInt size))
      buckets /\
    Forall (fun r =>
              dict_keys r = map PyStr ["instance_id"; "instance_type"; "state";
                                       "public_ip"; "private_ip"; "availability_zone";
                                       "launch_time"; "ami_id"; "ami_name";
                                       "security_groups"; "tags"] /\
              exists inst : Instance string,
                dict_get "instance_id" r = Some (py_opt_str (InstanceId inst)) /\
                dict_get "security_groups" r
                = Some (PyList (map (fun sg => py_opt_str (gi_GroupId sg))
                                  (SecurityGroups inst))))
      instances.
Proof.
  apply (report_record_keys small_account default_args initial_world
           (snd (main small_account default_args initial_world))).
  - vm_compute. reflexivity.
  - reflexivity.
Defined.

(** C7 as stated fails: in the report of the small account the bucket
    record has no key total_size_bytes and the instance records have no key
    security_group_ids. *)
Lemma report_lacks_spec_field_names :
  exists (bucket instance : PyVal) (others : list PyVal) (resources : PyVal),
    dict_get "resources" (default PyNone
      (returned (fst (main_payload small_account default_args initial_world))))
    = Some resources /\
    dict_get "s3_buckets" resources = Some (PyList [bucket]) /\
    dict_get "ec2_instances" resources = Some (PyList (instance :: others)) /\
    dict_get "total_size_bytes" bucket = None /\
    dict_get "size_bytes" bucket = Some (PyInt 500) /\
    dict_get "security_group_ids" instance = None /\
    dict_get "security_groups" instance = Some (PyList [PyStr "sg-1"]).
Proof.
  do 4 eexists. repeat split; vm_compute; reflexivity.
Qed.

(** ** Region, identity and exit status *)

Section Startup.
Context {DT : Type} `{DatetimeOps DT} (cloud : Cloud DT).

Lemma validate_region_accepted (region : option string) (w : World) :
  region_accepted cloud region ->
  validate_region_or_exit cloud region w = (Return (resolved_region cloud region), w).
Proof.
  unfold region_accepted, validate_region_or_exit, resolved_region.
  destruct (truthy_str region) eqn:T.
  - intros [?|Hin]; [discriminate|]. now rewrite bool_decide_eq_true_2.
  - reflexivity.
Qed.

Lemma validate_region_rejected (region : option string) (w : World) :
  truthy_str region = true ->
  default "" region ∉ get_available_regions cloud ->
  validate_region_or_exit cloud region w
  = (Raise (SystemExit 2),
     print_stderr ("[ERROR] Invalid region '" +:+ default "" region +:+ "'") w).
Proof.
  intros T Hout. unfold validate_region_or_exit. rewrite T.
  now rewrite bool_decide_eq_false_2.
Qed.

Lemma identity_client_error (w : World) (msg : string) :
  get_caller_identity cloud (calls w) = Raise (ClientError msg) ->
  get_account_identity cloud w
  = (Raise (SystemExit 1),
     print_stderr ("[ERROR] Authentication failed: " +:+ msg)
       (record_call GetCallerIdentity w)).
Proof.
  intros E. unfold get_account_identity.
  rewrite (try_except_caught _ _ _ w (ClientError msg) (record_call GetCallerIdentity w));
    [reflexivity | | reflexivity].
  unfold bind, client_call. cbn [get_world set_world world_itself]. now rewrite E.
Qed.

Lemma identity_other_error (w : World) (e : Exc) :
  get_caller_identity cloud (calls w) = Raise e -> is_client_error e = false ->
  get_account_identity cloud w = (Raise e, record_call GetCallerIdentity w).
Proof.
  intros E N. unfold get_account_identity.
  apply try_except_passes; [|exact N].
  unfold bind, client_call. cbn [get_world set_world world_itself]. now rewrite E.
Qed.

Lemma identity_answer (w : World) (ident : CallerIdentity) :
  get_caller_identity cloud (calls w) = Return ident ->
  get_account_identity cloud w
  = (Return (default "" (Account ident), default "" (Arn ident)),
     record_call GetCallerIdentity w).
Proof.
  intros E. unfold get_account_identity. apply try_except_Return.
  unfold bind, client_call. cbn [get_world set_world world_itself]. now rewrite E.
Qed.

(** [main] stops where the region check raises. *)
Lemma main_stops_at_region (args : Args) (w w' : World) (e : Exc) :
  validate_region_or_exit cloud (region args) w = (Raise e, w') ->
  main cloud args w = (Raise e, w').
Proof.
  intros E. unfold main, main_payload.
  rewrite (bind_Raise _ _ w e w'); [reflexivity|].
  now rewrite (bind_Raise _ _ w e w').
Qed.

(** With the region accepted, [main] stops where the construction of the
    clients raises: no client exists yet, so no call has been made. *)
Lemma main_stops_at_clients (args : Args) (w : World) (e : Exc) :
  region_accepted cloud (region args) ->
  boto3_clients cloud (region args) = Raise e ->
  main cloud args w = (Raise e, w).
Proof.
  intros R B. unfold main, main_payload.
  rewrite (bind_Raise _ _ w e w); [reflexivity|].
  rewrite (bind_Return _ _ w _ w (validate_region_accepted _ w R)).
  rewrite (bind_Raise _ _ w e w); [reflexivity|].
  unfold build_boto3_clients. now rewrite B.
Qed.

Lemma main_stops_at_identity (args : Args) (w w' : World) (e : Exc) :
  region_accepted cloud (region args) ->
  boto3_clients cloud (region args) = Return tt ->
  get_account_identity cloud w = (Raise e, w') ->
  main cloud args w = (Raise e, w').
Proof.
  intros R B E. unfold main, main_payload.
  rewrite (bind_Raise _ _ w e w'); [reflexivity|].
  rewrite (bind_Return _ _ w _ w (validate_region_accepted _ w R)).
  rewrite (bind_Return _ _ w tt w); [|unfold build_boto3_clients; now rewrite B].
  now rewrite (bind_Raise _ _ w e w').
Qed.

Lemma exit_code_of_main (args : Args) (w w' : World) (r : Outcome unit) :
  main cloud args w = (r, w') ->
  exit_code cloud args w
  = match r with
    | Return _ => 0
    | Raise KeyboardInterrupt => 130
    | Raise (SystemExit code) => code
    | Raise _ => 1
    end.
Proof.
  intros E. unfold exit_code, run_script, try_except. rewrite E.
  destruct r as [u|e]; [reflexivity|]. destruct e; reflexivity.
Qed.

(** C3 (amended). The identity lookup makes its remote call once and never
    retries it.  A ClientError (authentication failure) is fatal: the
    message "[ERROR] Authentication failed: ..." is printed and SystemExit(1)
    is raised; in a run whose region passes validation and whose clients
    could be constructed, that call is the only one made, nothing else is
    printed and the exit status is 1.  Any other exception, a
    transient-network error included, leaves the lookup unchanged after the
    single call.  An answer without Account or Arn is accepted, the missing
    field being the empty string. *)
Theorem identity_lookup_outcomes (w : World) :
  (forall msg,
      get_caller_identity cloud (calls w) = Raise (ClientError msg) ->
      get_account_identity cloud w
      = (Raise (SystemExit 1),
         print_stderr ("[ERROR] Authentication failed: " +:+ msg)
           (record_call GetCallerIdentity w))
      /\
      forall args, region_accepted cloud (region args) ->
        boto3_clients cloud (region args) = Return tt ->
        exit_code cloud args w = 1 /\
        snd (run_script cloud args w)
        = print_stderr ("[ERROR] Authentication failed: " +:+ msg)
            (record_call GetCallerIdentity w) /\
        calls (snd (run_script cloud args w)) = calls w ++ [GetCallerIdentity])
  /\
  (forall e,
      get_caller_identity cloud (calls w) = Raise e -> is_client_error e = false ->
      get_account_identity cloud w = (Raise e, record_call GetCallerIdentity w))
  /\
  (forall ident,
      get_caller_identity cloud (calls w) = Return ident ->
      get_account_identity cloud w
      = (Return (default "" (Account ident), default "" (Arn ident)),
         record_call GetCallerIdentity w)).
Proof.
  split; [|split].
  - intros msg E. split; [now apply identity_client_error|].
    intros args R B.
    pose proof (main_stops_at_identity args w _ _ R B (identity_client_error w msg E)) as Em.
    split; [|split].
    + now rewrite (exit_code_of_main args w _ _ Em).
    + unfold run_script, try_except. rewrite Em. reflexivity.
    + unfold run_script, try_except. rewrite Em. reflexivity.
  - apply identity_other_error.
  - apply identity_answer.
Qed.

(** The retry guard lets an interrupt through, on the first attempt and on
    the retry. *)
Lemma guard_passes_interrupt {S A} `{HasWorld S} (fn : M S A) (on : string) (s s' : S) :
  fn s = (Raise KeyboardInterrupt, s') ->
  try_once_retry_once fn on s = (Raise KeyboardInterrupt, s').
Proof. intros E. now apply guard_not_network. Qed.

End Startup.

Lemma identity_lookup_outcomes_witness :
  get_account_identity bad_credentials initial_world
  = (Raise (SystemExit 1),
     {| calls := [GetCallerIdentity];
        stderr := ["[ERROR] Authentication failed: InvalidClientTokenId"];
        stdout := []; files := []; slept := 0 |})
  /\ exit_code bad_credentials default_args initial_world = 1
  /\ calls (snd (run_script bad_credentials default_args initial_world))
     = [GetCallerIdentity].
Proof.
  split; [|split].
  - apply (proj1 (proj1 (identity_lookup_outcomes bad_credentials initial_world)
                    "InvalidClientTokenId" ltac:(reflexivity))).
  - apply (proj2 (proj1 (identity_lookup_outcomes bad_credentials initial_world)
                    "InvalidClientTokenId" ltac:(reflexivity))
             default_args).
    + left. reflexivity.
    + reflexivity.
  - apply (proj2 (proj1 (identity_lookup_outcomes bad_credentials initial_world)
                    "InvalidClientTokenId" ltac:(reflexivity))
             default_args).
    + left. reflexivity.
    + reflexivity.
Defined.

(** C3 as stated fails: a timeout of the identity lookup is not retried (one
    call, although a second one would have answered) and no error message
    is printed; an answer without Account and Arn is not fatal, the run
    ends with status 0. *)
Lemma identity_timeout_not_retried :
  get_account_identity identity_flaky initial_world
  = (Raise ConnectTimeoutError,
     {| calls := [GetCallerIdentity]; stderr := []; stdout := []; files := [];
        slept := 0 |})
  /\ get_caller_identity identity_flaky [GetCallerIdentity]
     = Return {| Account := Some "123456789012";
                 Arn := Some "arn:aws:iam::123456789012:user/test" |}
  /\ fst (run_script identity_flaky default_args initial_world) = Raise ConnectTimeoutError
  /\ get_account_identity identity_blank initial_world
     = (Return ("", ""), record_call GetCallerIdentity initial_world)
  /\ exit_code identity_blank default_args initial_world = 0.
Proof. repeat split; vm_compute; reflexivity. Qed.

(** ** Client errors in the enrichment calls *)

Section ClientErrors.
Context {DT : Type} `{DatetimeOps DT} (cloud : Cloud DT).

Lemma bucket_region_client_error (name : string) (w : World) (msg : string) :
  get_bucket_location cloud name (calls w) = Raise (ClientError msg) ->
  S3Buckets._bucket_region cloud name w
  = (Return "unknown", record_call (GetBucketLocation name) w).
Proof.
  intros E. unfold S3Buckets._bucket_region.
  rewrite (try_except_caught _ _ _ w (ClientError msg)
             (record_call (GetBucketLocation name) w)); [reflexivity| |reflexivity].
  unfold bind, client_call. cbn [get_world set_world world_itself]. now rewrite E.
Qed.

Lemma attach_policies (ps : list AttachedPolicy) (attached : list PyVal) (w : World) :
  for_each ps
    (fun _ p =>
       update_cell (fun attached =>
         attached ++
         [PyDict [item "policy_name" (py_opt_str (PolicyName p));
                  item "policy_arn" (py_opt_str (PolicyArn p))]]))
    tt (attached, w)
  = (Return tt,
     (attached ++
      map (fun p => PyDict [item "policy_name" (py_opt_str (PolicyName p));
                            item "policy_arn" (py_opt_str (PolicyArn p))]) ps, w)).
Proof.
  revert attached. induction ps as [|p ps IH]; intros attached.
  - cbn. now rewrite app_nil_r.
  - cbn [for_each map]. unfold bind at 1. cbn [update_cell fst snd].
    rewrite IH. now rewrite <- app_assoc.
Qed.

Lemma attach_policy_pages (pgs : list PoliciesPage) (attached : list PyVal) (w : World) :
  for_each pgs
    (fun _ pol_page =>
       for_each (AttachedPolicies pol_page)
         (fun _ p =>
            update_cell (fun attached =>
              attached ++
              [PyDict [item "policy_name" (py_opt_str (PolicyName p));
                       item "policy_arn" (py_opt_str (PolicyArn p))]]))
         tt)
    tt (attached, w)
  = (Return tt, (attached ++ policy_records pgs, w)).
Proof.
  revert attached. induction pgs as [|pg pgs IH]; intros attached.
  - cbn. now rewrite app_nil_r.
  - cbn [for_each]. unfold bind at 1. rewrite attach_policies, IH.
    unfold policy_records. cbn [map concat]. now rewrite <- app_assoc.
Qed.

Lemma user_record_client_errors (results : list PyVal) (u : User DT) (w : World)
    (msg msg' : string) (pgs : list PoliciesPage) :
  get_user cloud (UserName u) (calls w) = Raise (ClientError msg) ->
  list_attached_user_policies cloud (UserName u) (calls w ++ [GetUser (UserName u)])
  = mkPaged pgs (Some (ClientError msg')) ->
  IamUsers.user_record cloud results u w
  = (Return (results ++ [user_record_without_enrichment u pgs]),
     print_stderr ("[WARNING] Cannot list policies for " +:+ str_opt_str (UserName u))
       (record_call (ListAttachedUserPolicies (UserName u))
          (record_call (GetUser (UserName u)) w))).
Proof.
  intros Eg El. unfold IamUsers.user_record.
  rewrite (bind_Return _ _ w None (record_call (GetUser (UserName u)) w)).
  2:{ rewrite (try_except_caught _ _ _ w (ClientError msg)
                 (record_call (GetUser (UserName u)) w)); [reflexivity| |reflexivity].
      unfold bind, client_call. cbn [get_world set_world world_itself]. now rewrite Eg. }
  rewrite (bind_Return _ _ _ (tt, policy_records pgs)
             (print_stderr ("[WARNING] Cannot list policies for " +:+ str_opt_str (UserName u))
                (record_call (ListAttachedUserPolicies (UserName u))
                   (record_call (GetUser (UserName u)) w)))).
  - reflexivity.
  - unfold with_cell.
    rewrite (try_except_caught _ _ _ _ (ClientError msg')
               (policy_records pgs,
                record_call (ListAttachedUserPolicies (UserName u))
                  (record_call (GetUser (UserName u)) w))); [reflexivity| |reflexivity].
    unfold paginate, client_call. unfold bind at 1.
    cbn [get_world set_world world_under_cell world_itself fst snd record_call calls].
    rewrite El. unfold for_pages. cbn [pages failure].
    unfold bind at 1. rewrite attach_policy_pages. reflexivity.
Qed.

Lemma iam_paginator_client_error (w : World) (msg : string) :
  get_paginator cloud "list_users" (calls w) = Raise (ClientError msg) ->
  IamUsers.collect_iam_users cloud w
  = (Return [], record_call (GetPaginator "list_users") w).
Proof.
  intros E. unfold IamUsers.collect_iam_users.
  rewrite (bind_Return _ _ w false (record_call (GetPaginator "list_users") w));
    [reflexivity|].
  rewrite (try_except_caught _ _ _ w (ClientError msg)
             (record_call (GetPaginator "list_users") w)); [reflexivity| |reflexivity].
  unfold bind, client_call. cbn [get_world set_world world_itself]. now rewrite E.
Qed.

(** The two enrichment steps of a user, one outcome at a time. *)
Lemma get_user_refused (u : User DT) (w : World) (msg : string) :
  get_user cloud (UserName u) (calls w) = Raise (ClientError msg) ->
  try_except
    (gu <- client_call (GetUser (UserName u)) (get_user cloud (UserName u)) ;;
     ret (utc_iso (match gu_User gu with
                   | Some detail => PasswordLastUsed detail
                   | None => None
                   end)))
    is_client_error
    (fun _ => ret None) w
  = (Return None, record_call (GetUser (UserName u)) w).
Proof.
  intros E. unfold try_except, bind, client_call.
  cbn [get_world set_world world_itself]. now rewrite E.
Qed.

Lemma get_user_answered (u : User DT) (w : World) (gu : GetUserResponse DT) :
  get_user cloud (UserName u) (calls w) = Return gu ->
  try_except
    (gu <- client_call (GetUser (UserName u)) (get_user cloud (UserName u)) ;;
     ret (utc_iso (match gu_User gu with
                   | Some detail => PasswordLastUsed detail
                   | None => None
                   end)))
    is_client_error
    (fun _ => ret None) w
  = (Return (utc_iso (match gu_User gu with
                      | Some detail => PasswordLastUsed detail
                      | None => None
                      end)),
     record_call (GetUser (UserName u)) w).
Proof.
  intros E. unfold try_except, bind, client_call.
  cbn [get_world set_world world_itself]. now rewrite E.
Qed.

Lemma policies_outcome (username : option string) (w : World) (pgs : list PoliciesPage)
    (f : option Exc) :
  list_attached_user_policies cloud username (calls w) = mkPaged pgs f ->
  (forall e, f = Some e -> is_client_error e = true) ->
  with_cell ([] : list PyVal)
    (try_except
       (pol_pages <- paginate (ListAttachedUserPolicies username)
                       (list_attached_user_policies cloud username) ;;
        for_pages pol_pages
          (fun _ pol_page =>
             for_each (AttachedPolicies pol_page)
               (fun _ p =>
                  update_cell (fun attached =>
                    attached ++
                    [PyDict [item "policy_name" (py_opt_str (PolicyName p));
                             item "policy_arn" (py_opt_str (PolicyArn p))]]))
               tt)
          tt)
       is_client_error
       (fun _ => warn ("Cannot list policies for " +:+ str_opt_str username))) w
  = (Return (tt, policy_records pgs),
     match f with
     | Some _ =>
         print_stderr ("[WARNING] Cannot list policies for " +:+ str_opt_str username)
           (record_call (ListAttachedUserPolicies username) w)
     | None => record_call (ListAttachedUserPolicies username) w
     end).
Proof.
  intros L Hf. unfold with_cell, try_except, paginate, client_call.
  unfold bind at 1.
  cbn [get_world set_world world_under_cell world_itself fst snd].
  rewrite L. unfold for_pages. cbn [pages failure].
  unfold bind at 1. rewrite attach_policy_pages.
  destruct f as [e|]; [|reflexivity].
  cbn [raise]. rewrite (Hf e eq_refl). reflexivity.
Qed.

Lemma user_record_enriched (results : list PyVal) (u : User DT) (w : World)
    (last_activity : option string) (pgs : list PoliciesPage) (f : option Exc) :
  try_except
    (gu <- client_call (GetUser (UserName u)) (get_user cloud (UserName u)) ;;
     ret (utc_iso (match gu_User gu with
                   | Some detail => PasswordLastUsed detail
                   | None => None
                   end)))
    is_client_error
    (fun _ => ret None) w
  = (Return last_activity, record_call (GetUser (UserName u)) w) ->
  list_attached_user_policies cloud (UserName u) (calls w ++ [GetUser (UserName u)])
  = mkPaged pgs f ->
  (forall e, f = Some e -> is_client_error e = true) ->
  IamUsers.user_record cloud results u w
  = (Return (results ++ [user_record_of u last_activity pgs]),
     match f with
     | Some _ =>
         print_stderr ("[WARNING] Cannot list policies for " +:+ str_opt_str (UserName u))
           (record_call (ListAttachedUserPolicies (UserName u))
              (record_call (GetUser (UserName u)) w))
     | None =>
         record_call (ListAttachedUserPolicies (UserName u))
           (record_call (GetUser (UserName u)) w)
     end).
Proof.
  intros Eg L Hf. unfold IamUsers.user_record.
  rewrite (bind_Return _ _ w last_activity _ Eg).
  rewrite (bind_Return _ _ _ _ _
             (policies_outcome (UserName u) (record_call (GetUser (UserName u)) w) pgs f
                L Hf)).
  reflexivity.
Qed.

(** After a refused image lookup the EC2 collector returns the records of
    the primary pass as they are. *)
Lemma ec2_images_refused (pgs : list (InstancesPage DT)) (w : World) (msg : string) :
  describe_instances cloud (calls w) = mkPaged pgs None ->
  unique_ami_ids (all_instances pgs) <> [] ->
  describe_images cloud (unique_ami_ids (all_instances pgs))
    (calls w ++ [DescribeInstances]) = Raise (ClientError msg) ->
  Ec2Instances.collect_ec2_instances cloud w
  = (Return (map Ec2Instances.instance_record (all_instances pgs)),
     record_call (DescribeImages (unique_ami_ids (all_instances pgs)))
       (record_call DescribeInstances w)).
Proof.
  intros L NE E. unfold Ec2Instances.collect_ec2_instances. unfold bind at 1.
  rewrite (guard_first_try (Ec2Instances._run cloud) "EC2 instances" w
             (map Ec2Instances.instance_record (all_instances pgs))
             (record_call (DescribeImages (unique_ami_ids (all_instances pgs)))
                (record_call DescribeInstances w))).
  - cbn [ret]. now rewrite or_list_Some.
  - rewrite (ec2_run_after_listing cloud pgs w L). unfold bind.
    rewrite (ami_names_client_error cloud _ (record_call DescribeInstances w) msg NE E).
    cbn [ret]. now rewrite resolve_nothing_all.
Qed.

(** C1 (amended). During enumeration a ClientError raised by an enrichment
    sub-call is caught at that sub-call, and the record it belongs to is
    still produced.  A refused region lookup gives the region "unknown" in
    the bucket's record.  A refused batched image lookup gives no names: the
    EC2 collector returns one record per instance and every record keeps
    ami_name null.  A refused get_user gives last_activity null, whether the
    policies can be listed or not; a policy listing that is refused
    part-way keeps the policies listed so far and logs the warning "Cannot
    list policies for ...", whether get_user answered or not.  A ClientError
    while the list_users paginator is built makes collect_iam_users return
    the empty list.  Of these only the policy listing logs a warning. *)
Theorem client_errors_caught_at_sub_calls :
  (forall (results : list PyVal) (b : Bucket DT) (name : string) (w w1 : World)
          (stats : Z * Z) (msg : string),
      bucket_Name b = Some name ->
      S3Buckets._bucket_stats cloud name w = (Return stats, w1) ->
      get_bucket_location cloud name (calls w1) = Raise (ClientError msg) ->
      S3Buckets.bucket_record cloud results b w
      = (Return (results ++
                 [PyDict [item "bucket_name" (PyStr name);
                          item "creation_date" (py_opt_str (utc_iso (CreationDate b)));
                          item "region" (PyStr "unknown");
                          item "object_count" (PyInt (fst stats));
                          item "size_bytes" (PyInt (snd stats))]]),
         record_call (GetBucketLocation name) w1))
  /\
  (forall (ids : list string) (w : World) (msg : string),
      ids <> [] ->
      describe_images cloud ids (calls w) = Raise (ClientError msg) ->
      Ec2Instances._ami_names cloud ids w
      = (Return ∅, record_call (DescribeImages ids) w))
  /\
  (forall (pgs : list (InstancesPage DT)) (w : World) (msg : string),
      describe_instances cloud (calls w) = mkPaged pgs None ->
      unique_ami_ids (all_instances pgs) <> [] ->
      describe_images cloud (unique_ami_ids (all_instances pgs))
        (calls w ++ [DescribeInstances]) = Raise (ClientError msg) ->
      Ec2Instances.collect_ec2_instances cloud w
      = (Return (map Ec2Instances.instance_record (all_instances pgs)),
         record_call (DescribeImages (unique_ami_ids (all_instances pgs)))
           (record_call DescribeInstances w))
      /\
      Forall (fun r => dict_get "ami_name" r = Some PyNone)
        (map Ec2Instances.instance_record (all_instances pgs)))
  /\
  (forall (results : list PyVal) (u : User DT) (w : World) (msg : string)
          (pgs : list PoliciesPage),
      get_user cloud (UserName u) (calls w) = Raise (ClientError msg) ->
      list_attached_user_policies cloud (UserName u) (calls w ++ [GetUser (UserName u)])
      = mkPaged pgs None ->
      IamUsers.user_record cloud results u w
      = (Return (results ++ [user_record_of u None pgs]),
         record_call (ListAttachedUserPolicies (UserName u))
           (record_call (GetUser (UserName u)) w)))
  /\
  (forall (results : list PyVal) (u : User DT) (w : World) (gu : GetUserResponse DT)
          (msg' : string) (pgs : list PoliciesPage),
      get_user cloud (UserName u) (calls w) = Return gu ->
      list_attached_user_policies cloud (UserName u) (calls w ++ [GetUser (UserName u)])
      = mkPaged pgs (Some (ClientError msg')) ->
      IamUsers.user_record cloud results u w
      = (Return (results ++
                 [user_record_of u
                    (utc_iso (match gu_User gu with
                              | Some detail => PasswordLastUsed detail
                              | None => None
                              end))
                    pgs]),
         print_stderr ("[WARNING] Cannot list policies for " +:+ str_opt_str (UserName u))
           (record_call (ListAttachedUserPolicies (UserName u))
              (record_call (GetUser (UserName u)) w))))
  /\
  (forall (results : list PyVal) (u : User DT) (w : World) (msg msg' : string)
          (pgs : list PoliciesPage),
      get_user cloud (UserName u) (calls w) = Raise (ClientError msg) ->
      list_attached_user_policies cloud (UserName u) (calls w ++ [GetUser (UserName u)])
      = mkPaged pgs (Some (ClientError msg')) ->
      IamUsers.user_record cloud results u w
      = (Return (results ++ [user_record_without_enrichment u pgs]),
         print_stderr ("[WARNING] Cannot list policies for " +:+ str_opt_str (UserName u))
           (record_call (ListAttachedUserPolicies (UserName u))
              (record_call (GetUser (UserName u)) w))))
  /\
  (forall (w : World) (msg : string),
      get_paginator cloud "list_users" (calls w) = Raise (ClientError msg) ->
      IamUsers.collect_iam_users cloud w
      = (Return [], record_call (GetPaginator "list_users") w)).
Proof.
  split; [|split; [|split; [|split; [|split; [|split]]]]].
  - intros results b name w w1 stats msg Hname Es El.
    unfold S3Buckets.bucket_record. rewrite Hname. cbn [subscript].
    unfold bind at 1. cbn [ret]. unfold bind at 1. rewrite Es.
    unfold bind at 1. now rewrite (bucket_region_client_error name w1 msg El).
  - intros ids w msg. apply ami_names_client_error.
  - intros pgs w msg L NE E. split; [now apply ec2_images_refused with (msg := msg)|].
    apply Forall_map, Forall_forall. intros i _. reflexivity.
  - intros results u w msg pgs Eg L.
    rewrite (user_record_enriched results u w None pgs None
               (get_user_refused u w msg Eg) L); [reflexivity | discriminate].
  - intros results u w gu msg' pgs Eg L.
    rewrite (user_record_enriched results u w _ pgs (Some (ClientError msg'))
               (get_user_answered u w gu Eg) L); [reflexivity|].
    intros e Ee. inversion Ee. reflexivity.
  - apply user_record_client_errors.
  - apply iam_paginator_client_error.
Qed.
End ClientErrors.

Lemma client_errors_caught_at_sub_calls_witness :
  S3Buckets.bucket_record restricted_account []
    {| bucket_Name := Some "logs"; CreationDate := Some "2024-02-02T00:00:00Z" |}
    initial_world
  = (Return [PyDict [item "bucket_name" (PyStr "logs");
                     item "creation_date" (PyStr "2024-02-02T00:00:00Z");
                     item "region" (PyStr "unknown");
                     item "object_count" (PyInt 2);
                     item "size_bytes" (PyInt 500)]],
     {| calls := [ListObjectsV2 "logs"; GetBucketLocation "logs"];
        stderr := []; stdout := []; files := []; slept := 0 |})
  /\
  (Ec2Instances.collect_ec2_instances images_denied initial_world
   = (Return (map Ec2Instances.instance_record
                [plain_instance "i-1" "running" "ami-1";
                 plain_instance "i-2" "stopped" "ami-1"]),
      {| calls := [DescribeInstances; DescribeImages ["ami-1"]];
         stderr := []; stdout := []; files := []; slept := 0 |})
   /\
   Forall (fun r => dict_get "ami_name" r = Some PyNone)
     (map Ec2Instances.instance_record
        [plain_instance "i-1" "running" "ami-1";
         plain_instance "i-2" "stopped" "ami-1"]))
  /\
  IamUsers.user_record user_lookup_denied []
    {| UserName := Some "alice"; UserId := Some "AIDA1"; user_Arn := None;
       CreateDate := None |}
    initial_world
  = (Return [PyDict [item "username" (PyStr "alice");
                     item "user_id" (PyStr "AIDA1");
                     item "arn" PyNone;
                     item "create_date" PyNone;
                     item "last_activity" PyNone;
                     item "attached_policies"
                       (PyList [PyDict [item "policy_name" (PyStr "ReadOnlyAccess");
                                        item "policy_arn"
                                          (PyStr "arn:aws:iam::aws:policy/ReadOnlyAccess")]])]],
     {| calls := [GetUser (Some "alice"); ListAttachedUserPolicies (Some "alice")];
        stderr := []; stdout := []; files := []; slept := 0 |})
  /\
  IamUsers.user_record policies_denied []
    {| UserName := Some "alice"; UserId := Some "AIDA1"; user_Arn := None;
       CreateDate := None |}
    initial_world
  = (Return [PyDict [item "username" (PyStr "alice");
                     item "user_id" (PyStr "AIDA1");
                     item "arn" PyNone;
                     item "create_date" PyNone;
                     item "last_activity" (PyStr "2024-06-01T12:00:00Z");
                     item "attached_policies"
                       (PyList [PyDict [item "policy_name" (PyStr "ReadOnlyAccess");
                                        item "policy_arn"
                                          (PyStr "arn:aws:iam::aws:policy/ReadOnlyAccess")]])]],
     {| calls := [GetUser (Some "alice"); ListAttachedUserPolicies (Some "alice")];
        stderr := ["[WARNING] Cannot list policies for alice"];
        stdout := []; files := []; slept := 0 |})
  /\
  IamUsers.user_record restricted_account []
    {| UserName := Some "alice"; UserId := Some "AIDA1"; user_Arn := None;
       CreateDate := None |}
    initial_world
  = (Return [PyDict [item "username" (PyStr "alice");
                     item "user_id" (PyStr "AIDA1");
                     item "arn" PyNone;
                     item "create_date" PyNone;
                     item "last_activity" PyNone;
                     item "attached_policies"
                       (PyList [PyDict [item "policy_name" (PyStr "ReadOnlyAccess");
                                        item "policy_arn"
                                          (PyStr "arn:aws:iam::aws:policy/ReadOnlyAccess")]])]],
     {| calls := [GetUser (Some "alice"); ListAttachedUserPolicies (Some "alice")];
        stderr := ["[WARNING] Cannot list policies for alice"];
        stdout := []; files := []; slept := 0 |}).
Proof.
  pose (alice := {| UserName := Some "alice"; UserId := Some "AIDA1"; user_Arn := None;
                    CreateDate := @None string |}).
  split; [|split; [|split; [|split]]].
  - etransitivity.
    + apply (proj1 (client_errors_caught_at_sub_calls restricted_account) []
               {| bucket_Name := Some "logs"; CreationDate := Some "2024-02-02T00:00:00Z" |}
               "logs" initial_world (record_call (ListObjectsV2 "logs") initial_world)
               (2, 500) "AccessDenied"); reflexivity.
    + vm_compute. reflexivity.
  - apply (proj1 (proj2 (proj2 (client_errors_caught_at_sub_calls images_denied)))
             (pages (describe_instances images_denied [])) initial_world
             "UnauthorizedOperation").
    + reflexivity.
    + vm_compute. discriminate.
    + reflexivity.
  - etransitivity.
    + apply (proj1 (proj2 (proj2 (proj2 (client_errors_caught_at_sub_calls
               user_lookup_denied)))) [] alice initial_world "AccessDenied"
               [read_only_policy_page]); reflexivity.
    + vm_compute. reflexivity.
  - etransitivity.
    + apply (proj1 (proj2 (proj2 (proj2 (proj2 (client_errors_caught_at_sub_calls
               policies_denied))))) [] alice initial_world
               {| gu_User := Some {| PasswordLastUsed := Some "2024-06-01T12:00:00Z" |} |}
               "AccessDenied" [read_only_policy_page]); reflexivity.
    + vm_compute. reflexivity.
  - etransitivity.
    + apply (proj1 (proj2 (proj2 (proj2 (proj2 (proj2 (client_errors_caught_at_sub_calls
               restricted_account)))))) [] alice initial_world
               "AccessDenied" "AccessDenied" [read_only_policy_page]); reflexivity.
    + vm_compute. reflexivity.
Defined.

(** C1 as stated fails: when listing the objects of a bucket is denied
    part-way (a ClientError, not a network error), nothing catches the
    error: the S3 collector raises it instead of returning records, no
    warning is logged, and the run ends on it without a report. *)
Lemma denied_object_listing_aborts_run :
  S3Buckets.collect_s3_buckets denied_bucket initial_world
  = (Raise (ClientError "AccessDenied"),
     {| calls := [ListBuckets; ListObjectsV2 "logs"];
        stderr := []; stdout := []; files := []; slept := 0 |})
  /\ fst (run_script denied_bucket default_args initial_world)
     = Raise (ClientError "AccessDenied")
  /\ stdout (snd (run_script denied_bucket default_args initial_world)) = []
  /\ stderr (snd (run_script denied_bucket default_args initial_world)) = []
  /\ exit_code denied_bucket default_args initial_world = 1.
Proof. repeat split; vm_compute; reflexivity. Qed.

(** ** What a computation can raise *)

Section RaisesOnly.
Context {S : Type}.

Lemma raises_ret {A} (a : A) (P : Exc -> Prop) : raises_only (@ret S A a) P.
Proof. intros s e s' E. discriminate. Qed.

Lemma raises_raise {A} (e : Exc) (P : Exc -> Prop) : P e -> raises_only (@raise S A e) P.
Proof. intros He s e' s' E. inversion E. now subst. Qed.

Lemma raises_weaken {A} (m : M S A) (P Q : Exc -> Prop) :
  raises_only m P -> (forall e, P e -> Q e) -> raises_only m Q.
Proof. intros Hm HPQ s e s' E. eauto. Qed.

Lemma raises_bind {A B} (m : M S A) (k : A -> M S B) (P : Exc -> Prop) :
  raises_only m P -> (forall a, raises_only (k a) P) -> raises_only (bind m k) P.
Proof.
  intros Hm Hk s e s' E. unfold bind in E.
  destruct (m s) as [[a|e1] s1] eqn:Em.
  - eapply Hk; eauto.
  - inversion E; subst. eapply Hm; eauto.
Qed.

Lemma raises_try_except {A} (body : M S A) classes handler (P' P : Exc -> Prop) :
  raises_only body P' ->
  (forall e, P' e -> classes e = false -> P e) ->
  (forall e, P' e -> classes e = true -> raises_only (handler e) P) ->
  raises_only (try_except body classes handler) P.
Proof.
  intros Hb Hpass Hh s e s' E. unfold try_except in E.
  destruct (body s) as [[a|e1] s1] eqn:Eb; [discriminate|].
  destruct (classes e1) eqn:C.
  - eapply Hh; eauto.
  - inversion E; subst. eauto.
Qed.

Lemma raises_for_each {X Acc} (xs : list X) (body : Acc -> X -> M S Acc)
    (P : Exc -> Prop) :
  (forall acc x, raises_only (body acc x) P) ->
  forall acc, raises_only (for_each xs body acc) P.
Proof.
  intros Hbody. induction xs as [|x xs IH]; intros acc.
  - apply raises_ret.
  - cbn [for_each]. apply raises_bind; [apply Hbody | intros a; apply IH].
Qed.

Lemma raises_for_pages {Pg Acc} (pg : Paged Pg) (body : Acc -> Pg -> M S Acc)
    (P : Exc -> Prop) :
  (forall acc x, raises_only (body acc x) P) ->
  (forall e, failure pg = Some e -> P e) ->
  forall acc, raises_only (for_pages pg body acc) P.
Proof.
  intros Hbody Hf acc. unfold for_pages.
  apply raises_bind; [now apply raises_for_each|].
  intros a. destruct (failure pg) as [e|]; [apply raises_raise; auto | apply raises_ret].
Qed.

Lemma raises_with_cell {L A} (init : L) (m : M (L * S) A) (P : Exc -> Prop) :
  raises_only m P -> raises_only (with_cell init m) P.
Proof.
  intros Hm s e s' E. unfold with_cell in E.
  destruct (m (init, s)) as [[a|e1] [l s1]] eqn:Em; [discriminate|].
  inversion E; subst. eapply Hm; eauto.
Qed.

Lemma raises_update_cell {L} (f : L -> L) (P : Exc -> Prop) :
  raises_only (@update_cell S L f) P.
Proof. intros s e s' E. discriminate. Qed.

Lemma raises_read_cell {L} (P : Exc -> Prop) : raises_only (@read_cell S L) P.
Proof. intros s e s' E. discriminate. Qed.

Context `{HasWorld S}.

Lemma raises_on_world (f : World -> World) (P : Exc -> Prop) :
  raises_only (on_world (S := S) f) P.
Proof. intros s e s' E. discriminate. Qed.

Lemma raises_client_call {A} (c : Call) (answer : list Call -> Outcome A)
    (P : Exc -> Prop) :
  (forall h e, answer h = Raise e -> P e) ->
  raises_only (client_call (S := S) c answer) P.
Proof.
  intros Ha s e s' E. unfold client_call in E. inversion E. eauto.
Qed.

Lemma raises_paginate {Pg} (c : Call) (listing : list Call -> Paged Pg)
    (P : Exc -> Prop) :
  raises_only (paginate (S := S) c listing) P.
Proof. apply raises_client_call. discriminate. Qed.

(** Whatever [fn] raises, the guard raises none of the network errors. *)
Lemma raises_guard {A} (fn : M S A) (on : string) (P : Exc -> Prop) :
  raises_only fn P ->
  raises_only (try_once_retry_once fn on) (fun e => P e /\ is_network_error e = false).
Proof.
  intros Hfn. unfold try_once_retry_once.
  assert (Once : raises_only (v <- fn ;; ret (Some v)) P).
  { apply raises_bind; [exact Hfn | intros a; apply raises_ret]. }
  eapply raises_try_except; [exact Once | auto |].
  intros e1 _ _.
  apply raises_bind; [apply raises_on_world|]. intros _.
  apply raises_bind; [apply raises_on_world|]. intros _.
  eapply raises_try_except; [exact Once | auto |].
  intros e2 _ _.
  apply raises_bind; [apply raises_on_world | intros _; apply raises_ret].
Qed.
End RaisesOnly.

(** The guard never lets a network error out, whatever the operation does:
    [ConnectTimeoutError], [ReadTimeoutError] and [EndpointConnectionError]
    are retried or turned into [None]. *)
Theorem guard_never_raises_network_error
    {S : Type} `{HasWorld S} {A : Type} (fn : M S A) (on : string) (s s' : S) (e : Exc) :
  try_once_retry_once fn on s = (Raise e, s') ->
  e <> EndpointConnectionError /\ e <> ConnectTimeoutError /\ e <> ReadTimeoutError.
Proof.
  intros E.
  destruct (raises_guard fn on (fun _ => True) (fun _ _ _ _ => I) s e s' E) as [_ N].
  repeat split; intros ->; discriminate.
Qed.

(** An operation that is refused with a ClientError. *)
Lemma guard_never_raises_network_error_witness :
  try_once_retry_once
    (client_call (S := World) ListBuckets
       (fun _ => @Raise unit (ClientError "AccessDenied")))
    "demo" initial_world
  = (Raise (ClientError "AccessDenied"), record_call ListBuckets initial_world)
  /\ ClientError "AccessDenied" <> EndpointConnectionError
  /\ ClientError "AccessDenied" <> ConnectTimeoutError
  /\ ClientError "AccessDenied" <> ReadTimeoutError.
Proof.
  split; [reflexivity|].
  apply (guard_never_raises_network_error
           (client_call (S := World) ListBuckets
              (fun _ => @Raise unit (ClientError "AccessDenied")))
           "demo" initial_world (record_call ListBuckets initial_world)).
  reflexivity.
Defined.

(** The guard invokes its operation once or twice, and twice exactly when
    the first invocation raised a network error. *)
Theorem guard_invocation_count
    {S : Type} `{HasWorld S} {A : Type} (fn : M S A) (on : string) (n : Z) (s : S) :
  let n' := fst (snd (try_once_retry_once (counted fn) on (n, s))) in
  (n' = n + 1 \/ n' = n + 2) /\
  (n' = n + 2 <->
   exists e, fst (fn s) = Raise e /\ is_network_error e = true).
Proof.
  cbn zeta. destruct (fn s) as [[v|e1] s1] eqn:E1.
  - rewrite (guard_first_try _ _ _ _ _ (counted_step fn n _ _ _ E1)). cbn [fst snd].
    split; [now left|]. split; [lia | intros (e & Ee & _); discriminate].
  - pose proof (counted_step fn n _ _ _ E1) as C1.
    destruct (is_network_error e1) eqn:N1.
    + destruct (fn (before_retry on s1)) as [r2 s2] eqn:E2.
      assert (C2 : counted fn (before_retry on (n + 1, s1)) = (r2, (n + 1 + 1, s2)))
        by (apply (counted_step fn (n + 1)), E2).
      destruct r2 as [v|e2].
      * rewrite (guard_second_try (counted fn) on (n, s) e1 (n + 1, s1) v
                   (n + 1 + 1, s2) C1 N1 C2).
        cbn [fst snd]. split; [right; lia|]. split; [eauto | lia].
      * destruct (is_network_error e2) eqn:N2.
        -- rewrite (guard_gives_up (counted fn) on (n, s) e1 (n + 1, s1) e2
                      (n + 1 + 1, s2) C1 N1 C2 N2).
           change (fst (snd (@Return (option A) None,
                             after_giving_up on (n + 1 + 1, s2))))
             with (n + 1 + 1).
           split; [right; lia|]. split; [eauto | lia].
        -- rewrite (guard_second_not_network (counted fn) on (n, s) e1 (n + 1, s1) e2
                      (n + 1 + 1, s2) C1 N1 C2 N2).
           cbn [fst snd]. split; [right; lia|]. split; [eauto | lia].
    + rewrite (guard_not_network _ _ _ _ _ C1 N1).
      cbn [fst snd]. split; [now left|].
      split; [lia | intros (e & Ee & Ne); inversion Ee; subst; congruence].
Qed.

(** ** Collectors and network errors *)

Section CollectorErrors.
Context {DT : Type} `{DatetimeOps DT} (cloud : Cloud DT).

Lemma guarded_collector_raises {X} (fn : M World (list X)) (on : string) :
  raises_only (r <- try_once_retry_once fn on ;; ret (or_list r []))
    (fun e => is_network_error e = false).
Proof.
  apply raises_bind; [|intros r; apply raises_ret].
  eapply raises_weaken;
    [apply (raises_guard fn on (fun _ => True)); intros s e s' _; exact I|].
  now intros e [_ N].
Qed.

Lemma bucket_stats_raises (name : string) :
  raises_only (S3Buckets._bucket_stats cloud name) (fun e => is_network_error e = false).
Proof.
  unfold S3Buckets._bucket_stats.
  apply raises_bind; [|intros r; apply raises_ret].
  apply raises_with_cell.
  eapply raises_weaken;
    [apply (raises_guard (S3Buckets._bucket_stats_run cloud name) _ (fun _ => True));
     intros s e s' _; exact I|].
  now intros e [_ N].
Qed.

(** The EC2, S3 and security-group collectors and the per-bucket statistics
    never raise a network error: whatever they raise is of another class.
    (The IAM collector builds its paginator outside the guard and is not
    part of the statement.) *)
Theorem collectors_contain_network_errors (w w' : World) (e : Exc) :
  Ec2Instances.collect_ec2_instances cloud w = (Raise e, w') \/
  S3Buckets.collect_s3_buckets cloud w = (Raise e, w') \/
  SecurityGroups.collect_security_groups cloud w = (Raise e, w') \/
  (exists name, S3Buckets._bucket_stats cloud name w = (Raise e, w')) ->
  e <> EndpointConnectionError /\ e <> ConnectTimeoutError /\ e <> ReadTimeoutError.
Proof.
  intros E.
  assert (N : is_network_error e = false).
  { destruct E as [E | [E | [E | (name & E)]]].
    - exact (guarded_collector_raises _ _ _ _ _ E).
    - exact (guarded_collector_raises _ _ _ _ _ E).
    - exact (guarded_collector_raises _ _ _ _ _ E).
    - exact (bucket_stats_raises name _ _ _ E). }
  repeat split; intros ->; discriminate.
Qed.

(** [validate_region_or_exit] either returns, without touching the world, a
    region that is not the empty string and, when a region was given, is
    that region and one of the known ones; or it prints the error line and
    raises [SystemExit 2], exactly when a non-empty region was given that is
    not known. *)
Theorem validate_region_outcomes (region : option string) (w : World) :
  (validate_region_or_exit cloud region w = (Return (resolved_region cloud region), w) /\
   resolved_region cloud region <> "" /\
   (truthy_str region = true ->
    region = Some (resolved_region cloud region) /\
    resolved_region cloud region ∈ get_available_regions cloud) /\
   (truthy_str region = false ->
    resolved_region cloud region
    = if truthy_str (region_name cloud) then default "" (region_name cloud)
      else "unknown"))
  \/
  (truthy_str region = true /\
   (default "" region ∉ get_available_regions cloud) /\
   validate_region_or_exit cloud region w
   = (Raise (SystemExit 2),
      print_stderr ("[ERROR] Invalid region '" +:+ default "" region +:+ "'") w)).
Proof.
  assert (NE : forall o : option string, truthy_str o = true -> default "" o <> "").
  { intros [x|]; cbn; [|discriminate]. intros T ->. discriminate. }
  destruct (truthy_str region) eqn:T.
  - destruct (decide (default "" region ∈ get_available_regions cloud)) as [Hin|Hout].
    + left. split; [apply validate_region_accepted; now right|].
      unfold resolved_region. rewrite T.
      split; [now apply NE|]. split; [|discriminate].
      intros _. split; [|exact Hin].
      destruct region as [x|]; [reflexivity | discriminate].
    + right. split; [reflexivity|]. split; [exact Hout|].
      now apply validate_region_rejected.
  - left. split; [apply validate_region_accepted; now left|].
    unfold resolved_region. rewrite T.
    split; [|split; [discriminate | reflexivity]].
    destruct (truthy_str (region_name cloud)) eqn:Tn; [now apply NE | discriminate].
Qed.

(** The region lookup of a bucket makes exactly one call, never returns the
    empty string (a non-empty LocationConstraint is returned as it is, a
    missing or empty one gives "us-east-1", a ClientError gives "unknown")
    and never raises a ClientError: what it raises is the exception of the
    call, which every exception other than a ClientError passes through
    unchanged. *)
Theorem bucket_region_outcomes (name : string) (w : World) :
  calls (snd (S3Buckets._bucket_region cloud name w))
  = calls w ++ [GetBucketLocation name]
  /\
  (forall r, fst (S3Buckets._bucket_region cloud name w) = Return r -> r <> "")
  /\
  (forall e, fst (S3Buckets._bucket_region cloud name w) = Raise e ->
             is_client_error e = false)
  /\
  (forall loc, get_bucket_location cloud name (calls w) = Return loc ->
     truthy_str (LocationConstraint loc) = false ->
     fst (S3Buckets._bucket_region cloud name w) = Return "us-east-1")
  /\
  (forall msg, get_bucket_location cloud name (calls w) = Raise (ClientError msg) ->
     fst (S3Buckets._bucket_region cloud name w) = Return "unknown")
  /\
  (forall loc, get_bucket_location cloud name (calls w) = Return loc ->
     truthy_str (LocationConstraint loc) = true ->
     fst (S3Buckets._bucket_region cloud name w)
     = Return (default "" (LocationConstraint loc)))
  /\
  (forall e, get_bucket_location cloud name (calls w) = Raise e ->
     is_client_error e = false ->
     S3Buckets._bucket_region cloud name w
     = (Raise e, record_call (GetBucketLocation name) w)).
Proof.
  unfold S3Buckets._bucket_region, try_except, bind, client_call.
  cbn [get_world set_world world_itself].
  destruct (get_bucket_location cloud name (calls w)) as [loc|e] eqn:E.
  - cbn [ret fst snd]. repeat split; try discriminate.
    + intros r Er. inversion Er; subst r.
      destruct (LocationConstraint loc) as [x|]; cbn; [|discriminate].
      destruct (String.eqb x "") eqn:Ex; cbn; [discriminate|].
      intros ->. discriminate.
    + intros loc' El T. inversion El; subst loc'. now rewrite T.
    + intros loc' El T. inversion El; subst loc'. now rewrite T.
  - destruct (is_client_error e) eqn:C; cbn [ret fst snd].
    + repeat split; try discriminate.
      * intros r Er. inversion Er. discriminate.
      * intros e' Ee N. inversion Ee; subst e'. congruence.
    + repeat split; try discriminate.
      * intros e' Ee. inversion Ee; now subst.
      * intros msg Em. inversion Em; subst e. discriminate.
      * intros e' Ee N. now inversion Ee.
Qed.

(** A bucket whose listing arrives whole at the first attempt gets its
    number of objects and the sum of their sizes (an object without Size
    counting for 0 bytes), with one listing call, no warning and no sleep. *)
Theorem bucket_stats_first_attempt (name : string) (w : World) (pgs : list ObjectsPage) :
  list_objects_v2 cloud name (calls w) = mkPaged pgs None ->
  S3Buckets._bucket_stats cloud name w
  = (Return (object_count pgs, total_size pgs), record_call (ListObjectsV2 name) w).
Proof.
  intros L. unfold S3Buckets._bucket_stats, with_cell. unfold bind at 1.
  rewrite (guard_first_try (S3Buckets._bucket_stats_run cloud name) ("bucket " +:+ name)
             ((0, 0), w) (tally pgs (0, 0))
             (tally pgs (0, 0), record_call (ListObjectsV2 name) w)).
  - cbn [ret or_pair fst]. now rewrite tally_totals.
  - rewrite bucket_stats_run_pass, L. reflexivity.
Qed.
End CollectorErrors.

Lemma collectors_contain_network_errors_witness :
  ClientError "AccessDenied" <> EndpointConnectionError
  /\ ClientError "AccessDenied" <> ConnectTimeoutError
  /\ ClientError "AccessDenied" <> ReadTimeoutError.
Proof.
  apply (collectors_contain_network_errors denied_bucket initial_world
           (snd (S3Buckets.collect_s3_buckets denied_bucket initial_world))).
  right. left. vm_compute. reflexivity.
Defined.

Lemma bucket_stats_first_attempt_witness :
  S3Buckets._bucket_stats small_account "logs" initial_world
  = (Return (2, 500), record_call (ListObjectsV2 "logs") initial_world).
Proof.
  apply (bucket_stats_first_attempt small_account "logs" initial_world
           [{| Contents := [{| Size := Some 200 |}; {| Size := Some 300 |}] |}]).
  reflexivity.
Defined.

(** ** One record per item *)

Lemma fold_left_snoc {X Y} (f : X -> Y) (xs : list X) (acc : list Y) :
  fold_left (fun results x => results ++ [f x]) xs acc = acc ++ map f xs.
Proof.
  revert acc. induction xs as [|x xs IH]; intros acc; cbn.
  - now rewrite app_nil_r.
  - now rewrite IH, <- app_assoc.
Qed.

Section OneRecordPerItem.
Context {DT : Type} `{DatetimeOps DT} (cloud : Cloud DT).

Lemma sg_run_pass (w : World) :
  SecurityGroups._run cloud w
  = (match failure (describe_security_groups cloud (calls w)) with
     | Some e => Raise e
     | None =>
         Return (map SecurityGroups.group_record
                   (concat (map page_SecurityGroups
                              (pages (describe_security_groups cloud (calls w))))))
     end, record_call DescribeSecurityGroups w).
Proof.
  unfold SecurityGroups._run, paginate, client_call. unfold bind at 1.
  cbn [get_world set_world world_itself]. unfold for_pages.
  assert (P : forall (pgs : list SecurityGroupsPage) acc (s : World),
             for_each pgs
               (fun results page =>
                  for_each (page_SecurityGroups page)
                    (fun results g => ret (results ++ [SecurityGroups.group_record g]))
                    results)
               acc s
             = (Return (acc ++ map SecurityGroups.group_record
                                (concat (map page_SecurityGroups pgs))), s)).
  { induction pgs as [|page pgs IH]; intros acc s.
    - cbn. now rewrite app_nil_r.
    - cbn [for_each]. unfold bind at 1.
      rewrite (for_each_pure (fun results g => results ++ [SecurityGroups.group_record g])).
      rewrite fold_left_snoc, IH. cbn [map concat].
      now rewrite map_app, app_assoc. }
  unfold bind. rewrite P.
  destruct (failure (describe_security_groups cloud (calls w))); reflexivity.
Qed.

(** When the listing of the security groups arrives whole, the collector
    returns one record per group, in the order of the pages and of the
    groups on each page, after a single listing call. *)
Theorem security_groups_in_listing_order (w : World) (pgs : list SecurityGroupsPage) :
  describe_security_groups cloud (calls w) = mkPaged pgs None ->
  SecurityGroups.collect_security_groups cloud w
  = (Return (map SecurityGroups.group_record (concat (map page_SecurityGroups pgs))),
     record_call DescribeSecurityGroups w).
Proof.
  intros L. unfold SecurityGroups.collect_security_groups. unfold bind at 1.
  rewrite (guard_first_try (SecurityGroups._run cloud) "security groups" w
             (map SecurityGroups.group_record (concat (map page_SecurityGroups pgs)))
             (record_call DescribeSecurityGroups w)).
  - cbn [ret]. now rewrite or_list_Some.
  - rewrite sg_run_pass, L. reflexivity.
Qed.

(** The two enrichment steps of a user, for every answer of the clients. *)
Lemma last_activity_step (u : User DT) (w : World) :
  (forall e, get_user cloud (UserName u) (calls w) = Raise e -> is_client_error e = true) ->
  exists last_activity,
    try_except
      (gu <- client_call (GetUser (UserName u)) (get_user cloud (UserName u)) ;;
       ret (utc_iso (match gu_User gu with
                     | Some detail => PasswordLastUsed detail
                     | None => None
                     end)))
      is_client_error
      (fun _ => ret None) w
    = (Return last_activity, record_call (GetUser (UserName u)) w)
    /\ (forall e, get_user cloud (UserName u) (calls w) = Raise e -> last_activity = None).
Proof.
  intros Hg. unfold try_except, bind, client_call.
  cbn [get_world set_world world_itself].
  destruct (get_user cloud (UserName u) (calls w)) as [gu|e] eqn:E.
  - eexists. split; [reflexivity | discriminate].
  - rewrite (Hg e eq_refl). exists None. split; reflexivity.
Qed.

Lemma policies_step (username : option string) (w : World) :
  (forall e, failure (list_attached_user_policies cloud username (calls w)) = Some e ->
             is_client_error e = true) ->
  exists w',
    with_cell ([] : list PyVal)
      (try_except
         (pol_pages <- paginate (ListAttachedUserPolicies username)
                         (list_attached_user_policies cloud username) ;;
          for_pages pol_pages
            (fun _ pol_page =>
               for_each (AttachedPolicies pol_page)
                 (fun _ p =>
                    update_cell (fun attached =>
                      attached ++
                      [PyDict [item "policy_name" (py_opt_str (PolicyName p));
                               item "policy_arn" (py_opt_str (PolicyArn p))]]))
                 tt)
            tt)
         is_client_error
         (fun _ => warn ("Cannot list policies for " +:+ str_opt_str username))) w
    = (Return (tt, policy_records
                     (pages (list_attached_user_policies cloud username (calls w)))), w')
    /\ calls w' = calls w ++ [ListAttachedUserPolicies username]
    /\ (failure (list_attached_user_policies cloud username (calls w)) = None ->
        w' = record_call (ListAttachedUserPolicies username) w).
Proof.
  intros Hf. unfold with_cell, try_except, paginate, client_call.
  unfold bind at 1.
  cbn [get_world set_world world_under_cell world_itself fst snd].
  unfold for_pages. unfold bind at 1. rewrite attach_policy_pages.
  destruct (failure (list_attached_user_policies cloud username (calls w))) as [e|] eqn:F.
  - cbn [raise]. rewrite (Hf e eq_refl).
    eexists. split; [reflexivity|]. split; [reflexivity | discriminate].
  - eexists. split; [reflexivity|]. split; reflexivity.
Qed.

(** The record of a user whose enrichment calls fail only by ClientErrors. *)
Lemma user_record_total (results : list PyVal) (u : User DT) (w : World) :
  (forall e, get_user cloud (UserName u) (calls w) = Raise e -> is_client_error e = true) ->
  (forall e,
      failure (list_attached_user_policies cloud (UserName u)
                 (calls w ++ [GetUser (UserName u)])) = Some e ->
      is_client_error e = true) ->
  exists (last_activity : option string) (w' : World),
    IamUsers.user_record cloud results u w
    = (Return
         (results ++
          [PyDict [item "username" (py_opt_str (UserName u));
                   item "user_id" (py_opt_str (UserId u));
                   item "arn" (py_opt_str (user_Arn u));
                   item "create_date" (py_opt_str (utc_iso (CreateDate u)));
                   item "last_activity" (py_opt_str last_activity);
                   item "attached_policies"
                     (PyList (policy_records
                                (pages (list_attached_user_policies cloud (UserName u)
                                          (calls w ++ [GetUser (UserName u)])))))]]),
       w')
    /\ calls w' = calls w ++ [GetUser (UserName u); ListAttachedUserPolicies (UserName u)]
    /\ (forall e, get_user cloud (UserName u) (calls w) = Raise e -> last_activity = None).
Proof.
  intros Hg Hp.
  destruct (last_activity_step u w Hg) as (la & Ela & Hla).
  destruct (policies_step (UserName u) (record_call (GetUser (UserName u)) w) Hp)
    as (w' & Epol & Hcalls & _).
  exists la, w'. split; [|split; [|exact Hla]].
  - unfold IamUsers.user_record.
    rewrite (bind_Return _ _ w la _ Ela).
    rewrite (bind_Return _ _ _ _ _ Epol). reflexivity.
  - rewrite Hcalls. cbn [record_call calls]. now rewrite <- app_assoc.
Qed.

(** As long as the two enrichment calls of a user fail, if they fail, with a
    ClientError, the user's record is appended: after get_user and one
    policy listing, with the user's base fields and every policy that was
    listed before a failure; last_activity is null when get_user failed. *)
Theorem user_record_survives_refusals (results : list PyVal) (u : User DT) (w : World) :
  (forall e, get_user cloud (UserName u) (calls w) = Raise e -> is_client_error e = true) ->
  (forall e,
      failure (list_attached_user_policies cloud (UserName u)
                 (calls w ++ [GetUser (UserName u)])) = Some e ->
      is_client_error e = true) ->
  exists (last_activity : option string) (w' : World),
    IamUsers.user_record cloud results u w
    = (Return
         (results ++
          [PyDict [item "username" (py_opt_str (UserName u));
                   item "user_id" (py_opt_str (UserId u));
                   item "arn" (py_opt_str (user_Arn u));
                   item "create_date" (py_opt_str (utc_iso (CreateDate u)));
                   item "last_activity" (py_opt_str last_activity);
                   item "attached_policies"
                     (PyList (policy_records
                                (pages (list_attached_user_policies cloud (UserName u)
                                          (calls w ++ [GetUser (UserName u)])))))]]),
       w')
    /\ calls w' = calls w ++ [GetUser (UserName u); ListAttachedUserPolicies (UserName u)]
    /\ (forall e, get_user cloud (UserName u) (calls w) = Raise e -> last_activity = None).
Proof. apply user_record_total. Qed.

Lemma user_loop (us : list (User DT)) (results : list PyVal) (w : World) :
  (forall u h e, get_user cloud u h = Raise e -> is_client_error e = true) ->
  (forall u h e, failure (list_attached_user_policies cloud u h) = Some e ->
                 is_client_error e = true) ->
  exists recs w',
    for_each us (IamUsers.user_record cloud) results w = (Return (results ++ recs), w')
    /\ map (dict_get "username") recs = map (fun u => Some (py_opt_str (UserName u))) us.
Proof.
  intros Hg Hp. revert results w. induction us as [|u us IH]; intros results w.
  - exists [], w. cbn. now rewrite app_nil_r.
  - destruct (user_record_total results u w (Hg _ _) (Hp _ _)) as (la & w1 & Eu & _).
    match type of Eu with
    | _ = (Return (results ++ [?r]), _) =>
        destruct (IH (results ++ [r]) w1) as (recs & w' & El & Hn);
        exists (r :: recs), w'
    end.
    split.
    + cbn [for_each]. unfold bind at 1. rewrite Eu, El. now rewrite <- app_assoc.
    + cbn [map]. now rewrite Hn.
Qed.

Lemma user_pages_loop (pgs : list (UsersPage DT)) (results : list PyVal) (w : World) :
  (forall u h e, get_user cloud u h = Raise e -> is_client_error e = true) ->
  (forall u h e, failure (list_attached_user_policies cloud u h) = Some e ->
                 is_client_error e = true) ->
  exists recs w',
    for_each pgs
      (fun results page => for_each (Users page) (IamUsers.user_record cloud) results)
      results w
    = (Return (results ++ recs), w')
    /\ map (dict_get "username") recs
       = map (fun u => Some (py_opt_str (UserName u))) (concat (map Users pgs)).
Proof.
  intros Hg Hp. revert results w. induction pgs as [|pg pgs IH]; intros results w.
  - exists [], w. cbn. now rewrite app_nil_r.
  - destruct (user_loop (Users pg) results w Hg Hp) as (r1 & w1 & E1 & N1).
    destruct (IH (results ++ r1) w1) as (r2 & w' & E2 & N2).
    exists (r1 ++ r2), w'. split.
    + cbn [for_each]. unfold bind at 1. rewrite E1, E2. now rewrite <- app_assoc.
    + cbn [map concat]. now rewrite !map_app, N1, N2.
Qed.

(** When the paginator is built and the user listing arrives whole, and the
    enrichment calls fail, if they fail, with ClientErrors only, the IAM
    collector returns exactly one record per listed user, in listing order
    and under the user's name: no user is dropped because its last
    activity or its policies could not be read. *)
Theorem one_record_per_user (w : World) (pgs : list (UsersPage DT)) :
  get_paginator cloud "list_users" (calls w) = Return tt ->
  list_users cloud (calls w ++ [GetPaginator "list_users"]) = mkPaged pgs None ->
  (forall u h e, get_user cloud u h = Raise e -> is_client_error e = true) ->
  (forall u h e, failure (list_attached_user_policies cloud u h) = Some e ->
                 is_client_error e = true) ->
  exists recs w',
    IamUsers.collect_iam_users cloud w = (Return recs, w')
    /\ map (dict_get "username") recs
       = map (fun u => Some (py_opt_str (UserName u))) (concat (map Users pgs))
    /\ length recs = length (concat (map Users pgs)).
Proof.
  intros Pg L Hg Hp.
  destruct (user_pages_loop pgs []
              (record_call ListUsers (record_call (GetPaginator "list_users") w)) Hg Hp)
    as (recs & w' & El & Hn).
  exists recs, w'. split; [|split; [exact Hn|]].
  - rewrite (iam_with_paginator cloud w Pg). unfold bind at 1.
    rewrite (guard_first_try (IamUsers._run cloud) "IAM users" _ recs w').
    + cbn [ret]. now rewrite or_list_Some.
    + unfold IamUsers._run, paginate, client_call. unfold bind at 1.
      cbn [get_world set_world world_itself record_call calls]. rewrite L.
      unfold for_pages. cbn [pages failure]. unfold bind at 1. now rewrite El.
  - pose proof (f_equal length Hn) as Hl. rewrite !length_map in Hl. exact Hl.
Qed.

(** An error other than a ClientError while the list_users paginator is
    built leaves the IAM collector as it is, after that one call: it is
    outside the retry guard, so even a network error is neither retried
    nor turned into the empty list. *)
Theorem iam_paginator_error_escapes (w : World) (e : Exc) :
  get_paginator cloud "list_users" (calls w) = Raise e ->
  is_client_error e = false ->
  IamUsers.collect_iam_users cloud w
  = (Raise e, record_call (GetPaginator "list_users") w).
Proof.
  intros E N. unfold IamUsers.collect_iam_users.
  apply bind_Raise. apply try_except_passes; [|exact N].
  unfold bind, client_call. cbn [get_world set_world world_itself]. now rewrite E.
Qed.
End OneRecordPerItem.

Lemma security_groups_in_listing_order_witness :
  SecurityGroups.collect_security_groups small_account initial_world
  = (Return (map SecurityGroups.group_record
               (concat (map page_SecurityGroups
                          (pages (describe_security_groups small_account []))))),
     record_call DescribeSecurityGroups initial_world).
Proof.
  apply (security_groups_in_listing_order small_account initial_world
           (pages (describe_security_groups small_account []))).
  reflexivity.
Defined.

Lemma user_record_survives_refusals_witness :
  exists (last_activity : option string) (w' : World),
    IamUsers.user_record restricted_account []
      {| UserName := Some "alice"; UserId := Some "AIDA1"; user_Arn := None;
         CreateDate := None |} initial_world
    = (Return
         ([] ++
          [PyDict [item "username" (PyStr "alice");
                   item "user_id" (PyStr "AIDA1");
                   item "arn" PyNone;
                   item "create_date" PyNone;
                   item "last_activity" (py_opt_str last_activity);
                   item "attached_policies"
                     (PyList (policy_records
                                (pages (list_attached_user_policies restricted_account
                                          (Some "alice")
                                          ([] ++ [GetUser (Some "alice")])))))]]),
       w')
    /\ calls w' = [] ++ [GetUser (Some "alice"); ListAttachedUserPolicies (Some "alice")]
    /\ (forall e, get_user restricted_account (Some "alice") [] = Raise e ->
        last_activity = None).
Proof.
  apply (user_record_survives_refusals restricted_account []
           {| UserName := Some "alice"; UserId := Some "AIDA1"; user_Arn := None;
              CreateDate := None |} initial_world).
  - intros e E. inversion E. reflexivity.
  - intros e E. inversion E. reflexivity.
Defined.

(** ** Buckets one by one *)

Lemma never_raises_returns {S A} (m : M S A) :
  raises_only m (fun _ => False) -> forall s, exists a s', m s = (Return a, s').
Proof.
  intros Hm s. destruct (m s) as [[a|e] s'] eqn:E; [eauto|].
  destruct (Hm s e s' E).
Qed.

Lemma raises_listing {S} `{HasWorld S} {Pg B} (c : Call) (listing : list Call -> Paged Pg)
    (k : Paged Pg -> M S B) (P : Exc -> Prop) :
  (forall h, raises_only (k (listing h)) P) ->
  raises_only (pg <- paginate c listing ;; k pg) P.
Proof.
  intros Hk s e s' E. unfold bind, paginate, client_call in E.
  eapply Hk; eauto.
Qed.

Section BucketsOneByOne.
Context {DT : Type} `{DatetimeOps DT} (cloud : Cloud DT).

Lemma bucket_stats_run_raises (name : string) (P : Exc -> Prop) :
  (forall h e, failure (list_objects_v2 cloud name h) = Some e -> P e) ->
  raises_only (S3Buckets._bucket_stats_run cloud name) P.
Proof.
  intros Hf. unfold S3Buckets._bucket_stats_run.
  apply raises_listing. intros h.
  apply raises_bind; [|intros _; apply raises_read_cell].
  apply raises_for_pages; [|apply Hf].
  intros _ page. apply raises_for_each. intros _ obj. apply raises_update_cell.
Qed.

Lemma bucket_stats_returns (name : string) (w : World) :
  (forall h e, failure (list_objects_v2 cloud name h) = Some e ->
               is_network_error e = true) ->
  exists stats w', S3Buckets._bucket_stats cloud name w = (Return stats, w').
Proof.
  intros Hf. apply never_raises_returns. unfold S3Buckets._bucket_stats.
  apply raises_bind; [|intros r; apply raises_ret].
  apply raises_with_cell.
  eapply raises_weaken.
  - apply raises_guard. apply (bucket_stats_run_raises name _ Hf).
  - cbn beta. intros e [N1 N2]. congruence.
Qed.

Lemma bucket_region_returns (name : string) (w : World) :
  (forall h e, get_bucket_location cloud name h = Raise e -> is_client_error e = true) ->
  exists region w', S3Buckets._bucket_region cloud name w = (Return region, w').
Proof.
  intros Hl. apply never_raises_returns. unfold S3Buckets._bucket_region.
  apply raises_try_except with (P' := fun e => is_client_error e = true).
  - apply raises_bind; [apply raises_client_call, Hl | intros loc; apply raises_ret].
  - intros e C1 C2. congruence.
  - intros e _ _. apply raises_ret.
Qed.

(** The name under which a record is filed. *)
Lemma bucket_loop (bs : list (Bucket DT)) (results : list PyVal) (w : World) :
  (forall name h e, failure (list_objects_v2 cloud name h) = Some e ->
                    is_network_error e = true) ->
  (forall name h e, get_bucket_location cloud name h = Raise e ->
                    is_client_error e = true) ->
  Forall (fun b => is_Some (bucket_Name b)) bs ->
  exists recs w',
    for_each bs (S3Buckets.bucket_record cloud) results w = (Return (results ++ recs), w')
    /\ map (dict_get "bucket_name") recs
       = map (fun b => option_map PyStr (bucket_Name b)) bs
    /\ Forall is_bucket_record recs.
Proof.
  intros Hf Hl Hn. revert results w.
  induction Hn as [|b bs [name Hname] Hn IH]; intros results w.
  - exists [], w. cbn. rewrite app_nil_r. repeat split. constructor.
  - destruct (bucket_stats_returns name w (Hf name)) as (stats & w1 & Es).
    destruct (bucket_region_returns name w1 (Hl name)) as (region & w2 & Er).
    destruct (IH (results ++
                  [PyDict [item "bucket_name" (PyStr name);
                           item "creation_date" (py_opt_str (utc_iso (CreationDate b)));
                           item "region" (PyStr region);
                           item "object_count" (PyInt (fst stats));
                           item "size_bytes" (PyInt (snd stats))]]) w2)
      as (recs & w' & El & Hkeys & Hshape).
    eexists (_ :: recs), w'. split; [|split].
    + cbn [for_each]. unfold bind at 1. unfold S3Buckets.bucket_record at 1.
      rewrite Hname. cbn [subscript]. unfold bind at 1. cbn [ret].
      unfold bind at 1. rewrite Es. unfold bind at 1. rewrite Er. cbn [ret].
      rewrite El. now rewrite <- app_assoc.
    + cbn [map]. rewrite Hkeys, Hname. reflexivity.
    + constructor; [|exact Hshape].
      split; [reflexivity|]. exists name, (fst stats), (snd stats). repeat split.
Qed.

(** When the bucket listing answers and every bucket has a name, object
    listings fail only by network errors and region lookups only by
    ClientErrors, the S3 collector returns exactly one record per bucket,
    in the order of the listing and under the bucket's name: no bucket's
    failure removes or blanks a sibling's record. *)
Theorem one_record_per_bucket (w : World) (resp : BucketsResponse DT) :
  list_buckets cloud (calls w) = Return resp ->
  Forall (fun b => is_Some (bucket_Name b)) (Buckets resp) ->
  (forall name h e, failure (list_objects_v2 cloud name h) = Some e ->
                    is_network_error e = true) ->
  (forall name h e, get_bucket_location cloud name h = Raise e ->
                    is_client_error e = true) ->
  exists recs w',
    S3Buckets.collect_s3_buckets cloud w = (Return recs, w')
    /\ map (dict_get "bucket_name") recs
       = map (fun b => option_map PyStr (bucket_Name b)) (Buckets resp)
    /\ length recs = length (Buckets resp).
Proof.
  intros Hb Hn Hf Hl.
  destruct (bucket_loop (Buckets resp) [] (record_call ListBuckets w) Hf Hl Hn)
    as (recs & w' & El & Hkeys & _).
  exists recs, w'. split; [|split; [exact Hkeys|]].
  - unfold S3Buckets.collect_s3_buckets. unfold bind at 1.
    rewrite (guard_first_try (S3Buckets._run cloud) "S3 buckets" w recs w').
    + cbn [ret]. now rewrite or_list_Some.
    + unfold S3Buckets._run, client_call. unfold bind at 1.
      cbn [get_world set_world world_itself]. rewrite Hb. exact El.
  - pose proof (f_equal length Hkeys) as L. rewrite !length_map in L. exact L.
Qed.
End BucketsOneByOne.

Lemma one_record_per_bucket_witness :
  exists recs w',
    S3Buckets.collect_s3_buckets unreachable_bucket initial_world = (Return recs, w')
    /\ map (dict_get "bucket_name") recs = [Some (PyStr "logs")]
    /\ length recs = 1%nat.
Proof.
  apply (one_record_per_bucket unreachable_bucket initial_world
           {| Buckets := [{| bucket_Name := Some "logs";
                             CreationDate := Some "2024-02-02T00:00:00Z" |}] |}).
  - reflexivity.
  - repeat constructor. eexists. reflexivity.
  - intros name h e E. inversion E. reflexivity.
  - intros name h e E. discriminate.
Defined.

(** ** Dictionaries: tags and resolved names *)

Lemma key_eqb_opt_str (a b : option string) :
  key_eqb (py_opt_str a) (py_opt_str b) = bool_decide (a = b).
Proof.
  destruct a as [x|], b as [y|]; cbn.
  - destruct (String.eqb_spec x y) as [->|N].
    + now rewrite bool_decide_eq_true_2.
    + rewrite bool_decide_eq_false_2; [reflexivity | congruence].
  - now rewrite bool_decide_eq_false_2.
  - now rewrite bool_decide_eq_false_2.
  - now rewrite bool_decide_eq_true_2.
Qed.

Lemma py_opt_str_inj (a b : option string) : py_opt_str a = py_opt_str b -> a = b.
Proof. destruct a, b; cbn; congruence. Qed.

Lemma assoc_get_set_opt (k k' : option string) (v : PyVal) (d : list (PyVal * PyVal)) :
  str_keyed d ->
  assoc_get (py_opt_str k) (assoc_set (py_opt_str k') v d)
  = if decide (k = k') then Some v else assoc_get (py_opt_str k) d.
Proof.
  intros Hd. induction Hd as [|[k0 v0] d [a Ha] Hd IH]; cbn [assoc_set assoc_get].
  - rewrite key_eqb_opt_str. destruct (decide (k = k')) as [E|N].
    + now rewrite bool_decide_eq_true_2.
    + now rewrite bool_decide_eq_false_2.
  - cbn in Ha. subst k0. rewrite !key_eqb_opt_str.
    destruct (decide (k' = a)) as [->|Nk'].
    + rewrite bool_decide_eq_true_2 by reflexivity. cbn [assoc_get].
      rewrite key_eqb_opt_str. destruct (decide (k = a)) as [->|Nk].
      * now rewrite bool_decide_eq_true_2.
      * now rewrite bool_decide_eq_false_2.
    + rewrite (bool_decide_eq_false_2 (k' = a)) by exact Nk'. cbn [assoc_get].
      rewrite key_eqb_opt_str, IH.
      destruct (decide (k = a)) as [->|Nk].
      * rewrite bool_decide_eq_true_2 by reflexivity.
        destruct (decide (a = k')); [congruence | reflexivity].
      * now rewrite bool_decide_eq_false_2.
Qed.

Lemma assoc_set_keys_from (k v : PyVal) (d : list (PyVal * PyVal)) (x : PyVal) :
  x ∈ map fst (assoc_set k v d) -> x ∈ map fst d \/ x = k.
Proof.
  induction d as [|[k0 v0] d IH]; cbn [assoc_set map fst].
  - intros Hx. apply list_elem_of_singleton in Hx. now right.
  - destruct (key_eqb k k0); cbn [map fst]; [now left|].
    intros Hx. apply elem_of_cons in Hx as [-> | Hx].
    + left. apply elem_of_cons. now left.
    + destruct (IH Hx) as [Hd | ->]; [|now right].
      left. apply elem_of_cons. now right.
Qed.

Lemma assoc_set_str_keyed (k' : option string) (v : PyVal) (d : list (PyVal * PyVal)) :
  str_keyed d -> str_keyed (assoc_set (py_opt_str k') v d).
Proof.
  intros Hd. induction Hd as [|[k0 v0] d Ha Hd IH]; cbn [assoc_set].
  - constructor; [now exists k' | constructor].
  - destruct (key_eqb (py_opt_str k') k0); constructor; assumption.
Qed.

Lemma assoc_set_NoDup (k' : option string) (v : PyVal) (d : list (PyVal * PyVal)) :
  str_keyed d -> NoDup (map fst d) -> NoDup (map fst (assoc_set (py_opt_str k') v d)).
Proof.
  intros Hd. induction Hd as [|[k0 v0] d [a Ha] Hd IH]; cbn [assoc_set map fst]; intros Nd.
  - apply NoDup_singleton.
  - cbn in Ha. subst k0. rewrite key_eqb_opt_str.
    apply NoDup_cons in Nd as [Hout Nd].
    destruct (decide (k' = a)) as [-> | N].
    + rewrite bool_decide_eq_true_2 by reflexivity. cbn [map fst].
      now apply NoDup_cons.
    + rewrite bool_decide_eq_false_2 by exact N. cbn [map fst].
      apply NoDup_cons. split; [|now apply IH].
      intros Hin. apply assoc_set_keys_from in Hin as [Hin|E]; [contradiction|].
      apply py_opt_str_inj in E. congruence.
Qed.

Lemma tags_fold (k : option string) (tags : list Tag) (d : list (PyVal * PyVal)) :
  str_keyed d -> NoDup (map fst d) ->
  let d' := fold_left
              (fun d t => assoc_set (py_opt_str (Key t)) (py_opt_str (Value t)) d)
              tags d in
  assoc_get (py_opt_str k) d'
  = match last_tag_value k tags with
    | Some v => Some (py_opt_str v)
    | None => assoc_get (py_opt_str k) d
    end
  /\ str_keyed d' /\ NoDup (map fst d').
Proof.
  revert d. induction tags as [|t tags IH]; intros d Hd Nd; cbn zeta.
  - cbn. auto.
  - cbn [fold_left last_tag_value].
    destruct (IH (assoc_set (py_opt_str (Key t)) (py_opt_str (Value t)) d)
                (assoc_set_str_keyed _ _ _ Hd) (assoc_set_NoDup _ _ _ Hd Nd))
      as (G & K & N).
    split; [|split; assumption].
    rewrite G. destruct (last_tag_value k tags) as [v|]; [reflexivity|].
    rewrite (assoc_get_set_opt _ _ _ _ Hd).
    destruct (decide (k = Key t)) as [-> | Nk].
    + now destruct (decide (Key t = Key t)).
    + destruct (decide (Key t = k)); [congruence | reflexivity].
Qed.

(** The tags of an instance record are always a dictionary (empty when the
    instance has no tags, never null), its keys are distinct, and looking a
    key up gives the Value of the last tag that carries the key. *)
Theorem instance_tags_are_a_mapping {DT : Type} `{DatetimeOps DT}
    (inst : Instance DT) (k : option string) :
  exists items,
    dict_get "tags" (Ec2Instances.instance_record inst) = Some (PyDict items)
    /\ NoDup (map fst items)
    /\ assoc_get (py_opt_str k) items
       = option_map py_opt_str (last_tag_value k (Tags inst))
    /\ (Tags inst = [] -> items = []).
Proof.
  destruct (tags_fold k (Tags inst) [] (List.Forall_nil _) (NoDup_nil_2)) as (G & _ & N).
  cbn zeta in G, N.
  exists (fold_left
            (fun d t => assoc_set (py_opt_str (Key t)) (py_opt_str (Value t)) d)
            (Tags inst) []).
  split; [|split; [exact N|split]].
  - unfold Ec2Instances.instance_record. cbn [dict_get assoc_get item key_eqb String.eqb].
    cbn. destruct (Tags inst); reflexivity.
  - rewrite G. now destruct (last_tag_value k (Tags inst)).
  - now intros ->.
Qed.

Lemma assoc_get_set_other (k k' : string) (v : PyVal) (d : list (PyVal * PyVal)) :
  k <> k' ->
  assoc_get (PyStr k) (assoc_set (PyStr k') v d) = assoc_get (PyStr k) d.
Proof.
  intros N. induction d as [|[k0 v0] d IH]; cbn [assoc_set assoc_get].
  - cbn. now rewrite (proj2 (String.eqb_neq k k') N).
  - destruct (key_eqb (PyStr k') k0) eqn:E'; cbn [assoc_get].
    + destruct k0; cbn in E'; try discriminate.
      apply String.eqb_eq in E'. subst s. cbn.
      now rewrite (proj2 (String.eqb_neq k k') N).
    + now rewrite IH.
Qed.

(** Writing the resolved names touches nothing but ami_name: every other
    field of every record reads as before, and a record whose ami_id is not
    among the names is returned as it was. *)
Theorem resolve_touches_only_ami_name {DT : Type} `{DatetimeOps DT}
    (names : gmap string PyVal) (r : PyVal) :
  (forall k : string, k <> "ami_name" ->
     dict_get k (Ec2Instances.resolve_ami_name names r) = dict_get k r)
  /\
  ((forall ami_id, dict_get "ami_id" r = Some (PyStr ami_id) -> names !! ami_id = None) ->
   Ec2Instances.resolve_ami_name names r = r).
Proof.
  unfold Ec2Instances.resolve_ami_name. split.
  - intros k N.
    destruct (dict_get "ami_id" r) as [[| ami | | |]|]; try reflexivity.
    destruct (names !! ami) as [n|]; [|reflexivity].
    destruct r; try reflexivity. cbn [dict_set dict_get].
    now apply assoc_get_set_other.
  - intros Hn.
    destruct (dict_get "ami_id" r) as [[| ami | | |]|]; try reflexivity.
    now rewrite (Hn ami eq_refl).
Qed.

(** ** What the run leaves untouched *)

#[global] Instance world_itself_lawful : LawfulWorld World.
Proof. intros w s. reflexivity. Qed.

#[global] Instance world_under_cell_lawful (L S : Type) `{LawfulWorld S} :
  LawfulWorld (L * S).
Proof. intros w [l s]. cbn. apply get_set_world. Qed.

Section Keeps.
Variable R : World -> World -> Prop.
Hypothesis R_refl : forall w, R w w.
Hypothesis R_trans : forall w1 w2 w3, R w1 w2 -> R w2 w3 -> R w1 w3.
Hypothesis R_call : forall c w, R w (record_call c w).
Hypothesis R_stderr : forall line w, R w (print_stderr line w).
Hypothesis R_sleep : forall n w, R w (add_sleep n w).

Section Rules.
Context {S : Type} `{LawfulWorld S}.

Lemma keeps_ret {A} (a : A) : keeps R (@ret S A a).
Proof. intros s. apply R_refl. Qed.

Lemma keeps_raise {A} (e : Exc) : keeps R (@raise S A e).
Proof. intros s. apply R_refl. Qed.

Lemma keeps_bind {A B} (m : M S A) (k : A -> M S B) :
  keeps R m -> (forall a, keeps R (k a)) -> keeps R (bind m k).
Proof.
  intros Hm Hk s. unfold bind. specialize (Hm s).
  destruct (m s) as [[a|e] s1]; cbn [snd] in *; [|exact Hm].
  eapply R_trans; [exact Hm | apply Hk].
Qed.

Lemma keeps_try_except {A} (body : M S A) classes handler :
  keeps R body -> (forall e, keeps R (handler e)) ->
  keeps R (try_except body classes handler).
Proof.
  intros Hb Hh s. unfold try_except. specialize (Hb s).
  destruct (body s) as [[a|e] s1]; cbn [snd] in *; [exact Hb|].
  destruct (classes e); cbn [snd]; [|exact Hb].
  eapply R_trans; [exact Hb | apply Hh].
Qed.

Lemma keeps_for_each {X Acc} (xs : list X) (body : Acc -> X -> M S Acc) :
  (forall acc x, keeps R (body acc x)) -> forall acc, keeps R (for_each xs body acc).
Proof.
  intros Hbody. induction xs as [|x xs IH]; intros acc.
  - apply keeps_ret.
  - cbn [for_each]. apply keeps_bind; [apply Hbody | intros a; apply IH].
Qed.

Lemma keeps_for_pages {Pg Acc} (pg : Paged Pg) (body : Acc -> Pg -> M S Acc) :
  (forall acc x, keeps R (body acc x)) -> forall acc, keeps R (for_pages pg body acc).
Proof.
  intros Hbody acc. unfold for_pages.
  apply keeps_bind; [now apply keeps_for_each|].
  intros a. destruct (failure pg); [apply keeps_raise | apply keeps_ret].
Qed.

Lemma keeps_on_world (f : World -> World) :
  (forall w, R w (f w)) -> keeps R (on_world (S := S) f).
Proof. intros Hf s. unfold on_world. cbn [snd]. rewrite get_set_world. apply Hf. Qed.

Lemma keeps_client_call {A} (c : Call) (answer : list Call -> Outcome A) :
  keeps R (client_call (S := S) c answer).
Proof. intros s. unfold client_call. cbn [snd]. rewrite get_set_world. apply R_call. Qed.

Lemma keeps_guard {A} (fn : M S A) (on : string) :
  keeps R fn -> keeps R (try_once_retry_once fn on).
Proof.
  intros Hfn. unfold try_once_retry_once.
  assert (Once : keeps R (v <- fn ;; ret (Some v))).
  { apply keeps_bind; [exact Hfn | intros a; apply keeps_ret]. }
  apply keeps_try_except; [exact Once|]. intros e1.
  apply keeps_bind; [apply keeps_on_world, R_stderr|]. intros _.
  apply keeps_bind; [apply keeps_on_world, R_sleep|]. intros _.
  apply keeps_try_except; [exact Once|]. intros e2.
  apply keeps_bind; [apply keeps_on_world, R_stderr | intros _; apply keeps_ret].
Qed.

Lemma keeps_with_cell {L A} (init : L) (m : M (L * S) A) :
  keeps R m -> keeps R (with_cell init m).
Proof.
  intros Hm s. unfold with_cell. specialize (Hm (init, s)).
  destruct (m (init, s)) as [[a|e] [l s1]]; exact Hm.
Qed.

Lemma keeps_update_cell {L} (f : L -> L) : keeps R (@update_cell S L f).
Proof. intros s. apply R_refl. Qed.

Lemma keeps_read_cell {L} : keeps R (@read_cell S L).
Proof. intros s. apply R_refl. Qed.
End Rules.

Ltac keeps_step :=
  first
    [ apply keeps_ret | apply keeps_raise | apply keeps_update_cell | apply keeps_read_cell
    | apply keeps_client_call
    | apply keeps_on_world; solve [auto]
    | apply keeps_guard | apply keeps_with_cell
    | apply keeps_try_except; [|intros ?]
    | apply keeps_for_pages; intros ? ?
    | apply keeps_for_each; intros ? ?
    | apply keeps_bind; [|intros ?] ].

Section Program.
Context {DT : Type} `{DatetimeOps DT} (cloud : Cloud DT).



Lemma keeps_user_record results (u : User DT) :
  keeps R (IamUsers.user_record cloud results u).
Proof. unfold IamUsers.user_record, paginate, warn. repeat keeps_step. Qed.

Lemma keeps_iam : keeps R (IamUsers.collect_iam_users cloud).
Proof.
  unfold IamUsers.collect_iam_users. apply keeps_bind; [repeat keeps_step|].
  intros [|]; [|apply keeps_ret].
  apply keeps_bind; [|intros ?; apply keeps_ret]. apply keeps_guard.
  unfold IamUsers._run, paginate. apply keeps_bind; [apply keeps_client_call|].
  intros pg. apply keeps_for_pages. intros results page.
  apply keeps_for_each. intros results' u. apply keeps_user_record.
Qed.

Lemma keeps_ami_names (ids : list string) : keeps R (Ec2Instances._ami_names cloud ids).
Proof.
  unfold Ec2Instances._ami_names, subscript. destruct ids; [apply keeps_ret|].
  apply keeps_try_except; [|intros ?; apply keeps_ret].
  apply keeps_bind; [apply keeps_client_call|]. intros resp.
  apply keeps_for_each. intros names img.
  destruct (image_ImageId img); repeat keeps_step.
Qed.

Lemma keeps_ec2 : keeps R (Ec2Instances.collect_ec2_instances cloud).
Proof.
  unfold Ec2Instances.collect_ec2_instances.
  apply keeps_bind; [|intros ?; apply keeps_ret]. apply keeps_guard.
  unfold Ec2Instances._run, paginate. apply keeps_bind; [apply keeps_client_call|].
  intros pg. apply keeps_bind; [repeat keeps_step|]. intros acc.
  apply keeps_bind; [apply keeps_ami_names | intros ?; apply keeps_ret].
Qed.

Lemma keeps_bucket_record results (b : Bucket DT) :
  keeps R (S3Buckets.bucket_record cloud results b).
Proof.
  unfold S3Buckets.bucket_record, subscript.
  destruct (bucket_Name b); [|repeat keeps_step].
  apply keeps_bind; [apply keeps_ret|]. intros name.
  apply keeps_bind.
  - unfold S3Buckets._bucket_stats, S3Buckets._bucket_stats_run, paginate.
    repeat keeps_step.
  - intros stats. unfold S3Buckets._bucket_region. repeat keeps_step.
Qed.

Lemma keeps_s3 : keeps R (S3Buckets.collect_s3_buckets cloud).
Proof.
  unfold S3Buckets.collect_s3_buckets.
  apply keeps_bind; [|intros ?; apply keeps_ret]. apply keeps_guard.
  unfold S3Buckets._run. apply keeps_bind; [apply keeps_client_call|].
  intros resp. apply keeps_for_each. intros results b. apply keeps_bucket_record.
Qed.

Lemma keeps_sg : keeps R (SecurityGroups.collect_security_groups cloud).
Proof.
  unfold SecurityGroups.collect_security_groups, SecurityGroups._run, paginate.
  repeat keeps_step.
Qed.


Lemma keeps_getitem (key : string) (d : PyVal) : keeps R (@getitem World key d).
Proof. unfold getitem. destruct (dict_get key d); [apply keeps_ret | apply keeps_raise]. Qed.

Lemma keeps_to_table (p : PyVal) : keeps R (@to_table World p).
Proof.
  unfold to_table.
  repeat (apply keeps_bind; [apply keeps_getitem|]; intros ?).
  apply keeps_bind; [|intros ?; apply keeps_ret].
  apply keeps_for_each. intros lines u.
  repeat (apply keeps_bind; [apply keeps_getitem|]; intros ?). apply keeps_ret.
Qed.
End Program.
End Keeps.

Lemma bind_assoc {S A B C} (m : M S A) (f : A -> M S B) (g : B -> M S C) (s : S) :
  bind (bind m f) g s = bind m (fun a => bind (f a) g) s.
Proof. unfold bind. destruct (m s) as [[a|e] s1]; reflexivity. Qed.



Lemma calls_extended_refl w : calls_extended w w.
Proof. exists []. now rewrite app_nil_r. Qed.

Lemma calls_extended_same w w' : calls w' = calls w -> calls_extended w w'.
Proof. intros E. exists []. now rewrite app_nil_r. Qed.

Lemma calls_extended_trans w1 w2 w3 :
  calls_extended w1 w2 -> calls_extended w2 w3 -> calls_extended w1 w3.
Proof. intros [m1 E1] [m2 E2]. exists (m1 ++ m2). now rewrite E2, E1, app_assoc. Qed.

Section RunFrames.
Context {DT : Type} `{DatetimeOps DT} (cloud : Cloud DT).




Lemma write_or_print_keeps_calls (text : Rendered) (path : option string) :
  keeps calls_extended (write_or_print cloud text path).
Proof.
  intros w1. apply calls_extended_same. unfold write_or_print.
  destruct (truthy_str path).
  - unfold bind, open_for_writing, write_text.
    destruct (open_w cloud (default "" path)) as [u|e]; [|reflexivity].
    destruct (file_write cloud (default "" path) text); reflexivity.
  - unfold print_text. destruct (print_out cloud text); reflexivity.
Qed.


Lemma rest_keeps_calls (args : Args) (region : string) (ident : string * string) :
  keeps calls_extended
    (bind
       (iam_users <- IamUsers.collect_iam_users cloud ;;
        ec2_instances <- Ec2Instances.collect_ec2_instances cloud ;;
        s3_buckets <- S3Buckets.collect_s3_buckets cloud ;;
        sec_groups <- SecurityGroups.collect_security_groups cloud ;;
        t <- datetime_now cloud ;;
        ret (PyDict
               [item "account_info"
                  (PyDict [item "account_id" (PyStr (fst ident));
                           item "user_arn" (PyStr (snd ident));
                           item "region" (PyStr region);
                           item "scan_timestamp" (py_opt_str (utc_iso (Some t)))]);
                item "resources"
                  (PyDict [item "iam_users" (PyList iam_users);
                           item "ec2_instances" (PyList ec2_instances);
                           item "s3_buckets" (PyList s3_buckets);
                           item "security_groups" (PyList sec_groups)]);
                item "summary"
                  (PyDict [item "total_users" (PyInt (Z.of_nat (length iam_users)));
                           item "running_instances"
                             (PyInt (Z.of_nat (length (List.filter is_running
                                                         ec2_instances))));
                           item "total_buckets" (PyInt (Z.of_nat (length s3_buckets)));
                           item "security_groups"
                             (PyInt (Z.of_nat (length sec_groups)))])]))
       (fun payload =>
          out <- match format args with
                 | json => ret (to_json_blob payload)
                 | table => text <- to_table payload ;; ret (Text text)
                 end ;;
          write_or_print cloud out (output args))).
Proof.
  assert (Rc : forall c w, calls_extended w (record_call c w)) by (intros; now exists [c]).
  assert (Rs : forall l w, calls_extended w (print_stderr l w))
    by (intros; now apply calls_extended_same).
  assert (Rz : forall n w, calls_extended w (add_sleep n w))
    by (intros; now apply calls_extended_same).
  apply (keeps_bind calls_extended calls_extended_trans).
  - apply (keeps_bind calls_extended calls_extended_trans);
      [apply keeps_iam; [exact calls_extended_refl | exact calls_extended_trans
                        | exact Rc | exact Rs | exact Rz]|].
    intros iam.
    apply (keeps_bind calls_extended calls_extended_trans);
      [apply keeps_ec2; [exact calls_extended_refl | exact calls_extended_trans
                        | exact Rc | exact Rs | exact Rz]|].
    intros ec2.
    apply (keeps_bind calls_extended calls_extended_trans);
      [apply keeps_s3; [exact calls_extended_refl | exact calls_extended_trans
                        | exact Rc | exact Rs | exact Rz]|].
    intros s3.
    apply (keeps_bind calls_extended calls_extended_trans);
      [apply keeps_sg; [exact calls_extended_refl | exact calls_extended_trans
                        | exact Rc | exact Rs | exact Rz]|].
    intros sg.
    apply (keeps_bind calls_extended calls_extended_trans);
      [intros w; apply calls_extended_refl
      | intros t; apply (keeps_ret calls_extended calls_extended_refl)].
  - intros payload. apply (keeps_bind calls_extended calls_extended_trans).
    + destruct (format args); [apply (keeps_ret calls_extended calls_extended_refl)|].
      apply (keeps_bind calls_extended calls_extended_trans);
        [|intros text; apply (keeps_ret calls_extended calls_extended_refl)].
      apply keeps_to_table; [apply calls_extended_refl | apply calls_extended_trans].
    + intros out. apply write_or_print_keeps_calls.
Qed.

(** The calls of a run whose region was accepted and whose clients were
    built start with the identity lookup. *)
Lemma main_calls_identity_first (args : Args) (w : World) :
  region_accepted cloud (region args) ->
  boto3_clients cloud (region args) = Return tt ->
  exists more, calls (snd (main cloud args w)) = calls w ++ GetCallerIdentity :: more.
Proof.
  intros Racc B. unfold main, main_payload. cbn zeta.
  rewrite bind_assoc. unfold bind at 1.
  rewrite (validate_region_accepted cloud (region args) w Racc).
  rewrite bind_assoc. unfold bind at 1. unfold build_boto3_clients at 1. rewrite B.
  rewrite bind_assoc. unfold bind at 1.
  assert (Ei : calls (snd (get_account_identity cloud w))
               = calls w ++ [GetCallerIdentity]).
  { unfold get_account_identity, try_except, bind, client_call.
    cbn [get_world set_world world_itself].
    destruct (get_caller_identity cloud (calls w)) as [ident|e]; [reflexivity|].
    destruct (is_client_error e); reflexivity. }
  destruct (get_account_identity cloud w) as [[ident|e] w1]; cbn [snd] in *.
  - destruct (rest_keeps_calls args (resolved_region cloud (region args)) ident w1)
      as [more Emore].
    cbn [get_world world_itself] in Emore.
    exists more. rewrite Emore, Ei, <- app_assoc. reflexivity.
  - exists []. exact Ei.
Qed.

Lemma run_script_world (args : Args) (w : World) :
  snd (run_script cloud args w) = snd (main cloud args w).
Proof.
  unfold run_script, try_except.
  destruct (main cloud args w) as [[u|e] w1]; [reflexivity|].
  destruct (is_keyboard_interrupt e); reflexivity.
Qed.

(** The identity lookup is the first client call of every run that makes
    one.  With a region that passes validation and clients that could be
    constructed, the calls of the run start with the identity lookup,
    whatever else is called comes after it.  When the construction of the
    clients raises, or the region is rejected, the run makes no client call
    at all. *)
Theorem identity_lookup_comes_first (args : Args) (w : World) :
  (region_accepted cloud (region args) ->
   boto3_clients cloud (region args) = Return tt ->
   exists more,
     calls (snd (run_script cloud args w)) = calls w ++ GetCallerIdentity :: more)
  /\
  (region_accepted cloud (region args) ->
   forall e, boto3_clients cloud (region args) = Raise e ->
     calls (snd (run_script cloud args w)) = calls w)
  /\
  (truthy_str (region args) = true ->
   default "" (region args) ∉ get_available_regions cloud ->
   calls (snd (run_script cloud args w)) = calls w).
Proof.
  rewrite run_script_world. split; [|split].
  - apply main_calls_identity_first.
  - intros Racc e B. now rewrite (main_stops_at_clients cloud args w e Racc B).
  - intros T Hout.
    now rewrite (main_stops_at_region cloud args w _ _
                   (validate_region_rejected cloud (region args) w T Hout)).
Qed.
End RunFrames.


Lemma identity_lookup_comes_first_witness :
  (exists more,
     calls (snd (run_script small_account default_args initial_world))
     = calls initial_world ++ GetCallerIdentity :: more)
  /\ calls (snd (run_script no_default_region default_args initial_world))
     = calls initial_world
  /\ calls (snd (run_script small_account
                   {| region := Some "mars-1"; output := None; format := json |}
                   initial_world))
     = calls initial_world.
Proof.
  split; [|split].
  - apply (proj1 (identity_lookup_comes_first small_account default_args initial_world)).
    + left. reflexivity.
    + reflexivity.
  - apply (proj1 (proj2 (identity_lookup_comes_first no_default_region default_args
             initial_world)) ltac:(left; reflexivity) (OtherException "NoRegionError")).
    reflexivity.
  - apply (proj2 (proj2 (identity_lookup_comes_first small_account
             {| region := Some "mars-1"; output := None; format := json |} initial_world))).
    + reflexivity.
    + vm_compute. intros Hin. repeat (apply elem_of_cons in Hin as [Hin|Hin]; [discriminate|]).
      now apply elem_of_nil in Hin.
Defined.

(** ** What a run can end with *)

Lemma raises_try_except_same {S A} (body : M S A) classes handler (P : Exc -> Prop) :
  raises_only body P -> (forall e, raises_only (handler e) P) ->
  raises_only (try_except body classes handler) P.
Proof. intros Hb Hh. eapply raises_try_except; eauto. Qed.

Lemma raises_guard_same {S} `{HasWorld S} {A} (fn : M S A) (on : string) (P : Exc -> Prop) :
  raises_only fn P -> raises_only (try_once_retry_once fn on) P.
Proof.
  intros Hfn. eapply raises_weaken; [apply raises_guard, Hfn|]. now intros e [He _].
Qed.


Lemma raises_subscript {S A} (key : string) (field : option A) (Q : Exc -> Prop) :
  raises_only (@subscript S A key field) (validated_run_raises Q).
Proof.
  destruct field; [apply raises_ret | apply raises_raise]. right. left. eauto.
Qed.

Lemma raises_getitem {S} (key : string) (d : PyVal) (Q : Exc -> Prop) :
  raises_only (@getitem S key d) (validated_run_raises Q).
Proof.
  unfold getitem. destruct (dict_get key d); [apply raises_ret | apply raises_raise].
  right. left. eauto.
Qed.

Section RunRaises.
Context {DT : Type} `{DatetimeOps DT} (cloud : Cloud DT).
Variable Q : Exc -> Prop.
Hypothesis clients : cloud_raises cloud Q.

Let P := validated_run_raises Q.


Lemma raises_identity : raises_only (get_account_identity cloud) P.
Proof.
  destruct clients as (C & _).
  unfold get_account_identity. apply raises_try_except_same.
  - apply raises_bind; [|intros a; apply raises_ret].
    apply raises_client_call. intros h e E. left. eauto.
  - intros e. apply raises_bind; [apply raises_on_world|]. intros _.
    apply raises_raise. right. now right.
Qed.

Lemma raises_user_record results (u : User DT) :
  raises_only (IamUsers.user_record cloud results u) P.
Proof.
  destruct clients as (_ & _ & _ & Cg & Cp & _).
  unfold IamUsers.user_record.
  apply raises_bind.
  - apply raises_try_except_same; [|intros e; apply raises_ret].
    apply raises_bind; [|intros a; apply raises_ret].
    apply raises_client_call. intros h e E. left. eauto.
  - intros la. apply raises_bind; [|intros a; apply raises_ret].
    apply raises_with_cell. apply raises_try_except_same; [|intros e; apply raises_on_world].
    apply raises_listing. intros h. apply raises_for_pages.
    + intros _ page. apply raises_for_each. intros _ p. apply raises_update_cell.
    + intros e E. left. eauto.
Qed.

Lemma raises_iam : raises_only (IamUsers.collect_iam_users cloud) P.
Proof.
  destruct clients as (_ & Cpag & Cl & _).
  unfold IamUsers.collect_iam_users. apply raises_bind.
  - apply raises_try_except_same; [|intros e; apply raises_ret].
    apply raises_bind; [|intros a; apply raises_ret].
    apply raises_client_call. intros h e E. left. eauto.
  - intros [|]; [|apply raises_ret].
    apply raises_bind; [|intros r; apply raises_ret].
    apply raises_guard_same. unfold IamUsers._run.
    apply raises_listing. intros h. apply raises_for_pages.
    + intros results page. apply raises_for_each. intros results' u.
      apply raises_user_record.
    + intros e E. left. eauto.
Qed.

Lemma raises_ec2 : raises_only (Ec2Instances.collect_ec2_instances cloud) P.
Proof.
  destruct clients as (_ & _ & _ & _ & _ & Ci & Cimg & _).
  unfold Ec2Instances.collect_ec2_instances.
  apply raises_bind; [|intros r; apply raises_ret].
  apply raises_guard_same. unfold Ec2Instances._run.
  apply raises_listing. intros h. apply raises_bind.
  - apply raises_for_pages.
    + intros acc page. apply raises_for_each. intros acc1 res.
      apply raises_for_each. intros acc2 inst. apply raises_ret.
    + intros e E. left. eauto.
  - intros acc. apply raises_bind; [|intros names; apply raises_ret].
    unfold Ec2Instances._ami_names. destruct (elements (snd acc)); [apply raises_ret|].
    apply raises_try_except_same; [|intros e; apply raises_ret].
    apply raises_bind.
    + apply raises_client_call. intros h' e E. left. eauto.
    + intros resp. apply raises_for_each. intros names img.
      apply raises_bind; [apply raises_subscript | intros a; apply raises_ret].
Qed.

Lemma raises_s3 : raises_only (S3Buckets.collect_s3_buckets cloud) P.
Proof.
  destruct clients as (_ & _ & _ & _ & _ & _ & _ & Cb & Cloc & Cobj & _).
  unfold S3Buckets.collect_s3_buckets.
  apply raises_bind; [|intros r; apply raises_ret].
  apply raises_guard_same. unfold S3Buckets._run.
  apply raises_bind.
  - apply raises_client_call. intros h e E. left. eauto.
  - intros resp. apply raises_for_each. intros results b.
    unfold S3Buckets.bucket_record.
    apply raises_bind; [apply raises_subscript|]. intros name.
    apply raises_bind.
    + unfold S3Buckets._bucket_stats.
      apply raises_bind; [|intros r; apply raises_ret].
      apply raises_with_cell, raises_guard_same.
      apply bucket_stats_run_raises. intros h e E. left. eauto.
    + intros stats. apply raises_bind; [|intros region; apply raises_ret].
      unfold S3Buckets._bucket_region.
      apply raises_try_except_same; [|intros e; apply raises_ret].
      apply raises_bind; [|intros a; apply raises_ret].
      apply raises_client_call. intros h e E. left. eauto.
Qed.

Lemma raises_sg : raises_only (SecurityGroups.collect_security_groups cloud) P.
Proof.
  destruct clients as (_ & _ & _ & _ & _ & _ & _ & _ & _ & _ & Csg & _).
  unfold SecurityGroups.collect_security_groups.
  apply raises_bind; [|intros r; apply raises_ret].
  apply raises_guard_same. unfold SecurityGroups._run.
  apply raises_listing. intros h. apply raises_for_pages.
  - intros results page. apply raises_for_each. intros results' g. apply raises_ret.
  - intros e E. left. eauto.
Qed.

Lemma raises_to_table (p : PyVal) : raises_only (@to_table World p) P.
Proof.
  unfold to_table.
  repeat (apply raises_bind; [apply raises_getitem|]; intros ?).
  apply raises_bind; [|intros ?; apply raises_ret].
  apply raises_for_each. intros lines u.
  repeat (apply raises_bind; [apply raises_getitem|]; intros ?). apply raises_ret.
Qed.

Lemma raises_build (region : option string) :
  raises_only (build_boto3_clients cloud region) P.
Proof.
  destruct clients as (_ & _ & _ & _ & _ & _ & _ & _ & _ & _ & _ & Cb & _).
  intros s e s' E. unfold build_boto3_clients in E. inversion E. left. eauto.
Qed.

Lemma raises_write_or_print (text : Rendered) (path : option string) :
  raises_only (write_or_print cloud text path) P.
Proof.
  destruct clients as (_ & _ & _ & _ & _ & _ & _ & _ & _ & _ & _ & _ & Co & Cw & Cp).
  unfold write_or_print. destruct (truthy_str path).
  - apply raises_bind.
    + intros s e s' E. unfold open_for_writing in E. inversion E. left. eauto.
    + intros _ s e s' E. unfold write_text in E.
      destruct (file_write cloud (default "" path) text) eqn:F; inversion E; subst.
      left. eauto.
  - intros s e s' E. unfold print_text in E.
    destruct (print_out cloud text) eqn:F; inversion E; subst. left. eauto.
Qed.

(** [main] from the construction of the clients on, for the region the
    validation returned. *)
Lemma raises_past_validation (args : Args) (w0 w w' : World) (r : string) (e : Exc) :
  validate_region_or_exit cloud (region args) w0 = (Return r, w) ->
  main cloud args w0 = (Raise e, w') -> P e.
Proof.
  intros V E. unfold main, main_payload in E. cbn zeta in E.
  rewrite bind_assoc in E. unfold bind at 1 in E. rewrite V in E.
  refine (raises_bind _ _ P _ _ w e w' E).
  - apply raises_bind; [apply raises_build|]. intros built.
    apply raises_bind; [apply raises_identity|]. intros ident.
    apply raises_bind; [apply raises_iam|]. intros iam.
    apply raises_bind; [apply raises_ec2|]. intros ec2.
    apply raises_bind; [apply raises_s3|]. intros s3.
    apply raises_bind; [apply raises_sg|]. intros sg.
    apply raises_bind; [|intros t; apply raises_ret].
    intros s e0 s' E0. discriminate.
  - intros payload. apply raises_bind.
    + destruct (format args); [apply raises_ret|].
      apply raises_bind; [apply raises_to_table | intros text; apply raises_ret].
    + intros out. apply raises_write_or_print.
Qed.

End RunRaises.



(** ** The table *)


Section Table.
Context {DT : Type} `{DatetimeOps DT} (cloud : Cloud DT).


End Table.


Lemma one_record_per_user_witness :
  exists recs w',
    IamUsers.collect_iam_users restricted_account initial_world = (Return recs, w')
    /\ map (dict_get "username") recs = [Some (PyStr "alice")]
    /\ length recs = 1%nat.
Proof.
  apply (one_record_per_user restricted_account initial_world
           (pages (list_users restricted_account [GetPaginator "list_users"]))).
  - reflexivity.
  - reflexivity.
  - intros u h e E. inversion E. reflexivity.
  - intros u h e E. inversion E. reflexivity.
Defined.

Lemma iam_paginator_error_escapes_witness :
  IamUsers.collect_iam_users paginator_down initial_world
  = (Raise ConnectTimeoutError, record_call (GetPaginator "list_users") initial_world).
Proof.
  apply (iam_paginator_error_escapes paginator_down initial_world ConnectTimeoutError);
    reflexivity.
Defined.

(** ** Interrupts *)

Lemma app_cons_split {X} (p q l1 l2 : list X) (c : X) :
  p ++ c :: q = l1 ++ l2 ->
  (exists q1, l1 = p ++ c :: q1 /\ q = q1 ++ l2) \/
  (exists p2, p = l1 ++ p2 /\ l2 = p2 ++ c :: q).
Proof.
  revert p. induction l1 as [|x l1 IH]; intros p E.
  - right. exists p. split; [reflexivity | now symmetry].
  - destruct p as [|y p]; cbn in E.
    + inversion E; subst. left. exists l1. split; reflexivity.
    + inversion E; subst.
      match goal with
      | E' : p ++ c :: q = l1 ++ l2 |- _ =>
          destruct (IH p E') as [(q1 & -> & ->) | (p2 & -> & ->)]
      end.
      * left. exists q1. split; reflexivity.
      * right. exists p2. split; reflexivity.
Qed.

Section Interrupts.
Context {DT : Type} (cloud : Cloud DT).

Section Rules.
Context {S : Type} `{LawfulWorld S}.

Lemma halts_quiet {A} (m : M S A) :
  (forall s, calls (get_world (snd (m s))) = calls (get_world s)) ->
  halts_on_interrupt cloud m.
Proof.
  intros Q s. exists []. split; [now rewrite Q, app_nil_r|].
  intros p c q E. destruct p; discriminate.
Qed.

Lemma halts_ret {A} (a : A) : halts_on_interrupt cloud (@ret S A a).
Proof. now apply halts_quiet. Qed.

Lemma halts_raise {A} (e : Exc) : halts_on_interrupt cloud (@raise S A e).
Proof. now apply halts_quiet. Qed.

Lemma halts_on_world (f : World -> World) :
  (forall w, calls (f w) = calls w) -> halts_on_interrupt cloud (on_world (S := S) f).
Proof.
  intros Hf. apply halts_quiet. intros s. unfold on_world. cbn [snd].
  now rewrite get_set_world.
Qed.

Lemma halts_update_cell {L} (f : L -> L) : halts_on_interrupt cloud (@update_cell S L f).
Proof.
  intros s. exists []. split; [cbn; now rewrite app_nil_r|].
  intros p c q E. destruct p; discriminate.
Qed.

Lemma halts_read_cell {L} : halts_on_interrupt cloud (@read_cell S L).
Proof.
  intros s. exists []. split; [cbn; now rewrite app_nil_r|].
  intros p c q E. destruct p; discriminate.
Qed.

Lemma halts_client_call {A} (c : Call) (answer : list Call -> Outcome A) :
  (forall h, interrupted cloud c h -> answer h = Raise KeyboardInterrupt) ->
  halts_on_interrupt cloud (client_call (S := S) c answer).
Proof.
  intros Ha s. exists [c]. unfold client_call. cbn [fst snd]. rewrite get_set_world.
  split; [reflexivity|]. intros p c' q E I.
  destruct p as [|x p]; cbn in E.
  - inversion E; subst. rewrite app_nil_r in I. split; [now apply Ha | reflexivity].
  - inversion E. destruct p; discriminate.
Qed.

Lemma halts_bind {A B} (m : M S A) (k : A -> M S B) :
  halts_on_interrupt cloud m -> (forall a, halts_on_interrupt cloud (k a)) ->
  halts_on_interrupt cloud (bind m k).
Proof.
  intros Hm Hk s. destruct (Hm s) as (cs1 & E1 & H1). unfold bind.
  destruct (m s) as [[a|e] s1]; cbn [fst snd] in *.
  - destruct (Hk a s1) as (cs2 & E2 & H2). exists (cs1 ++ cs2). split.
    + now rewrite E2, E1, app_assoc.
    + intros p c q E I. symmetry in E.
      apply app_cons_split in E as [(q1 & -> & ->) | (p2 & -> & ->)].
      * destruct (H1 p c q1 eq_refl I) as [D _]. discriminate.
      * apply (H2 p2 c q eq_refl). now rewrite E1, <- app_assoc.
  - exists cs1. split; [exact E1|].
    intros p c q Ec I. destruct (H1 p c q Ec I) as [D ->]. inversion D.
    split; reflexivity.
Qed.

Lemma halts_try_except {A} (body : M S A) (classes : Exc -> bool)
    (handler : Exc -> M S A) :
  classes KeyboardInterrupt = false ->
  halts_on_interrupt cloud body -> (forall e, halts_on_interrupt cloud (handler e)) ->
  halts_on_interrupt cloud (try_except body classes handler).
Proof.
  intros Hc Hb Hh s. destruct (Hb s) as (cs1 & E1 & H1). unfold try_except.
  destruct (body s) as [[a|e] s1]; cbn [fst snd] in *.
  - exists cs1. split; [exact E1 | exact H1].
  - destruct (classes e) eqn:C.
    + destruct (Hh e s1) as (cs2 & E2 & H2). exists (cs1 ++ cs2). split.
      * now rewrite E2, E1, app_assoc.
      * intros p c q E I. symmetry in E.
      apply app_cons_split in E as [(q1 & -> & ->) | (p2 & -> & ->)].
        -- destruct (H1 p c q1 eq_refl I) as [D _]. inversion D; subst e. congruence.
        -- apply (H2 p2 c q eq_refl). now rewrite E1, <- app_assoc.
    + exists cs1. split; [exact E1 | exact H1].
Qed.

Lemma halts_for_each {X Acc} (xs : list X) (body : Acc -> X -> M S Acc) :
  (forall acc x, halts_on_interrupt cloud (body acc x)) ->
  forall acc, halts_on_interrupt cloud (for_each xs body acc).
Proof.
  intros Hbody. induction xs as [|x xs IH]; intros acc.
  - apply halts_ret.
  - cbn [for_each]. apply halts_bind; [apply Hbody | intros a; apply IH].
Qed.

Lemma halts_for_pages {Pg Acc} (pg : Paged Pg) (body : Acc -> Pg -> M S Acc) :
  (forall acc x, halts_on_interrupt cloud (body acc x)) ->
  forall acc, halts_on_interrupt cloud (for_pages pg body acc).
Proof.
  intros Hbody acc. unfold for_pages.
  apply halts_bind; [now apply halts_for_each|].
  intros a. destruct (failure pg); [apply halts_raise | apply halts_ret].
Qed.

(** A listing and what is done with it: when the listing is interrupted
    before its first page, the loop over its pages raises the interrupt at
    once. *)
Lemma halts_listing {Pg B} (c : Call) (listing : list Call -> Paged Pg)
    (k : Paged Pg -> M S B) :
  (forall h, interrupted cloud c h ->
     forall s, k (listing h) s = (Raise KeyboardInterrupt, s)) ->
  (forall pg, halts_on_interrupt cloud (k pg)) ->
  halts_on_interrupt cloud (bind (paginate c listing) k).
Proof.
  intros Hi Hk s. unfold bind, paginate, client_call.
  destruct (Hk (listing (calls (get_world s)))
              (set_world (record_call c (get_world s)) s)) as (cs2 & E2 & H2).
  rewrite get_set_world in E2, H2. cbn [record_call calls] in E2, H2.
  exists (c :: cs2). split.
  - rewrite E2, <- app_assoc. reflexivity.
  - intros p c' q E I. destruct p as [|x p]; cbn in E.
    + inversion E; subst c' q. rewrite app_nil_r in I.
      rewrite (Hi _ I) in *. cbn [fst snd] in *. split; [reflexivity|].
      rewrite get_set_world in E2. cbn [record_call calls] in E2.
      apply (app_inv_head (calls (get_world s) ++ [c])). now rewrite app_nil_r.
    + inversion E; subst x cs2. apply (H2 p c' q eq_refl).
      now rewrite <- app_assoc.
Qed.

Lemma halts_guard {A} (fn : M S A) (on : string) :
  halts_on_interrupt cloud fn -> halts_on_interrupt cloud (try_once_retry_once fn on).
Proof.
  intros Hfn. unfold try_once_retry_once, warn, time_sleep.
  assert (Once : halts_on_interrupt cloud (v <- fn ;; ret (Some v))).
  { apply halts_bind; [exact Hfn | intros a; apply halts_ret]. }
  apply halts_try_except; [reflexivity | exact Once|]. intros e1.
  apply halts_bind; [now apply halts_on_world|]. intros _.
  apply halts_bind; [now apply halts_on_world|]. intros _.
  apply halts_try_except; [reflexivity | exact Once|]. intros e2.
  apply halts_bind; [now apply halts_on_world | intros _; apply halts_ret].
Qed.

Lemma halts_with_cell {L A} (init : L) (m : M (L * S) A) :
  halts_on_interrupt cloud m -> halts_on_interrupt cloud (with_cell init m).
Proof.
  intros Hm s. destruct (Hm (init, s)) as (cs & E & Hc). exists cs. unfold with_cell.
  destruct (m (init, s)) as [[a|e] [l s1]]; cbn in *; (split; [exact E|]).
  - intros p c q Ec I. destruct (Hc p c q Ec I) as [D _]. discriminate.
  - intros p c q Ec I. destruct (Hc p c q Ec I) as [D ->]. inversion D.
    split; reflexivity.
Qed.
End Rules.

Ltac halts_step :=
  first
    [ apply halts_ret | apply halts_raise | apply halts_update_cell | apply halts_read_cell
    | apply halts_on_world; intros ?; reflexivity
    | apply halts_client_call; intros ? I; exact I
    | apply halts_listing; [intros ? I ?; cbn in I; rewrite I; reflexivity | intros ?]
    | apply halts_guard | apply halts_with_cell
    | apply halts_try_except; [reflexivity | | intros ?]
    | apply halts_for_pages; intros ? ?
    | apply halts_for_each; intros ? ?
    | apply halts_bind; [|intros ?] ].

Section Program.
Context `{DatetimeOps DT}.

Lemma halts_validate_region (region : option string) :
  halts_on_interrupt cloud (validate_region_or_exit cloud region).
Proof.
  unfold validate_region_or_exit, error, sys_exit.
  destruct (truthy_str region); [|apply halts_ret].
  destruct (bool_decide _); repeat halts_step.
Qed.

Lemma halts_identity : halts_on_interrupt cloud (get_account_identity cloud).
Proof. unfold get_account_identity, error, sys_exit. repeat halts_step. Qed.

Lemma halts_user_record results (u : User DT) :
  halts_on_interrupt cloud (IamUsers.user_record cloud results u).
Proof. unfold IamUsers.user_record, warn. repeat halts_step. Qed.

Lemma halts_iam : halts_on_interrupt cloud (IamUsers.collect_iam_users cloud).
Proof.
  unfold IamUsers.collect_iam_users. apply halts_bind; [repeat halts_step|].
  intros [|]; [|apply halts_ret].
  apply halts_bind; [|intros ?; apply halts_ret]. apply halts_guard.
  unfold IamUsers._run. halts_step.
  apply halts_for_pages. intros results page.
  apply halts_for_each. intros results' u. apply halts_user_record.
Qed.

Lemma halts_ami_names (ids : list string) :
  halts_on_interrupt cloud (Ec2Instances._ami_names cloud ids).
Proof.
  unfold Ec2Instances._ami_names, subscript. destruct ids; [apply halts_ret|].
  apply halts_try_except; [reflexivity | | intros ?; apply halts_ret].
  apply halts_bind; [halts_step|]. intros resp.
  apply halts_for_each. intros names img.
  destruct (image_ImageId img); repeat halts_step.
Qed.

Lemma halts_ec2 : halts_on_interrupt cloud (Ec2Instances.collect_ec2_instances cloud).
Proof.
  unfold Ec2Instances.collect_ec2_instances.
  apply halts_bind; [|intros ?; apply halts_ret]. apply halts_guard.
  unfold Ec2Instances._run. halts_step.
  apply halts_bind; [repeat halts_step|]. intros acc.
  apply halts_bind; [apply halts_ami_names | intros ?; apply halts_ret].
Qed.

Lemma halts_bucket_record results (b : Bucket DT) :
  halts_on_interrupt cloud (S3Buckets.bucket_record cloud results b).
Proof.
  unfold S3Buckets.bucket_record, subscript.
  destruct (bucket_Name b); [|repeat halts_step].
  apply halts_bind; [apply halts_ret|]. intros name.
  apply halts_bind.
  - unfold S3Buckets._bucket_stats, S3Buckets._bucket_stats_run.
    repeat halts_step.
  - intros stats. unfold S3Buckets._bucket_region. repeat halts_step.
Qed.

Lemma halts_s3 : halts_on_interrupt cloud (S3Buckets.collect_s3_buckets cloud).
Proof.
  unfold S3Buckets.collect_s3_buckets.
  apply halts_bind; [|intros ?; apply halts_ret]. apply halts_guard.
  unfold S3Buckets._run. apply halts_bind; [halts_step|].
  intros resp. apply halts_for_each. intros results b. apply halts_bucket_record.
Qed.

Lemma halts_sg : halts_on_interrupt cloud (SecurityGroups.collect_security_groups cloud).
Proof.
  unfold SecurityGroups.collect_security_groups, SecurityGroups._run.
  repeat halts_step.
Qed.

Lemma halts_main (args : Args) : halts_on_interrupt cloud (main cloud args).
Proof.
  unfold main. apply halts_bind.
  - unfold main_payload.
    apply halts_bind; [apply halts_validate_region|]. intros region.
    apply halts_bind; [now apply halts_quiet|]. intros built.
    apply halts_bind; [apply halts_identity|]. intros ident.
    apply halts_bind; [apply halts_iam|]. intros iam.
    apply halts_bind; [apply halts_ec2|]. intros ec2.
    apply halts_bind; [apply halts_s3|]. intros s3.
    apply halts_bind; [apply halts_sg|]. intros sg.
    apply halts_bind; [now apply halts_quiet | intros t; apply halts_ret].
  - intros payload. apply halts_bind.
    + destruct (format args); [apply halts_ret|].
      apply halts_bind; [|intros text; apply halts_ret].
      apply halts_quiet. intros s.
      destruct (keeps_to_table (fun w w' => calls w' = calls w)
                  ltac:(reflexivity) ltac:(intros; congruence) payload s); reflexivity.
    + intros out. apply halts_quiet. intros s.
      destruct (write_or_print_keeps_calls cloud out (output args) s) as [more E].
      cbn [get_world world_itself] in *.
      unfold write_or_print in *. destruct (truthy_str (output args)).
      * unfold bind, open_for_writing, write_text.
        destruct (open_w cloud (default "" (output args))); [|reflexivity].
        destruct (file_write cloud (default "" (output args)) out); reflexivity.
      * unfold print_text. destruct (print_out cloud out); reflexivity.
Qed.
End Program.
End Interrupts.

(** ** Exit status *)

Section ExitCodes.
Context {DT : Type} `{DatetimeOps DT} (cloud : Cloud DT).

(** C10 (amended). The exit status is 0 when main returns.  It is 2 when a
    non-empty region argument is given that is not among the known regions:
    only the error message is printed, whatever the construction of the
    clients would have done, and no client call at all has been made
    (neither the identity lookup nor any collection).  A missing or empty
    region argument is not checked: the validation returns the session's
    region, or "unknown".  With clients, a construction and output calls
    that do not raise SystemExit themselves, these are the only runs that
    end with status 2.  It is 1 when the region passes, the clients are
    built and the identity lookup fails, with a ClientError (after the
    message "[ERROR] Authentication failed: ...") or with any other
    exception that is neither an interrupt nor a sys.exit.  It is 130 when
    main is ended by a KeyboardInterrupt; and whenever a client call of the
    run is answered by a KeyboardInterrupt, that call is the last call of
    the run and the exit status is 130: no handler below the top level
    catches the interrupt, the retry guard included.  Before main's own
    code runs, argparse ends the run with status 0 after printing the help
    and with status 2 after a usage error, without any client call. *)
Theorem exit_codes (args : Args) (w : World) :
  (forall w', main cloud args w = (Return tt, w') -> exit_code cloud args w = 0)
  /\
  (truthy_str (region args) = true ->
   default "" (region args) ∉ get_available_regions cloud ->
   exit_code cloud args w = 2 /\
   snd (run_script cloud args w)
   = print_stderr ("[ERROR] Invalid region '" +:+ default "" (region args) +:+ "'") w /\
   calls (snd (run_script cloud args w)) = calls w)
  /\
  (truthy_str (region args) = false ->
   validate_region_or_exit cloud (region args) w
   = (Return (if truthy_str (region_name cloud)
              then default "" (region_name cloud) else "unknown"), w))
  /\
  (cloud_raises cloud (fun e => forall code, e <> SystemExit code) ->
   (exit_code cloud args w = 2 <->
    truthy_str (region args) = true /\
    (default "" (region args) ∉ get_available_regions cloud)))
  /\
  (region_accepted cloud (region args) ->
   boto3_clients cloud (region args) = Return tt ->
   forall msg, get_caller_identity cloud (calls w) = Raise (ClientError msg) ->
   exit_code cloud args w = 1 /\
   snd (run_script cloud args w)
   = print_stderr ("[ERROR] Authentication failed: " +:+ msg)
       (record_call GetCallerIdentity w))
  /\
  (region_accepted cloud (region args) ->
   boto3_clients cloud (region args) = Return tt ->
   forall e, get_caller_identity cloud (calls w) = Raise e ->
   is_client_error e = false -> e <> KeyboardInterrupt ->
   (forall code, e <> SystemExit code) ->
   exit_code cloud args w = 1)
  /\
  (forall w', main cloud args w = (Raise KeyboardInterrupt, w') ->
   exit_code cloud args w = 130)
  /\
  (forall p c q,
     calls (snd (run_script cloud args w)) = calls w ++ p ++ c :: q ->
     interrupted cloud c (calls w ++ p) ->
     exit_code cloud args w = 130 /\ q = [])
  /\
  (forall (A : Type) (fn : M World A) (on : string) (w1 w2 : World),
      fn w1 = (Raise KeyboardInterrupt, w2) ->
      try_once_retry_once fn on w1 = (Raise KeyboardInterrupt, w2))
  /\
  (exit_status (fst (script cloud (Parsed args) w)) = exit_code cloud args w /\
   (forall help,
       exit_status (fst (script cloud (HelpRequested help) w)) = 0 /\
       calls (snd (script cloud (HelpRequested help) w)) = calls w) /\
   (forall message,
       exit_status (fst (script cloud (UsageError message) w)) = 2 /\
       calls (snd (script cloud (UsageError message) w)) = calls w)).
Proof.
  assert (Rejected : truthy_str (region args) = true ->
            default "" (region args) ∉ get_available_regions cloud ->
            main cloud args w
            = (Raise (SystemExit 2),
               print_stderr ("[ERROR] Invalid region '" +:+ default "" (region args) +:+ "'")
                 w)).
  { intros T Hout.
    exact (main_stops_at_region cloud args w _ _
             (validate_region_rejected cloud (region args) w T Hout)). }
  split; [|split; [|split; [|split; [|split; [|split; [|split; [|split; [|split]]]]]]]].
  - intros w' E. now rewrite (exit_code_of_main cloud args w _ _ E).
  - intros T Hout. pose proof (Rejected T Hout) as Em.
    split; [now rewrite (exit_code_of_main cloud args w _ _ Em)|].
    unfold run_script, try_except. rewrite Em. split; reflexivity.
  - intros T. unfold validate_region_or_exit. now rewrite T.
  - intros Hc. split.
    + intros E2.
      assert (Acc : region_accepted cloud (region args) -> False).
      { intros R.
        pose proof (validate_region_accepted cloud (region args) w R) as V.
        destruct (main cloud args w) as [[u|e] w'] eqn:Em.
        - rewrite (exit_code_of_main cloud args w _ _ Em) in E2. discriminate.
        - pose proof (raises_past_validation cloud _ Hc args w w w' _ e V Em) as Pe.
          rewrite (exit_code_of_main cloud args w _ _ Em) in E2.
          destruct Pe as [Qe | [(key & ->) | ->]]; try discriminate.
          destruct e; try discriminate. destruct (Qe code eq_refl). }
      destruct (truthy_str (region args)) eqn:T.
      * split; [reflexivity|]. intros Hin. apply Acc. now right.
      * exfalso. apply Acc. now left.
    + intros [T Hout]. now rewrite (exit_code_of_main cloud args w _ _ (Rejected T Hout)).
  - intros R B msg E.
    pose proof (main_stops_at_identity cloud args w _ _ R B
                  (identity_client_error cloud w msg E)) as Em.
    split; [now rewrite (exit_code_of_main cloud args w _ _ Em)|].
    unfold run_script, try_except. rewrite Em. reflexivity.
  - intros R B e E N NK NS.
    pose proof (main_stops_at_identity cloud args w _ _ R B
                  (identity_other_error cloud w e E N)) as Em.
    rewrite (exit_code_of_main cloud args w _ _ Em).
    destruct e; try reflexivity; [contradiction | destruct (NS code eq_refl)].
  - intros w' E. now rewrite (exit_code_of_main cloud args w _ _ E).
  - intros p c q E I.
    destruct (halts_main cloud args w) as (cs & Ec & Hc).
    cbn [get_world world_itself] in Ec, Hc.
    rewrite run_script_world, Ec in E. apply app_inv_head in E. subst cs.
    destruct (Hc p c q eq_refl I) as [Er ->]. split; [|reflexivity].
    destruct (main cloud args w) as [r w'] eqn:Em. cbn [fst] in Er. subst r.
    now rewrite (exit_code_of_main cloud args w _ _ Em).
  - intros A fn on w1 w2. apply guard_passes_interrupt.
  - repeat split.
Qed.
End ExitCodes.

Lemma exit_codes_witness :
  exit_code small_account default_args initial_world = 0
  /\ exit_code small_account unknown_region_args initial_world = 2
  /\ calls (snd (run_script small_account unknown_region_args initial_world)) = []
  /\ exit_code small_account empty_region_args initial_world <> 2
  /\ exit_code bad_credentials default_args initial_world = 1
  /\ exit_code identity_flaky default_args initial_world = 1
  /\ exit_code interrupted_identity default_args initial_world = 130
  /\ exit_code interrupted_bucket_region default_args initial_world = 130
  /\ exit_code interrupted_object_listing default_args initial_world = 130.
Proof.
  assert (Mars : default "" (region unknown_region_args)
                 ∉ get_available_regions small_account).
  { vm_compute. intros Hin.
    repeat (apply elem_of_cons in Hin as [Hin|Hin]; [discriminate|]).
    now apply elem_of_nil in Hin. }
  split; [|split; [|split; [|split; [|split; [|split; [|split; [|split]]]]]]].
  - apply (proj1 (exit_codes small_account default_args initial_world)
             (snd (main small_account default_args initial_world))).
    vm_compute. reflexivity.
  - apply (proj1 (proj2 (exit_codes small_account unknown_region_args initial_world))
             eq_refl Mars).
  - apply (proj1 (proj2 (exit_codes small_account unknown_region_args initial_world))
             eq_refl Mars).
  - assert (Hc : cloud_raises small_account (fun e => forall code, e <> SystemExit code)).
    { repeat split; intros; try discriminate.
      match goal with
      | E : boto3_clients small_account ?r = Raise _ |- _ => destruct r as [[|]|]; cbn in E
      end; congruence. }
    intros E2.
    destruct (proj1 (proj1 (proj2 (proj2 (proj2 (exit_codes small_account
                empty_region_args initial_world)))) Hc) E2) as [T _].
    discriminate T.
  - apply (proj1 (proj2 (proj2 (proj2 (proj2 (exit_codes bad_credentials default_args
             initial_world))))) ltac:(left; reflexivity) eq_refl "InvalidClientTokenId").
    reflexivity.
  - apply (proj1 (proj2 (proj2 (proj2 (proj2 (proj2 (exit_codes identity_flaky default_args
             initial_world)))))) ltac:(left; reflexivity) eq_refl ConnectTimeoutError).
    + reflexivity.
    + reflexivity.
    + discriminate.
    + discriminate.
  - apply (proj1 (proj2 (proj2 (proj2 (proj2 (proj2 (proj2 (proj2
             (exit_codes interrupted_identity default_args initial_world))))))))
             [] GetCallerIdentity []).
    + vm_compute. reflexivity.
    + reflexivity.
  - apply (proj1 (proj2 (proj2 (proj2 (proj2 (proj2 (proj2 (proj2
             (exit_codes interrupted_bucket_region default_args initial_world))))))))
             [GetCallerIdentity; GetPaginator "list_users"; ListUsers;
              GetUser (Some "alice"); ListAttachedUserPolicies (Some "alice");
              DescribeInstances; DescribeImages ["ami-1"]; ListBuckets;
              ListObjectsV2 "logs"]
             (GetBucketLocation "logs") []).
    + vm_compute. reflexivity.
    + reflexivity.
  - apply (proj1 (proj2 (proj2 (proj2 (proj2 (proj2 (proj2 (proj2
             (exit_codes interrupted_object_listing default_args initial_world))))))))
             [GetCallerIdentity; GetPaginator "list_users"; ListUsers;
              GetUser (Some "alice"); ListAttachedUserPolicies (Some "alice");
              DescribeInstances; DescribeImages ["ami-1"]; ListBuckets]
             (ListObjectsV2 "logs") []).
    + vm_compute. reflexivity.
    + reflexivity.
Defined.

(** C10 as stated fails: the empty string given as the region argument is
    not among the known regions, yet the exit status is not 2 and no
    "Invalid region" message is printed.  The check is skipped for an empty
    argument; in this account the construction of the clients then refuses
    the empty region name and the run ends with status 1, nothing printed
    and no client call made. *)
Lemma empty_region_argument_not_rejected :
  region empty_region_args = Some ""
  /\ ("" ∉ get_available_regions small_account)
  /\ validate_region_or_exit small_account (region empty_region_args) initial_world
     = (Return "us-east-1", initial_world)
  /\ exit_code small_account empty_region_args initial_world = 1
  /\ exit_code small_account empty_region_args initial_world <> 2
  /\ snd (run_script small_account empty_region_args initial_world) = initial_world.
Proof.
  split; [reflexivity|]. split.
  { vm_compute. intros Hin.
    repeat (apply elem_of_cons in Hin as [Hin|Hin]; [discriminate|]).
    now apply elem_of_nil in Hin. }
  repeat split; vm_compute; (reflexivity || discriminate).
Qed.
